(** * Rewards tree generator, ruleset v9/v10 with rolling record

    A shallow embedding of
    [shared/services/rewards/generator-impl-v9-v10-rolling.go] and the
    properties of its apportionment that the design document states.

    Conventions of the embedding.
    - [*big.Int] values are [Z]; [Div] is Go's Euclidean division and
      panics on a zero divisor, [Quo] truncates.
    - [uint64] values are [Z] in the range [0, 2^64); conversions to
      [int64] wrap and are written out.
    - Go maps are [gmap]s.  A [range] over a map visits the entries in
      an order chosen by the runtime; where the loop body only adds
      into keyed accumulators the embedding folds over [map_to_list],
      and where the order is observable (the lists of the rewards file)
      the order is an explicit argument.
    - A Go [error] return and a runtime panic are both a value of
      [error]; [EPanic] stands for nil dereferences and divisions by
      zero.
    - Logging is dropped.  Durations are whole seconds. *)

From Stdlib Require Import ZArith Lia List Permutation.
From stdpp Require Import base option list gmap sorting.
Import ListNotations.
Local Open Scope Z_scope.

(** ** Numeric utilities *)

Module Big.

(** [big.Int.Div]: Euclidean division, remainder in [0, |y|). *)
Definition Div (x y : Z) : option Z :=
  if y =? 0 then None
  else if 0 <? y then Some (x / y)
  else Some (- (x / - y)).

(** [big.Int.Quo]: division truncated towards zero. *)
Definition Quo (x y : Z) : option Z :=
  if y =? 0 then None else Some (Z.quot x y).

(** [big.Int.Sign]. *)
Definition Sign (x : Z) : Z := Z.sgn x.

(** [big.Int.Uint64]: the low 64 bits of the magnitude. *)
Definition Uint64 (x : Z) : Z := Z.abs x mod 2 ^ 64.

(** [int64(u)] for a [uint64] [u]. *)
Definition int64 (u : Z) : Z :=
  let w := u mod 2 ^ 64 in
  if w <? 2 ^ 63 then w else w - 2 ^ 64.

End Big.

(** Package-level constants whose names give their values. *)
Definition oneEth : Z := 10 ^ 18.
Definition pointOneEth : Z := 10 ^ 17.
Definition pointOhFourEth : Z := 4 * 10 ^ 16.
Definition fourteenPercentEth : Z := 14 * 10 ^ 16.
Definition thirtyTwoEth : Z := 32 * 10 ^ 18.

(** ** Errors and the result monad *)

Inductive error : Type :=
| ENoPendingRpl
| ENodeWeights
| ECollateralEpsilon
| EODaoEpsilon
| ESmoothingEpsilon
| EFeeCap
| ENetworkQuery
| EBeaconBlock
| EBeaconBlockMissing
| EHeader
| EMerkle
| EPanic.

Inductive result (A : Type) : Type :=
| Ok (a : A)
| Err (e : error).
Arguments Ok {A} a.
Arguments Err {A} e.

Definition bind {A B : Type} (c : result A) (k : A -> result B) : result B :=
  match c with
  | Ok a => k a
  | Err e => Err e
  end.

Notation "'let*' x ':=' c 'in' k" := (bind c (fun x => k))
  (at level 10, x pattern, c at level 100, k at level 200).

(** A nil map entry or a zero divisor is a panic. *)
Definition orPanic {A : Type} (o : option A) : result A :=
  match o with
  | Some a => Ok a
  | None => Err EPanic
  end.

Definition isOk {A : Type} (c : result A) : bool :=
  match c with Ok _ => true | Err _ => false end.

(** Monadic left fold, the shape of every [for ... range] with an early
    [return err]. *)
Fixpoint foldM {A S : Type} (f : S -> A -> result S) (l : list A) (s : S)
  : result S :=
  match l with
  | [] => Ok s
  | a :: l' => let* s' := f s a in foldM f l' s'
  end.

(** ** Network state snapshot *)

Module NodeDetails.
Record t : Type := mk {
  NodeAddress : Z;
  RewardNetwork : Z
}.
End NodeDetails.

Module MinipoolDetails.
Record t : Type := mk {
  MinipoolAddress : Z;
  NodeAddress : Z;
  NodeFee : Z;
  NodeDepositBalance : Z;
  PenaltyCount : Z
}.
End MinipoolDetails.

Module OracleDaoMember.
Record t : Type := mk {
  Address : Z;
  JoinedTime : Z
}.
End OracleDaoMember.

Module NetworkDetails.
Record t : Type := mk {
  PendingRPLRewards : Z;
  ProtocolDaoRewardsPercent : Z;
  NodeOperatorRewardsPercent : Z;
  TrustedNodeOperatorRewardsPercent : Z;
  SmoothingPoolBalance : Z;
  IntervalDuration : Z
}.
End NetworkDetails.

Module NetworkState.
Record t : Type := mk {
  NodeDetails : list NodeDetails.t;
  MinipoolDetails : list MinipoolDetails.t;
  NodeDetailsByAddress : gmap Z NodeDetails.t;
  MinipoolDetailsByAddress : gmap Z MinipoolDetails.t;
  MinipoolDetailsByNode : gmap Z (list MinipoolDetails.t);
  OracleDaoMemberDetails : list OracleDaoMember.t;
  NetworkDetails : NetworkDetails.t;
  (** [CalculateNodeWeights()]: weights by node, total weight, or an
      error; computed by the state package. *)
  CalculateNodeWeights : option (gmap Z Z * Z);
  (** Second result of [GetStakedRplValueInEthAndPercentOfBorrowedEth]
      on the node's eligible borrowed ETH and RPL stake. *)
  PercentOfBorrowedEth : NodeDetails.t -> Z
}.
End NetworkState.

(** ** Rolling record *)

Module MinipoolInfo.
Record t : Type := mk {
  Address : Z;
  ValidatorPubkey : Z;
  NodeAddress : Z;
  AttestationScore : Z;
  AttestationCount : Z;
  MissingAttestationSlots : gmap Z bool;
  NodeOperatorBond : Z;
  (** Pointer fields; [None] is nil. *)
  MinipoolShare : option Z;
  MinipoolBonus : option Z;
  ConsensusIncome : option Z;
  TotalFee : option Z
}.

Definition withBond (m : t) (b : Z) : t :=
  mk (Address m) (ValidatorPubkey m) (NodeAddress m) (AttestationScore m)
     (AttestationCount m) (MissingAttestationSlots m) b
     (MinipoolShare m) (MinipoolBonus m) (ConsensusIncome m) (TotalFee m).

Definition withShare (m : t) (s : option Z) : t :=
  mk (Address m) (ValidatorPubkey m) (NodeAddress m) (AttestationScore m)
     (AttestationCount m) (MissingAttestationSlots m) (NodeOperatorBond m)
     s (MinipoolBonus m) (ConsensusIncome m) (TotalFee m).

Definition withBonus (m : t) (b : option Z) : t :=
  mk (Address m) (ValidatorPubkey m) (NodeAddress m) (AttestationScore m)
     (AttestationCount m) (MissingAttestationSlots m) (NodeOperatorBond m)
     (MinipoolShare m) b (ConsensusIncome m) (TotalFee m).

Definition withIncome (m : t) (c : option Z) : t :=
  mk (Address m) (ValidatorPubkey m) (NodeAddress m) (AttestationScore m)
     (AttestationCount m) (MissingAttestationSlots m) (NodeOperatorBond m)
     (MinipoolShare m) (MinipoolBonus m) c (TotalFee m).

Definition withTotalFee (m : t) (f : option Z) : t :=
  mk (Address m) (ValidatorPubkey m) (NodeAddress m) (AttestationScore m)
     (AttestationCount m) (MissingAttestationSlots m) (NodeOperatorBond m)
     (MinipoolShare m) (MinipoolBonus m) (ConsensusIncome m) f.
End MinipoolInfo.

(** [cheaters[a]] on a [map[common.Address]bool]: absent keys read false. *)
Definition isCheater (cheaters : gmap Z bool) (a : Z) : bool :=
  default false (cheaters !! a).

Definition sumZ (l : list Z) : Z := foldr Z.add 0 l.

Module RollingRecord.
Record t : Type := mk {
  StartSlot : Z;
  (** The per-validator entries the record has accumulated. *)
  Minipools : list MinipoolInfo.t
}.

(** Modelled from the spec: [RollingRecord.GetScores] is declared
    outside this file.  It yields the per-minipool attestation scores,
    the total score and the total count of successful attestations,
    and is passed the cheater set so that cheaters' minipools are
    excluded from scoring. *)
Definition GetScores (rr : t) (cheaters : gmap Z bool)
  : list MinipoolInfo.t * Z * Z :=
  let scored :=
    filter (fun m => isCheater cheaters (MinipoolInfo.NodeAddress m) = false)
           (Minipools rr) in
  (scored,
   sumZ (map MinipoolInfo.AttestationScore scored),
   sumZ (map MinipoolInfo.AttestationCount scored) mod 2 ^ 64).
End RollingRecord.

(** ** The rewards file *)

Module NodeReward.
Record t : Type := mk {
  Address : Z;
  Network : Z;
  CollateralRpl : Z;
  OracleDaoRpl : Z;
  SmoothingPoolEth : Z
}.

(** [ssz_types.NewNodeReward]: a zeroed entry. *)
Definition New (network address : Z) : t := mk address network 0 0 0.

Definition addCollateralRpl (n : t) (x : Z) : t :=
  mk (Address n) (Network n) (CollateralRpl n + x) (OracleDaoRpl n)
     (SmoothingPoolEth n).
Definition addOracleDaoRpl (n : t) (x : Z) : t :=
  mk (Address n) (Network n) (CollateralRpl n) (OracleDaoRpl n + x)
     (SmoothingPoolEth n).
Definition addSmoothingPoolEth (n : t) (x : Z) : t :=
  mk (Address n) (Network n) (CollateralRpl n) (OracleDaoRpl n)
     (SmoothingPoolEth n + x).
Definition withAddress (n : t) (a : Z) : t :=
  mk a (Network n) (CollateralRpl n) (OracleDaoRpl n) (SmoothingPoolEth n).
End NodeReward.

Module NetworkReward.
Record t : Type := mk {
  Network : Z;
  CollateralRpl : Z;
  OracleDaoRpl : Z;
  SmoothingPoolEth : Z
}.

(** [ssz_types.NewNetworkReward]: a zeroed entry. *)
Definition New (network : Z) : t := mk network 0 0 0.

Definition addCollateralRpl (n : t) (x : Z) : t :=
  mk (Network n) (CollateralRpl n + x) (OracleDaoRpl n) (SmoothingPoolEth n).
Definition addOracleDaoRpl (n : t) (x : Z) : t :=
  mk (Network n) (CollateralRpl n) (OracleDaoRpl n + x) (SmoothingPoolEth n).
Definition addSmoothingPoolEth (n : t) (x : Z) : t :=
  mk (Network n) (CollateralRpl n) (OracleDaoRpl n) (SmoothingPoolEth n + x).
Definition withNetwork (n : t) (l : Z) : t :=
  mk l (CollateralRpl n) (OracleDaoRpl n) (SmoothingPoolEth n).
End NetworkReward.

Module TotalRewards.
Record t : Type := mk {
  ProtocolDaoRpl : Z;
  TotalCollateralRpl : Z;
  TotalOracleDaoRpl : Z;
  TotalSmoothingPoolEth : Z;
  PoolStakerSmoothingPoolEth : Z;
  NodeOperatorSmoothingPoolEth : Z;
  TotalNodeWeight : Z
}.

Definition zero : t := mk 0 0 0 0 0 0 0.

Definition withProtocolDaoRpl (x : t) (v : Z) : t :=
  mk v (TotalCollateralRpl x) (TotalOracleDaoRpl x) (TotalSmoothingPoolEth x)
     (PoolStakerSmoothingPoolEth x) (NodeOperatorSmoothingPoolEth x)
     (TotalNodeWeight x).
Definition withTotalCollateralRpl (x : t) (v : Z) : t :=
  mk (ProtocolDaoRpl x) v (TotalOracleDaoRpl x) (TotalSmoothingPoolEth x)
     (PoolStakerSmoothingPoolEth x) (NodeOperatorSmoothingPoolEth x)
     (TotalNodeWeight x).
Definition withTotalOracleDaoRpl (x : t) (v : Z) : t :=
  mk (ProtocolDaoRpl x) (TotalCollateralRpl x) v (TotalSmoothingPoolEth x)
     (PoolStakerSmoothingPoolEth x) (NodeOperatorSmoothingPoolEth x)
     (TotalNodeWeight x).
Definition withTotalNodeWeight (x : t) (v : Z) : t :=
  mk (ProtocolDaoRpl x) (TotalCollateralRpl x) (TotalOracleDaoRpl x)
     (TotalSmoothingPoolEth x) (PoolStakerSmoothingPoolEth x)
     (NodeOperatorSmoothingPoolEth x) v.
(** The three assignments that close [calculateEthRewards]. *)
Definition withSmoothingPool (x : t) (staker nodeOp total : Z) : t :=
  mk (ProtocolDaoRpl x) (TotalCollateralRpl x) (TotalOracleDaoRpl x)
     total staker nodeOp (TotalNodeWeight x).
End TotalRewards.

Module SSZFile.
(** [ssz_types.SSZFile_v1], without the start and end wall-clock times
    (set from [beaconConfig.GetSlotTime], read nowhere in this file). *)
Record t : Type := mk {
  RewardsFileVersion : Z;
  RulesetVersion : Z;
  Index : Z;
  IntervalsPassed : Z;
  ConsensusStartBlock : Z;
  ExecutionStartBlock : Z;
  ConsensusEndBlock : Z;
  ExecutionEndBlock : Z;
  TotalRewards : TotalRewards.t;
  NetworkRewards : list NetworkReward.t;
  NodeRewards : list NodeReward.t;
  MerkleRoot : option Z
}.

Definition withTotalRewards (f : t) (v : TotalRewards.t) : t :=
  mk (RewardsFileVersion f) (RulesetVersion f) (Index f) (IntervalsPassed f)
     (ConsensusStartBlock f) (ExecutionStartBlock f) (ConsensusEndBlock f)
     (ExecutionEndBlock f) v (NetworkRewards f) (NodeRewards f)
     (MerkleRoot f).
Definition withBlocks (f : t) (cs es ce ee : Z) : t :=
  mk (RewardsFileVersion f) (RulesetVersion f) (Index f) (IntervalsPassed f)
     cs es ce ee (TotalRewards f) (NetworkRewards f) (NodeRewards f)
     (MerkleRoot f).
Definition withNodeRewards (f : t) (v : list NodeReward.t) : t :=
  mk (RewardsFileVersion f) (RulesetVersion f) (Index f) (IntervalsPassed f)
     (ConsensusStartBlock f) (ExecutionStartBlock f) (ConsensusEndBlock f)
     (ExecutionEndBlock f) (TotalRewards f) (NetworkRewards f) v
     (MerkleRoot f).
Definition withNetworkRewards (f : t) (v : list NetworkReward.t) : t :=
  mk (RewardsFileVersion f) (RulesetVersion f) (Index f) (IntervalsPassed f)
     (ConsensusStartBlock f) (ExecutionStartBlock f) (ConsensusEndBlock f)
     (ExecutionEndBlock f) (TotalRewards f) v (NodeRewards f)
     (MerkleRoot f).
Definition withMerkleRoot (f : t) (v : option Z) : t :=
  mk (RewardsFileVersion f) (RulesetVersion f) (Index f) (IntervalsPassed f)
     (ConsensusStartBlock f) (ExecutionStartBlock f) (ConsensusEndBlock f)
     (ExecutionEndBlock f) (TotalRewards f) (NetworkRewards f)
     (NodeRewards f) v.
End SSZFile.

(** ** The minipool performance file *)

Module Performance.
(** [SmoothingPoolMinipoolPerformance_v2]. *)
Record t : Type := mk {
  Pubkey : Z;
  SuccessfulAttestations : Z;
  MissedAttestations : Z;
  AttestationScore : Z;
  EthEarned : option Z;
  BonusEthEarned : option Z;
  ConsensusIncome : option Z;
  EffectiveCommission : option Z;
  MissingAttestationSlots : list Z
}.
End Performance.

Module PerformanceFile.
(** [MinipoolPerformanceFile_v2]; the header fields copied from the
    rewards file are left out. *)
Record t : Type := mk {
  BonusScalar : option Z;
  MinipoolPerformance : gmap Z Performance.t
}.
End PerformanceFile.

Module NodeSmoothingDetails.
(** The opt-in bookkeeping ([IsOptedIn], [OptInTime], [OptOutTime]) is
    written once and never read by this generator; it is left out. *)
Record t : Type := mk {
  Address : Z;
  IsEligible : bool;
  Minipools : list MinipoolInfo.t;
  SmoothingPoolEth : Z;
  BonusEth : Z;
  RewardsNetwork : Z
}.

Definition withMinipools (n : t) (l : list MinipoolInfo.t) : t :=
  mk (Address n) (IsEligible n) l (SmoothingPoolEth n) (BonusEth n)
     (RewardsNetwork n).
Definition withSmoothingPoolEth (n : t) (v : Z) : t :=
  mk (Address n) (IsEligible n) (Minipools n) v (BonusEth n)
     (RewardsNetwork n).
Definition withBonusEth (n : t) (v : Z) : t :=
  mk (Address n) (IsEligible n) (Minipools n) (SmoothingPoolEth n) v
     (RewardsNetwork n).
End NodeSmoothingDetails.

(** ** External clients *)

Module ExecutionClient.
(** [RewardsExecutionClient]: the on-chain validity of a reward
    network and the timestamp of an execution header. *)
Record t : Type := mk {
  GetNetworkEnabled : Z -> option bool;
  HeaderByNumber : Z -> option Z
}.
End ExecutionClient.

Module BeaconClient.
(** [RewardsBeaconClient.GetBeaconBlock]: [None] is an error,
    [Some None] a missing block, [Some (Some n)] a block whose
    execution block number is [n]. *)
Record t : Type := mk {
  GetBeaconBlock : Z -> option (option Z)
}.
End BeaconClient.

Module SnapshotEnd.
Record t : Type := mk {
  Slot : Z;
  ConsensusBlock : Z;
  ExecutionBlock : Z
}.
End SnapshotEnd.

(** ** The generator *)

Module Gen.
(** [treeGeneratorImpl_v9_v10_rolling].  The clients [rp] and [bc] are
    stored on entry and only read afterwards; the embedding passes
    them as arguments. *)
Record t : Type := mk {
  networkState : NetworkState.t;
  rewardsFile : SSZFile.t;
  elSnapshotHeaderTime : Z;
  snapshotEnd : SnapshotEnd.t;
  rollingRecord : RollingRecord.t;
  smoothingPoolBalance : Z;
  validNetworkCache : gmap Z bool;
  epsilon : Z;
  intervalSeconds : Z;
  nodeDetails : gmap Z NodeSmoothingDetails.t;
  invalidNetworkNodes : gmap Z Z;
  minipoolPerformanceFile : PerformanceFile.t;
  nodeRewards : gmap Z NodeReward.t;
  networkRewards : gmap Z NetworkReward.t
}.

Definition withRewardsFile (r : t) (v : SSZFile.t) : t :=
  mk (networkState r) v (elSnapshotHeaderTime r) (snapshotEnd r)
     (rollingRecord r) (smoothingPoolBalance r) (validNetworkCache r)
     (epsilon r) (intervalSeconds r) (nodeDetails r)
     (invalidNetworkNodes r) (minipoolPerformanceFile r) (nodeRewards r)
     (networkRewards r).
Definition withSmoothingPoolBalance (r : t) (v : Z) : t :=
  mk (networkState r) (rewardsFile r) (elSnapshotHeaderTime r)
     (snapshotEnd r) (rollingRecord r) v (validNetworkCache r)
     (epsilon r) (intervalSeconds r) (nodeDetails r)
     (invalidNetworkNodes r) (minipoolPerformanceFile r) (nodeRewards r)
     (networkRewards r).
Definition withValidNetworkCache (r : t) (v : gmap Z bool) : t :=
  mk (networkState r) (rewardsFile r) (elSnapshotHeaderTime r)
     (snapshotEnd r) (rollingRecord r) (smoothingPoolBalance r) v
     (epsilon r) (intervalSeconds r) (nodeDetails r)
     (invalidNetworkNodes r) (minipoolPerformanceFile r) (nodeRewards r)
     (networkRewards r).
Definition withEpsilon (r : t) (v : Z) : t :=
  mk (networkState r) (rewardsFile r) (elSnapshotHeaderTime r)
     (snapshotEnd r) (rollingRecord r) (smoothingPoolBalance r)
     (validNetworkCache r) v (intervalSeconds r) (nodeDetails r)
     (invalidNetworkNodes r) (minipoolPerformanceFile r) (nodeRewards r)
     (networkRewards r).
Definition withIntervalSeconds (r : t) (v : Z) : t :=
  mk (networkState r) (rewardsFile r) (elSnapshotHeaderTime r)
     (snapshotEnd r) (rollingRecord r) (smoothingPoolBalance r)
     (validNetworkCache r) (epsilon r) v (nodeDetails r)
     (invalidNetworkNodes r) (minipoolPerformanceFile r) (nodeRewards r)
     (networkRewards r).
Definition withNodeDetails (r : t) (v : gmap Z NodeSmoothingDetails.t) : t :=
  mk (networkState r) (rewardsFile r) (elSnapshotHeaderTime r)
     (snapshotEnd r) (rollingRecord r) (smoothingPoolBalance r)
     (validNetworkCache r) (epsilon r) (intervalSeconds r) v
     (invalidNetworkNodes r) (minipoolPerformanceFile r) (nodeRewards r)
     (networkRewards r).
Definition withInvalidNetworkNodes (r : t) (v : gmap Z Z) : t :=
  mk (networkState r) (rewardsFile r) (elSnapshotHeaderTime r)
     (snapshotEnd r) (rollingRecord r) (smoothingPoolBalance r)
     (validNetworkCache r) (epsilon r) (intervalSeconds r) (nodeDetails r)
     v (minipoolPerformanceFile r) (nodeRewards r) (networkRewards r).
Definition withPerformanceFile (r : t) (v : PerformanceFile.t) : t :=
  mk (networkState r) (rewardsFile r) (elSnapshotHeaderTime r)
     (snapshotEnd r) (rollingRecord r) (smoothingPoolBalance r)
     (validNetworkCache r) (epsilon r) (intervalSeconds r) (nodeDetails r)
     (invalidNetworkNodes r) v (nodeRewards r) (networkRewards r).
Definition withNodeRewards (r : t) (v : gmap Z NodeReward.t) : t :=
  mk (networkState r) (rewardsFile r) (elSnapshotHeaderTime r)
     (snapshotEnd r) (rollingRecord r) (smoothingPoolBalance r)
     (validNetworkCache r) (epsilon r) (intervalSeconds r) (nodeDetails r)
     (invalidNetworkNodes r) (minipoolPerformanceFile r) v
     (networkRewards r).
Definition withNetworkRewards (r : t) (v : gmap Z NetworkReward.t) : t :=
  mk (networkState r) (rewardsFile r) (elSnapshotHeaderTime r)
     (snapshotEnd r) (rollingRecord r) (smoothingPoolBalance r)
     (validNetworkCache r) (epsilon r) (intervalSeconds r) (nodeDetails r)
     (invalidNetworkNodes r) (minipoolPerformanceFile r) (nodeRewards r) v.

Definition totalRewards (r : t) : TotalRewards.t :=
  SSZFile.TotalRewards (rewardsFile r).
Definition withTotalRewards (r : t) (v : TotalRewards.t) : t :=
  withRewardsFile r (SSZFile.withTotalRewards (rewardsFile r) v).
End Gen.

Module GenerateTreeResult.
Record t : Type := mk {
  RewardsFile : SSZFile.t;
  InvalidNetworkNodes : gmap Z Z;
  MinipoolPerformanceFile : PerformanceFile.t
}.
End GenerateTreeResult.

(** The order in which one [range] over a Go map visits its entries: any
    rearrangement of them. *)
Record MapOrder : Type := mkMapOrder {
  visit : forall A : Type, list A -> list A;
  visit_perm : forall (A : Type) (l : list A), Permutation (visit A l) l
}.

(** Sum of one field over the values of a map, as the sanity checks
    accumulate it. *)
Definition sumMap {V : Type} (f : V -> Z) (m : gmap Z V) : Z :=
  sumZ (map (fun kv => f (snd kv)) (map_to_list m)).

Fixpoint mapM {A B : Type} (f : A -> result B) (l : list A) : result (list B) :=
  match l with
  | [] => Ok []
  | a :: l' => let* b := f a in let* bs := mapM f l' in Ok (b :: bs)
  end.

(** Create a new tree generator. *)
Definition newTreeGeneratorImpl_v9_v10_rolling
    (rulesetVersion index : Z) (snapshotEnd : SnapshotEnd.t)
    (elSnapshotHeaderTime intervalsPassed : Z) (state : NetworkState.t)
    (rollingRecord : RollingRecord.t) : Gen.t :=
  Gen.mk state
    (SSZFile.mk 3 rulesetVersion index intervalsPassed 0 0 0 0
       TotalRewards.zero [] [] None)
    elSnapshotHeaderTime snapshotEnd rollingRecord
    0 ∅ 0 0 ∅ ∅ (PerformanceFile.mk None ∅) ∅ ∅.

Definition getRulesetVersion (r : Gen.t) : Z :=
  SSZFile.RulesetVersion (Gen.rewardsFile r).

(** Validates that the provided network is legal. *)
Definition validateNetwork (rp : ExecutionClient.t) (r : Gen.t) (network : Z)
  : result (bool * Gen.t) :=
  match Gen.validNetworkCache r !! network with
  | Some valid => Ok (valid, r)
  | None =>
      match ExecutionClient.GetNetworkEnabled rp (Big.int64 network) with
      | None => Err ENetworkQuery
      | Some valid =>
          Ok (valid,
              Gen.withValidNetworkCache r
                (<[network := valid]> (Gen.validNetworkCache r)))
      end
  end.

(** The block that each allocation path repeats: fetch the node's entry
    of [r.nodeRewards], creating it on the validated network when it
    does not exist.  [network] is only evaluated for a new entry. *)
Definition rewardsForNode (rp : ExecutionClient.t) (r : Gen.t) (address : Z)
    (network : result Z) : result (NodeReward.t * Gen.t) :=
  match Gen.nodeRewards r !! address with
  | Some n => Ok (n, r)
  | None =>
      let* network := network in
      let* (validNetwork, r1) := validateNetwork rp r network in
      let r2 :=
        if validNetwork then r1
        else Gen.withInvalidNetworkNodes r1
               (<[address := network]> (Gen.invalidNetworkNodes r1)) in
      let n := NodeReward.New (if validNetwork then network else 0) address in
      Ok (n, Gen.withNodeRewards r2 (<[address := n]> (Gen.nodeRewards r2)))
  end.

(** Fetch or create the running total of a network. *)
Definition rewardsForNetwork (r : Gen.t) (network : Z) : NetworkReward.t :=
  default (NetworkReward.New network) (Gen.networkRewards r !! network).

Definition calculateNodeRplRewards
    (collateralRewards nodeWeight totalNodeWeight : Z) : result Z :=
  if Big.Sign nodeWeight <=? 0 then Ok 0
  else orPanic (Big.Quo (collateralRewards * nodeWeight) totalNodeWeight).

(** Body of the collateral loop of [calculateRplRewards]. *)
Definition collateralStep (rp : ExecutionClient.t) (nodeWeights : gmap Z Z)
    (totalNodeRewards totalNodeWeight : Z) (r : Gen.t)
    (nodeDetails : NodeDetails.t) : result Gen.t :=
  let address := NodeDetails.NodeAddress nodeDetails in
  let* nodeWeight := orPanic (nodeWeights !! address) in
  let* nodeRplRewards :=
    calculateNodeRplRewards totalNodeRewards nodeWeight totalNodeWeight in
  if Big.Sign nodeRplRewards =? 1 then
    let* (n, r1) :=
      rewardsForNode rp r address
        (Ok (Big.Uint64 (NodeDetails.RewardNetwork nodeDetails))) in
    let n' := NodeReward.addCollateralRpl n nodeRplRewards in
    let r2 := Gen.withNodeRewards r1 (<[address := n']> (Gen.nodeRewards r1)) in
    let net := NodeReward.Network n' in
    Ok (Gen.withNetworkRewards r2
          (<[net := NetworkReward.addCollateralRpl (rewardsForNetwork r2 net)
                      nodeRplRewards]> (Gen.networkRewards r2)))
  else Ok r.

(** The effective time of an oDAO member in the interval. *)
Definition participationTime (intervalDuration snapshotBlockTime joinTime : Z)
  : Z :=
  let eligibleDuration := snapshotBlockTime - joinTime in
  if eligibleDuration <? intervalDuration then eligibleDuration
  else intervalDuration.

(** First oDAO loop: the time of each member, by address, and the total. *)
Definition trueODaoNodeTimes (r : Gen.t) : gmap Z Z * Z :=
  let ns := Gen.networkState r in
  let intervalDuration :=
    NetworkDetails.IntervalDuration (NetworkState.NetworkDetails ns) in
  fold_left
    (fun acc details =>
       let t := participationTime intervalDuration (Gen.elSnapshotHeaderTime r)
                  (OracleDaoMember.JoinedTime details) in
       (<[OracleDaoMember.Address details := t]> (fst acc), snd acc + t))
    (NetworkState.OracleDaoMemberDetails ns) (∅, 0).

(** The reward of one member:
    (participation time) * (total oDAO rewards) / (total participation time). *)
Definition individualOdaoRewards (times : gmap Z Z)
    (totalODaoRewards totalODaoNodeTime address : Z) : result Z :=
  let* t := orPanic (times !! address) in
  orPanic (Big.Div (t * totalODaoRewards) totalODaoNodeTime).

(** Body of the second oDAO loop. *)
Definition odaoStep (rp : ExecutionClient.t) (times : gmap Z Z)
    (totalODaoRewards totalODaoNodeTime : Z) (r : Gen.t)
    (details : OracleDaoMember.t) : result Gen.t :=
  let address := OracleDaoMember.Address details in
  let* x := individualOdaoRewards times totalODaoRewards totalODaoNodeTime
              address in
  let* (n, r1) :=
    rewardsForNode rp r address
      (let* nd := orPanic (NetworkState.NodeDetailsByAddress
                             (Gen.networkState r) !! address) in
       Ok (Big.Uint64 (NodeDetails.RewardNetwork nd))) in
  let n' := NodeReward.addOracleDaoRpl n x in
  let r2 := Gen.withNodeRewards r1 (<[address := n']> (Gen.nodeRewards r1)) in
  let net := NodeReward.Network n' in
  Ok (Gen.withNetworkRewards r2
        (<[net := NetworkReward.addOracleDaoRpl (rewardsForNetwork r2 net) x]>
           (Gen.networkRewards r2))).

(** The collateral part of [calculateRplRewards]: the generator after
    it and the running Protocol DAO amount. *)
Definition collateralRewards (rp : ExecutionClient.t) (r : Gen.t)
    (pendingRewards pDaoRewards totalNodeRewards : Z)
    (nodeWeights : gmap Z Z) (totalNodeWeight : Z) : result (Gen.t * Z) :=
  if 0 <? Big.Sign totalNodeWeight then
    let r0 := Gen.withTotalRewards r
                (TotalRewards.withTotalNodeWeight (Gen.totalRewards r)
                   totalNodeWeight) in
    let* r1 :=
      foldM (collateralStep rp nodeWeights totalNodeRewards totalNodeWeight)
            (NetworkState.NodeDetails (Gen.networkState r)) r0 in
    let totalCalculatedNodeRewards :=
      sumMap NetworkReward.CollateralRpl (Gen.networkRewards r1) in
    let delta := Z.abs (totalNodeRewards - totalCalculatedNodeRewards) in
    if Gen.epsilon r1 <? delta then Err ECollateralEpsilon
    else
      Ok (Gen.withTotalRewards r1
            (TotalRewards.withTotalCollateralRpl (Gen.totalRewards r1)
               totalCalculatedNodeRewards),
          pendingRewards - totalCalculatedNodeRewards)
  else
    Ok (r, pDaoRewards + totalNodeRewards).

(** Calculates the RPL rewards for the given interval. *)
Definition calculateRplRewards (rp : ExecutionClient.t) (r : Gen.t)
  : result Gen.t :=
  let nd := NetworkState.NetworkDetails (Gen.networkState r) in
  let pendingRewards := NetworkDetails.PendingRPLRewards nd in
  if pendingRewards =? 0 then Err ENoPendingRpl
  else
    let pDaoRewards :=
      pendingRewards * NetworkDetails.ProtocolDaoRewardsPercent nd / oneEth in
    let totalNodeRewards :=
      pendingRewards * NetworkDetails.NodeOperatorRewardsPercent nd / oneEth in
    let* (nodeWeights, totalNodeWeight) :=
      match NetworkState.CalculateNodeWeights (Gen.networkState r) with
      | Some w => Ok w
      | None => Err ENodeWeights
      end in
    let* (r1, pDaoRewards) :=
      collateralRewards rp r pendingRewards pDaoRewards totalNodeRewards
        nodeWeights totalNodeWeight in
    let totalODaoRewards :=
      pendingRewards * NetworkDetails.TrustedNodeOperatorRewardsPercent nd
      / oneEth in
    let '(times, totalODaoNodeTime) := trueODaoNodeTimes r1 in
    let* r2 :=
      foldM (odaoStep rp times totalODaoRewards totalODaoNodeTime)
            (NetworkState.OracleDaoMemberDetails (Gen.networkState r1)) r1 in
    let totalCalculatedOdaoRewards :=
      sumMap NetworkReward.OracleDaoRpl (Gen.networkRewards r2) in
    let delta := Z.abs (totalODaoRewards - totalCalculatedOdaoRewards) in
    if Gen.epsilon r2 <? delta then Err EODaoEpsilon
    else
      let pDaoRewards := pDaoRewards - totalCalculatedOdaoRewards in
      Ok (Gen.withTotalRewards r2
            (TotalRewards.withProtocolDaoRpl
               (TotalRewards.withTotalOracleDaoRpl (Gen.totalRewards r2)
                  totalCalculatedOdaoRewards)
               pDaoRewards)).

(** Detect and flag any cheaters: a node of the node list with a minipool
    of three or more penalties. *)
Definition getCheaters (r : Gen.t) : gmap Z bool :=
  let ns := Gen.networkState r in
  fold_left
    (fun cheatingNodes nd =>
       let address := NodeDetails.NodeAddress nd in
       if existsb (fun mpd => 3 <=? MinipoolDetails.PenaltyCount mpd)
            (default [] (NetworkState.MinipoolDetailsByNode ns !! address))
       then <[address := true]> cheatingNodes
       else cheatingNodes)
    (NetworkState.NodeDetails ns) ∅.

(** Gets the EL header time for the given interval's start block and
    records the block numbers of the interval. *)
Definition getBlocksAndTimesForInterval (rp : ExecutionClient.t)
    (bc : BeaconClient.t) (r : Gen.t) : result (Z * Gen.t) :=
  let startSlot := RollingRecord.StartSlot (Gen.rollingRecord r) in
  match BeaconClient.GetBeaconBlock bc startSlot with
  | None => Err EBeaconBlock
  | Some None => Err EBeaconBlockMissing
  | Some (Some elBlockNumber) =>
      match ExecutionClient.HeaderByNumber rp (Big.int64 elBlockNumber) with
      | None => Err EHeader
      | Some startTime =>
          Ok (startTime,
              Gen.withRewardsFile r
                (SSZFile.withBlocks (Gen.rewardsFile r) startSlot elBlockNumber
                   (SnapshotEnd.ConsensusBlock (Gen.snapshotEnd r))
                   (SnapshotEnd.ExecutionBlock (Gen.snapshotEnd r))))
      end
  end.

(** Body of the minipool loop of [calculateNodeRewards]: record the
    minipool under its node and give it its share of the node operator
    total. *)
Definition minipoolStep (ns : NetworkState.t) (cheaters : gmap Z bool)
    (totalNodeOpShare totalScore : Z)
    (nodeDetails : gmap Z NodeSmoothingDetails.t) (minipool : MinipoolInfo.t)
  : result (gmap Z NodeSmoothingDetails.t) :=
  let nodeAddress := MinipoolInfo.NodeAddress minipool in
  let nnd := NetworkState.NodeDetailsByAddress ns !! nodeAddress in
  let nmd :=
    NetworkState.MinipoolDetailsByAddress ns !! MinipoolInfo.Address minipool in
  let nodeIsCheater := isCheater cheaters nodeAddress in
  let* nodeInfo :=
    match nodeDetails !! nodeAddress with
    | Some nodeInfo => Ok nodeInfo
    | None =>
        let* nnd := orPanic nnd in
        Ok (NodeSmoothingDetails.mk (NodeDetails.NodeAddress nnd)
              (negb nodeIsCheater) [] 0 0
              (Big.Uint64 (NodeDetails.RewardNetwork nnd)))
    end in
  let* nmd := orPanic nmd in
  let minipool :=
    MinipoolInfo.withBond minipool (MinipoolDetails.NodeDepositBalance nmd) in
  let* minipoolEth :=
    orPanic (Big.Div (totalNodeOpShare * MinipoolInfo.AttestationScore minipool)
               totalScore) in
  let minipool := MinipoolInfo.withShare minipool (Some minipoolEth) in
  Ok (<[nodeAddress :=
          NodeSmoothingDetails.withSmoothingPoolEth
            (NodeSmoothingDetails.withMinipools nodeInfo
               (NodeSmoothingDetails.Minipools nodeInfo ++ [minipool]))
            (NodeSmoothingDetails.SmoothingPoolEth nodeInfo + minipoolEth)]>
        nodeDetails).

(** The performance record of one minipool, or nothing for a minipool
    without attestations. *)
Definition minipoolPerformance (minipoolInfo : MinipoolInfo.t)
  : option Performance.t :=
  let successfulAttestations :=
    MinipoolInfo.AttestationCount minipoolInfo mod 2 ^ 64 in
  let missingAttestations :=
    Z.of_nat (size (MinipoolInfo.MissingAttestationSlots minipoolInfo)) in
  if (successfulAttestations + missingAttestations) mod 2 ^ 64 =? 0 then None
  else
    Some (Performance.mk
            (MinipoolInfo.ValidatorPubkey minipoolInfo)
            successfulAttestations missingAttestations
            (MinipoolInfo.AttestationScore minipoolInfo)
            (MinipoolInfo.MinipoolShare minipoolInfo)
            (MinipoolInfo.MinipoolBonus minipoolInfo)
            (MinipoolInfo.ConsensusIncome minipoolInfo)
            (MinipoolInfo.TotalFee minipoolInfo)
            (map fst (map_to_list
                        (MinipoolInfo.MissingAttestationSlots minipoolInfo)))).

Definition addPerformance (m : gmap Z Performance.t)
    (minipoolInfo : MinipoolInfo.t) : gmap Z Performance.t :=
  match minipoolPerformance minipoolInfo with
  | Some p => <[MinipoolInfo.Address minipoolInfo := p]> m
  | None => m
  end.

(** Body of the loop of [calculateEthRewards] over [r.nodeDetails]. *)
Definition ethStep (rp : ExecutionClient.t) (r : Gen.t)
    (entry : Z * NodeSmoothingDetails.t) : result Gen.t :=
  let nodeAddress := fst entry in
  let nodeInfo := snd entry in
  let eth := NodeSmoothingDetails.SmoothingPoolEth nodeInfo in
  if 0 <? eth then
    let* (n, r1) :=
      rewardsForNode rp r nodeAddress
        (Ok (NodeSmoothingDetails.RewardsNetwork nodeInfo)) in
    let n' := NodeReward.addSmoothingPoolEth n eth in
    let r2 :=
      Gen.withNodeRewards r1 (<[nodeAddress := n']> (Gen.nodeRewards r1)) in
    let pf := Gen.minipoolPerformanceFile r2 in
    let r3 :=
      Gen.withPerformanceFile r2
        (PerformanceFile.mk (PerformanceFile.BonusScalar pf)
           (fold_left addPerformance (NodeSmoothingDetails.Minipools nodeInfo)
              (PerformanceFile.MinipoolPerformance pf))) in
    let net := NodeReward.Network n' in
    Ok (Gen.withNetworkRewards r3
          (<[net := NetworkReward.addSmoothingPoolEth (rewardsForNetwork r3 net)
                      eth]> (Gen.networkRewards r3)))
  else Ok r.

(** A loop over a map of pointers that updates every value in place and
    may return early: the map of the updated values. *)
Definition gmapM {V W : Type} (f : V -> result W) (m : gmap Z V)
  : result (gmap Z W) :=
  let* l := mapM (fun kv => let* w := f (snd kv) in Ok (fst kv, w))
                 (map_to_list m) in
  Ok (list_to_map l).

Section Generator.

(** Declarations of the package that live outside this file: the
    constant [tenEth] that caps the borrowed-stake percentage, the
    bonus eligibility predicate of a minipool, and the commitment that
    [GenerateMerkleTree] computes over the ordered lists of the
    rewards file ([None] when it fails). *)
Variable tenEth : Z.
Variable IsEligibleForBonuses : MinipoolInfo.t -> bool.
Variable merkleRoot :
  list NetworkReward.t -> list NodeReward.t -> option Z.

(** fee = max(fee, 0.10 Eth + (0.04 Eth * min(10 Eth, percentOfBorrowedETH) / 10 Eth)) *)
Definition feeWithBonus (percentOfBorrowedEth : Z) : result Z :=
  let _min :=
    if percentOfBorrowedEth <? tenEth then percentOfBorrowedEth
    else tenEth in
  let* divResult := orPanic (Big.Div (_min * pointOhFourEth) tenEth) in
  Ok (divResult + pointOneEth).

(** Body of the minipool loop of [calculateNodeBonuses]: the minipool
    after it and the bonus it adds to the totals. *)
Definition minipoolBonus (ns : NetworkState.t) (percentOfBorrowedEth : Z)
    (mpd : MinipoolInfo.t) : result (MinipoolInfo.t * Z) :=
  let* mpi := orPanic (NetworkState.MinipoolDetailsByAddress ns
                         !! MinipoolInfo.Address mpd) in
  let fee := MinipoolDetails.NodeFee mpi in
  let noBonus :=
    MinipoolInfo.withIncome (MinipoolInfo.withBonus mpd None) None in
  if negb (IsEligibleForBonuses mpd) then Ok (noBonus, 0)
  else
    let* feeWithBonus := feeWithBonus percentOfBorrowedEth in
    if feeWithBonus <=? fee then Ok (noBonus, 0)
    else
      let fee := feeWithBonus in
      let mpd := MinipoolInfo.withTotalFee mpd (Some fee) in
      if fourteenPercentEth <? fee then Err EFeeCap
      else
        let bonusFee := fee - MinipoolDetails.NodeFee mpi in
        let* consensusIncome := orPanic (MinipoolInfo.ConsensusIncome mpd) in
        let bonusShare :=
          bonusFee * (thirtyTwoEth - MinipoolDetails.NodeDepositBalance mpi)
          / thirtyTwoEth in
        let minipoolBonus := consensusIncome * bonusShare / oneEth in
        let minipoolBonus :=
          if Big.Sign minipoolBonus =? -1 then 0 else minipoolBonus in
        Ok (MinipoolInfo.withBonus mpd (Some minipoolBonus), minipoolBonus).

(** Body of the node loop of [calculateNodeBonuses]. *)
Definition nodeBonuses (ns : NetworkState.t) (nsd : NodeSmoothingDetails.t)
  : result (NodeSmoothingDetails.t * Z) :=
  if negb (NodeSmoothingDetails.IsEligible nsd) then Ok (nsd, 0)
  else
    let* nodeDetails :=
      orPanic (NetworkState.NodeDetailsByAddress ns
                 !! NodeSmoothingDetails.Address nsd) in
    let percentOfBorrowedEth :=
      NetworkState.PercentOfBorrowedEth ns nodeDetails in
    let* l := mapM (minipoolBonus ns percentOfBorrowedEth)
                   (NodeSmoothingDetails.Minipools nsd) in
    let bonus := sumZ (map snd l) in
    Ok (NodeSmoothingDetails.withBonusEth
          (NodeSmoothingDetails.withMinipools nsd (map fst l))
          (NodeSmoothingDetails.BonusEth nsd + bonus),
        bonus).

Definition calculateNodeBonuses (r : Gen.t) : result (Z * Gen.t) :=
  let* m := gmapM (nodeBonuses (Gen.networkState r)) (Gen.nodeDetails r) in
  Ok (sumMap snd m, Gen.withNodeDetails r (fst <$> m)).

(** The reduced bonus of a minipool; a nil bonus is dereferenced. *)
Definition scaleMinipool (remainingBalance totalConsensusBonus : Z)
    (mpd : MinipoolInfo.t) : result MinipoolInfo.t :=
  let* b := orPanic (MinipoolInfo.MinipoolBonus mpd) in
  let* b' := orPanic (Big.Div (b * remainingBalance) totalConsensusBonus) in
  Ok (MinipoolInfo.withBonus mpd (Some b')).

Definition scaleNode (remainingBalance totalConsensusBonus : Z)
    (nsd : NodeSmoothingDetails.t) : result NodeSmoothingDetails.t :=
  let* b := orPanic (Big.Div (NodeSmoothingDetails.BonusEth nsd
                              * remainingBalance) totalConsensusBonus) in
  let* mps := mapM (scaleMinipool remainingBalance totalConsensusBonus)
                   (NodeSmoothingDetails.Minipools nsd) in
  Ok (NodeSmoothingDetails.withMinipools
        (NodeSmoothingDetails.withBonusEth nsd b) mps).

(** The ruleset 10 block of [calculateNodeRewards] before the sanity
    check: bonuses, scaled down when the remaining balance cannot
    cover them.  Yields the bonus scalar. *)
Definition bonuses (r : Gen.t) (totalEthForMinipools bonusScalar : Z)
  : result (Gen.t * Z) :=
  if 10 <=? getRulesetVersion r then
    let* (totalConsensusBonus, r1) := calculateNodeBonuses r in
    let remainingBalance :=
      Gen.smoothingPoolBalance r1 - totalEthForMinipools in
    if remainingBalance <? totalConsensusBonus then
      let* bonusScalar :=
        orPanic (Big.Div (remainingBalance * oneEth) totalConsensusBonus) in
      let* nds := gmapM (scaleNode remainingBalance totalConsensusBonus)
                        (Gen.nodeDetails r1) in
      Ok (Gen.withNodeDetails r1 nds, bonusScalar)
    else Ok (r1, bonusScalar)
  else Ok (r, bonusScalar).

Definition awardBonus (nsd : NodeSmoothingDetails.t)
  : NodeSmoothingDetails.t :=
  NodeSmoothingDetails.withSmoothingPoolEth nsd
    (NodeSmoothingDetails.SmoothingPoolEth nsd
     + NodeSmoothingDetails.BonusEth nsd).

(** The node operators' part of the smoothing pool:
    balance * totalScore / attestationCount / 1 Eth, in two divisions. *)
Definition totalNodeOpShare (smoothingPoolBalance totalScore
    attestationCount : Z) : result Z :=
  let* perAttestation :=
    orPanic (Big.Div (smoothingPoolBalance * totalScore)
               (Big.int64 attestationCount)) in
  Ok (perAttestation / oneEth).

(** Calculate the distribution of Smoothing Pool ETH to each node:
    pool staker ETH, node operator ETH, bonus scalar. *)
Definition calculateNodeRewards (r : Gen.t) : result (Z * Z * Z * Gen.t) :=
  let bonusScalar := oneEth in
  let cheaters := getCheaters r in
  let '(minipools, totalScore, attestationCount) :=
    RollingRecord.GetScores (Gen.rollingRecord r) cheaters in
  if (totalScore =? 0) || (attestationCount =? 0) then
    Ok (Gen.smoothingPoolBalance r, 0, bonusScalar, r)
  else
    let* totalNodeOpShare :=
      totalNodeOpShare (Gen.smoothingPoolBalance r) totalScore
        attestationCount in
    let* nodeDetails :=
      foldM (minipoolStep (Gen.networkState r) cheaters totalNodeOpShare
               totalScore) minipools ∅ in
    let r := Gen.withNodeDetails r nodeDetails in
    let totalEthForMinipools :=
      sumMap NodeSmoothingDetails.SmoothingPoolEth (Gen.nodeDetails r) in
    let* (r, bonusScalar) := bonuses r totalEthForMinipools bonusScalar in
    let delta := Z.abs (totalEthForMinipools - totalNodeOpShare) in
    if Gen.epsilon r <? delta then Err ESmoothingEpsilon
    else
      let awarded := 10 <=? getRulesetVersion r in
      let totalEthForMinipools :=
        if awarded then
          totalEthForMinipools
          + sumMap NodeSmoothingDetails.BonusEth (Gen.nodeDetails r)
        else totalEthForMinipools in
      let r :=
        if awarded then
          Gen.withNodeDetails r (awardBonus <$> Gen.nodeDetails r)
        else r in
      let truePoolStakerAmount :=
        Gen.smoothingPoolBalance r - totalEthForMinipools in
      Ok (truePoolStakerAmount, totalEthForMinipools, bonusScalar, r).

(** Calculates the ETH rewards for the given interval. *)
Definition calculateEthRewards (checkBeaconPerformance : bool)
    (rp : ExecutionClient.t) (bc : BeaconClient.t) (r : Gen.t)
  : result Gen.t :=
  let r :=
    Gen.withSmoothingPoolBalance r
      (NetworkDetails.SmoothingPoolBalance
         (NetworkState.NetworkDetails (Gen.networkState r))) in
  if Gen.smoothingPoolBalance r =? 0 then Ok r
  else if SSZFile.Index (Gen.rewardsFile r) =? 0 then Ok r
  else
    let* (startTime, r) := getBlocksAndTimesForInterval rp bc r in
    let r :=
      Gen.withIntervalSeconds r (Gen.elSnapshotHeaderTime r - startTime) in
    let* (poolStakerETH, nodeOpEth, bonusScalar, r) :=
      calculateNodeRewards r in
    let r :=
      if 10 <=? getRulesetVersion r then
        Gen.withPerformanceFile r
          (PerformanceFile.mk (Some bonusScalar)
             (PerformanceFile.MinipoolPerformance
                (Gen.minipoolPerformanceFile r)))
      else r in
    let* r := foldM (ethStep rp) (map_to_list (Gen.nodeDetails r)) r in
    Ok (Gen.withTotalRewards r
          (TotalRewards.withSmoothingPool (Gen.totalRewards r)
             poolStakerETH nodeOpEth (Gen.smoothingPoolBalance r))).

(** The max of node count and minipool count, the error epsilon of the
    sanity checks. *)
Definition errorEpsilon (ns : NetworkState.t) : Z :=
  let nodeCount := Z.of_nat (length (NetworkState.NodeDetails ns)) in
  let minipoolCount := Z.of_nat (length (NetworkState.MinipoolDetails ns)) in
  if minipoolCount <? nodeCount then nodeCount else minipoolCount.

(** The entry of [generateTree] and of the approximation: provision
    the struct. *)
Definition provision (r : Gen.t) : Gen.t :=
  Gen.withEpsilon (Gen.withValidNetworkCache r {[ 0 := true ]})
    (errorEpsilon (Gen.networkState r)).

Definition sortSlots (p : Performance.t) : Performance.t :=
  Performance.mk (Performance.Pubkey p) (Performance.SuccessfulAttestations p)
    (Performance.MissedAttestations p) (Performance.AttestationScore p)
    (Performance.EthEarned p) (Performance.BonusEthEarned p)
    (Performance.ConsensusIncome p) (Performance.EffectiveCommission p)
    (merge_sort Z.le (Performance.MissingAttestationSlots p)).

(** The two loops of [generateTree] that assign the maps to the lists
    of the rewards file, each visiting its map in the order the
    runtime picks. *)
Definition assignLists (nodeOrder networkOrder : MapOrder) (r : Gen.t)
  : SSZFile.t :=
  let f := Gen.rewardsFile r in
  let f :=
    SSZFile.withNodeRewards f
      (SSZFile.NodeRewards f
       ++ map (fun kv => NodeReward.withAddress (snd kv) (fst kv))
            (visit nodeOrder _ (map_to_list (Gen.nodeRewards r)))) in
  SSZFile.withNetworkRewards f
    (SSZFile.NetworkRewards f
     ++ map (fun kv => NetworkReward.withNetwork (snd kv) (fst kv))
          (visit networkOrder _ (map_to_list (Gen.networkRewards r)))).

Definition generateTree (nodeOrder networkOrder : MapOrder) (r : Gen.t)
    (rp : ExecutionClient.t) (bc : BeaconClient.t)
  : result GenerateTreeResult.t :=
  let r := provision r in
  let* r := calculateRplRewards rp r in
  let* r := calculateEthRewards true rp bc r in
  let f := assignLists nodeOrder networkOrder r in
  match merkleRoot (SSZFile.NetworkRewards f) (SSZFile.NodeRewards f) with
  | None => Err EMerkle
  | Some root =>
      let f := SSZFile.withMerkleRoot f (Some root) in
      let pf := Gen.minipoolPerformanceFile r in
      Ok (GenerateTreeResult.mk f (Gen.invalidNetworkNodes r)
            (PerformanceFile.mk (PerformanceFile.BonusScalar pf)
               (sortSlots <$> PerformanceFile.MinipoolPerformance pf)))
  end.

(** Quickly calculates an approximate of the staker's share of the
    smoothing pool balance without processing Beacon performance. *)
Definition approximateStakerShareOfSmoothingPool (r : Gen.t)
    (rp : ExecutionClient.t) (bc : BeaconClient.t) : result Z :=
  let r := provision r in
  let* r := calculateEthRewards false rp bc r in
  Ok (TotalRewards.PoolStakerSmoothingPoolEth (Gen.totalRewards r)).

End Generator.

(** ** Quantities the properties speak about *)

(** The three recorded RPL totals of a rewards file, added up. *)
Definition rplDistributed (t : TotalRewards.t) : Z :=
  TotalRewards.ProtocolDaoRpl t + TotalRewards.TotalCollateralRpl t
  + TotalRewards.TotalOracleDaoRpl t.

Definition resultMap {A B : Type} (f : A -> B) (c : result A) : result B :=
  match c with
  | Ok a => Ok (f a)
  | Err e => Err e
  end.

(** A node reward entry that carries no reward at all. *)
Definition emptyNodeReward (n : NodeReward.t) : bool :=
  (NodeReward.CollateralRpl n =? 0) && (NodeReward.OracleDaoRpl n =? 0)
  && (NodeReward.SmoothingPoolEth n =? 0).

(** ** Concrete snapshots *)

Module Fixtures.

Definition inOrder : MapOrder :=
  mkMapOrder (fun _ l => l) (fun _ l => Permutation_refl l).


Definition tenEth : Z := 10 * 10 ^ 18.
Definition eligible (m : MinipoolInfo.t) : bool := true.

(** A stand-in commitment that depends on the position of every node
    entry, as a Merkle root over the ordered leaves does. *)
Definition positional (nets : list NetworkReward.t)
    (nodes : list NodeReward.t) : option Z :=
  Some (fold_left (fun acc n => 31 * acc + NodeReward.Address n) nodes 7).

Definition rp : ExecutionClient.t :=
  ExecutionClient.mk (fun _ => Some true) (fun _ => Some 500).
Definition bc : BeaconClient.t :=
  BeaconClient.mk (fun _ => Some (Some 7)).
Definition snapshotEnd : SnapshotEnd.t := SnapshotEnd.mk 100 100 90.

Definition node1 : NodeDetails.t := NodeDetails.mk 1 0.
Definition node2 : NodeDetails.t := NodeDetails.mk 2 0.
Definition node7 : NodeDetails.t := NodeDetails.mk 7 0.

(** Minipool 101 of node 1; minipool 102 of node 2 with three
    penalties. *)
Definition pool101 : MinipoolDetails.t :=
  MinipoolDetails.mk 101 1 (5 * 10 ^ 16) (8 * 10 ^ 18) 0.
Definition pool102 : MinipoolDetails.t :=
  MinipoolDetails.mk 102 2 (14 * 10 ^ 16) (16 * 10 ^ 18) 3.

Definition info101 : MinipoolInfo.t :=
  MinipoolInfo.mk 101 9101 1 (10 ^ 17) 1 ∅ 0 None None (Some (10 ^ 18)) None.
Definition info102 : MinipoolInfo.t :=
  MinipoolInfo.mk 102 9102 2 (10 ^ 17) 1 ∅ 0 None None (Some (10 ^ 18)) None.
Definition record : RollingRecord.t := RollingRecord.mk 32 [info101; info102].

(** Two nodes of weights 1 and 2, one oDAO member, 1000 pending RPL
    split 20% / 70% / 10%. *)
Definition twoNodes (balance : Z) : NetworkState.t :=
  NetworkState.mk [node1; node2] [pool101; pool102]
    (list_to_map [(1, node1); (2, node2)])
    (list_to_map [(101, pool101); (102, pool102)])
    (list_to_map [(1, [pool101]); (2, [pool102])])
    [OracleDaoMember.mk 1 0]
    (NetworkDetails.mk 1000 (2 * 10 ^ 17) (7 * 10 ^ 17) (10 ^ 17) balance 100)
    (Some (list_to_map [(1, 1); (2, 2)], 3))
    (fun _ => 5 * 10 ^ 18).

(** The same split with no node weight at all. *)
Definition noWeight : NetworkState.t :=
  NetworkState.mk [node1] []
    (list_to_map [(1, node1)]) ∅ ∅
    [OracleDaoMember.mk 1 0]
    (NetworkDetails.mk 1000 (2 * 10 ^ 17) (7 * 10 ^ 17) (10 ^ 17) 0 100)
    (Some (list_to_map [(1, 0)], 0))
    (fun _ => 0).

(** Five pending RPL: the oDAO budget floors to zero. *)
Definition dust : NetworkState.t :=
  NetworkState.mk [node1; node7] []
    (list_to_map [(1, node1); (7, node7)]) ∅ ∅
    [OracleDaoMember.mk 7 0]
    (NetworkDetails.mk 5 (2 * 10 ^ 17) (7 * 10 ^ 17) (10 ^ 17) 0 100)
    (Some (list_to_map [(1, 1); (7, 0)], 1))
    (fun _ => 0).

(** No pending RPL. *)
Definition nothingPending : NetworkState.t :=
  NetworkState.mk [node1] []
    (list_to_map [(1, node1)]) ∅ ∅
    [OracleDaoMember.mk 1 0]
    (NetworkDetails.mk 0 (2 * 10 ^ 17) (7 * 10 ^ 17) (10 ^ 17) 0 100)
    (Some (list_to_map [(1, 1)], 1))
    (fun _ => 0).

Definition generator (version : Z) (ns : NetworkState.t) : Gen.t :=
  newTreeGeneratorImpl_v9_v10_rolling version 5 snapshotEnd 1000 1 ns record.

Definition run (nodeOrder : MapOrder) (version : Z) (ns : NetworkState.t)
  : result GenerateTreeResult.t :=
  generateTree tenEth eligible positional nodeOrder inOrder
    (generator version ns) rp bc.

Definition totalsOf (c : result GenerateTreeResult.t)
  : result TotalRewards.t :=
  resultMap (fun res => SSZFile.TotalRewards (GenerateTreeResult.RewardsFile res)) c.

Definition nodeListOf (c : result GenerateTreeResult.t)
  : result (list NodeReward.t) :=
  resultMap (fun res => SSZFile.NodeRewards (GenerateTreeResult.RewardsFile res)) c.


(** The generator at the entry of [calculateNodeBonuses]: node 1 with
    its minipool 101 and a base share of 100000. *)
Definition beforeBonuses : Gen.t :=
  Gen.withNodeDetails (generator 10 (twoNodes 1000000))
    {[ 1 := NodeSmoothingDetails.mk 1 true [info101] 100000 0 0 ]}.

Definition bonused101 : MinipoolInfo.t :=
  MinipoolInfo.mk 101 9101 1 (10 ^ 17) 1 ∅ 0 None
    (Some (525 * 10 ^ 14)) (Some (10 ^ 18)) (Some (12 * 10 ^ 16)).

Definition bonusedNode1 : NodeSmoothingDetails.t :=
  NodeSmoothingDetails.mk 1 true [bonused101] 100000 (525 * 10 ^ 14) 0.

Definition afterBonuses : Gen.t :=
  Gen.withNodeDetails beforeBonuses {[ 1 := bonusedNode1 ]}.

(** A snapshot and a cap constant that a broken deployment would have:
    both negative, the percentage below the constant. *)
Definition brokenTenEth : Z := - 10 ^ 19.
Definition brokenState : NetworkState.t :=
  NetworkState.mk [node1] [pool101]
    (list_to_map [(1, node1)])
    (list_to_map [(101, pool101)])
    (list_to_map [(1, [pool101])])
    []
    (NetworkDetails.mk 1000 (2 * 10 ^ 17) (7 * 10 ^ 17) (10 ^ 17) 1000000 100)
    (Some (list_to_map [(1, 1)], 1))
    (fun _ => - 5 * 10 ^ 19).
Definition brokenBefore : Gen.t :=
  Gen.withNodeDetails (generator 10 brokenState)
    {[ 1 := NodeSmoothingDetails.mk 1 true [info101] 100000 0 0 ]}.

(** The generator after [calculateEthRewards] on a smoothing pool of
    1000000 wei. *)
Definition afterEth : Gen.t :=
  match calculateEthRewards tenEth eligible true rp bc
          (generator 10 (twoNodes 1000000)) with
  | Ok r' => r'
  | Err _ => generator 10 (twoNodes 1000000)
  end.






(** A snapshot whose total node weight is not the sum of its weights. *)
Definition skewed : NetworkState.t :=
  NetworkState.mk [node1] [pool101]
    (list_to_map [(1, node1)])
    (list_to_map [(101, pool101)])
    (list_to_map [(1, [pool101])])
    [OracleDaoMember.mk 1 0]
    (NetworkDetails.mk 1000 (2 * 10 ^ 17) (7 * 10 ^ 17) (10 ^ 17) 0 100)
    (Some (list_to_map [(1, 1)], 3))
    (fun _ => 0).

Definition fullRun : result GenerateTreeResult.t :=
  run inOrder 10 (twoNodes 1000000).

Definition fullResult : GenerateTreeResult.t :=
  match fullRun with
  | Ok res => res
  | Err _ =>
      GenerateTreeResult.mk
        (Gen.rewardsFile (generator 10 (twoNodes 1000000))) ∅
        (PerformanceFile.mk None ∅)
  end.


(** An execution client that only knows network 0 as enabled, and a
    snapshot whose one node, an oDAO member, asks for network 4. *)
Definition strict : ExecutionClient.t :=
  ExecutionClient.mk (fun network => Some (network =? 0)) (fun _ => Some 500).
Definition node9 : NodeDetails.t := NodeDetails.mk 9 4.
Definition abroad : NetworkState.t :=
  NetworkState.mk [node9] []
    (list_to_map [(9, node9)]) ∅ ∅
    [OracleDaoMember.mk 9 0]
    (NetworkDetails.mk 1000 (2 * 10 ^ 17) (7 * 10 ^ 17) (10 ^ 17) 0 100)
    (Some (list_to_map [(9, 1)], 1))
    (fun _ => 0).

Definition abroadResult : GenerateTreeResult.t :=
  match generateTree tenEth eligible positional inOrder inOrder
          (generator 10 abroad) strict bc with
  | Ok res => res
  | Err _ =>
      GenerateTreeResult.mk (Gen.rewardsFile (generator 10 abroad)) ∅
        (PerformanceFile.mk None ∅)
  end.




(** An oDAO member that joined at the very time of the snapshot. *)
Definition lateMember : NetworkState.t :=
  NetworkState.mk [node1] []
    (list_to_map [(1, node1)]) ∅ ∅
    [OracleDaoMember.mk 1 1000]
    (NetworkDetails.mk 1000 (2 * 10 ^ 17) (7 * 10 ^ 17) (10 ^ 17) 0 100)
    (Some (list_to_map [(1, 1)], 1))
    (fun _ => 0).


(** The two nodes without the minipool index of the snapshot. *)
Definition noMinipoolIndex : NetworkState.t :=
  NetworkState.mk [node1; node2] [pool101; pool102]
    (list_to_map [(1, node1); (2, node2)])
    ∅
    (list_to_map [(1, [pool101]); (2, [pool102])])
    [OracleDaoMember.mk 1 0]
    (NetworkDetails.mk 1000 (2 * 10 ^ 17) (7 * 10 ^ 17) (10 ^ 17) 1000000 100)
    (Some (list_to_map [(1, 1); (2, 2)], 3))
    (fun _ => 5 * 10 ^ 18).


(** Both nodes with a minipool of three penalties. *)
Definition pool101Penalized : MinipoolDetails.t :=
  MinipoolDetails.mk 101 1 (5 * 10 ^ 16) (8 * 10 ^ 18) 3.
Definition penalized : NetworkState.t :=
  NetworkState.mk [node1; node2] [pool101Penalized; pool102]
    (list_to_map [(1, node1); (2, node2)])
    (list_to_map [(101, pool101Penalized); (102, pool102)])
    (list_to_map [(1, [pool101Penalized]); (2, [pool102])])
    [OracleDaoMember.mk 1 0]
    (NetworkDetails.mk 1000 (2 * 10 ^ 17) (7 * 10 ^ 17) (10 ^ 17) 1000000 100)
    (Some (list_to_map [(1, 1); (2, 2)], 3))
    (fun _ => 5 * 10 ^ 18).





End Fixtures.


(** ** Predicates of the properties *)

(** What the allocation loops leave alone: everything but the reward
    accumulators, the invalid network report, the network cache and the
    performance file. *)
Definition sameInputs (r r' : Gen.t) : Prop :=
  Gen.networkState r' = Gen.networkState r
  /\ Gen.rewardsFile r' = Gen.rewardsFile r
  /\ Gen.elSnapshotHeaderTime r' = Gen.elSnapshotHeaderTime r
  /\ Gen.snapshotEnd r' = Gen.snapshotEnd r
  /\ Gen.rollingRecord r' = Gen.rollingRecord r
  /\ Gen.smoothingPoolBalance r' = Gen.smoothingPoolBalance r
  /\ Gen.epsilon r' = Gen.epsilon r
  /\ Gen.intervalSeconds r' = Gen.intervalSeconds r
  /\ Gen.nodeDetails r' = Gen.nodeDetails r.

(** Two states of one minipool record that agree on its identity, its
    score and its base share. *)
Definition sameBase (m m' : MinipoolInfo.t) : Prop :=
  MinipoolInfo.Address m' = MinipoolInfo.Address m
  /\ MinipoolInfo.NodeAddress m' = MinipoolInfo.NodeAddress m
  /\ MinipoolInfo.AttestationScore m' = MinipoolInfo.AttestationScore m
  /\ MinipoolInfo.MinipoolShare m' = MinipoolInfo.MinipoolShare m.

(** Two states of one node record with the same minipools in the same
    order. *)
Definition sameNode (n n' : NodeSmoothingDetails.t) : Prop :=
  NodeSmoothingDetails.Address n' = NodeSmoothingDetails.Address n
  /\ NodeSmoothingDetails.IsEligible n' = NodeSmoothingDetails.IsEligible n
  /\ NodeSmoothingDetails.RewardsNetwork n'
     = NodeSmoothingDetails.RewardsNetwork n
  /\ Forall2 sameBase (NodeSmoothingDetails.Minipools n)
       (NodeSmoothingDetails.Minipools n').

Definition sameNodes (m m' : gmap Z NodeSmoothingDetails.t) : Prop :=
  forall k, option_Forall2 sameNode (m !! k) (m' !! k).

(** The base share of a minipool is its part of the node operator
    total, by score. *)
Definition hasBaseShare (totalNodeOpShare totalScore : Z)
    (m : MinipoolInfo.t) : Prop :=
  MinipoolInfo.MinipoolShare m
  = Big.Div (totalNodeOpShare * MinipoolInfo.AttestationScore m) totalScore.

(** A minipool that the loop has passed is recorded under its node. *)
Definition recorded (share ts : Z) (nds : gmap Z NodeSmoothingDetails.t)
    (mp : MinipoolInfo.t) : Prop :=
  exists nsd m,
    nds !! MinipoolInfo.NodeAddress mp = Some nsd
    /\ m ∈ NodeSmoothingDetails.Minipools nsd
    /\ MinipoolInfo.Address m = MinipoolInfo.Address mp
    /\ MinipoolInfo.AttestationScore m = MinipoolInfo.AttestationScore mp
    /\ hasBaseShare share ts m.

(** The generator [calculateNodeRewards] is called on. *)
Definition atNodeRewards (r : Gen.t) (f : SSZFile.t) (startTime : Z) : Gen.t :=
  Gen.withIntervalSeconds
    (Gen.withRewardsFile
       (Gen.withSmoothingPoolBalance r
          (NetworkDetails.SmoothingPoolBalance
             (NetworkState.NetworkDetails (Gen.networkState r)))) f)
    (Gen.elSnapshotHeaderTime r - startTime).

(** The generator the last loop of [calculateEthRewards] starts from. *)
Definition withScalar (r : Gen.t) (bonusScalar : Z) : Gen.t :=
  if 10 <=? getRulesetVersion r then
    Gen.withPerformanceFile r
      (PerformanceFile.mk (Some bonusScalar)
         (PerformanceFile.MinipoolPerformance (Gen.minipoolPerformanceFile r)))
  else r.

(** A node of the snapshot with a minipool of three or more penalties. *)
Definition hasPenalizedMinipool (ns : NetworkState.t) (nd : NodeDetails.t)
  : bool :=
  existsb (fun mpd => 3 <=? MinipoolDetails.PenaltyCount mpd)
    (default [] (NetworkState.MinipoolDetailsByNode ns
                   !! NodeDetails.NodeAddress nd)).

(** What the collateral loop credits to a node of the list: its part of
    the budget by weight when that is positive, nothing otherwise. *)
Definition collateralShare (totalNodeRewards : Z) (nodeWeights : gmap Z Z)
    (totalNodeWeight : Z) (nd : NodeDetails.t) : Z :=
  match nodeWeights !! NodeDetails.NodeAddress nd with
  | Some nodeWeight =>
      match calculateNodeRplRewards totalNodeRewards nodeWeight
              totalNodeWeight with
      | Ok x => if Big.Sign x =? 1 then x else 0
      | Err _ => 0
      end
  | None => 0
  end.

(** The collateral RPL a node holds in the accumulator. *)
Definition collateralOf (r : Gen.t) (address : Z) : Z :=
  from_option NodeReward.CollateralRpl 0 (Gen.nodeRewards r !! address).

(** The floored budgets of the collateral and of the oDAO split. *)
Definition collateralBudget (ns : NetworkState.t) : Z :=
  NetworkDetails.PendingRPLRewards (NetworkState.NetworkDetails ns)
  * NetworkDetails.NodeOperatorRewardsPercent (NetworkState.NetworkDetails ns)
  / oneEth.

Definition odaoBudget (ns : NetworkState.t) : Z :=
  NetworkDetails.PendingRPLRewards (NetworkState.NetworkDetails ns)
  * NetworkDetails.TrustedNodeOperatorRewardsPercent
      (NetworkState.NetworkDetails ns)
  / oneEth.

(** The collateral shares the loop credits, node by node of the list;
    none when there is no node weight. *)
Definition collateralShares (ns : NetworkState.t) : list Z :=
  match NetworkState.CalculateNodeWeights ns with
  | Some (nodeWeights, totalNodeWeight) =>
      if 0 <? totalNodeWeight then
        map (collateralShare (collateralBudget ns) nodeWeights totalNodeWeight)
            (NetworkState.NodeDetails ns)
      else []
  | None => []
  end.

(** The collateral RPL one run credits to an address: the shares of the
    entries of the node list at that address. *)
Definition collateralPaid (ns : NetworkState.t) (address : Z) : Z :=
  match NetworkState.CalculateNodeWeights ns with
  | Some (nodeWeights, totalNodeWeight) =>
      if 0 <? totalNodeWeight then
        sumZ (map (fun nd =>
                     if decide (NodeDetails.NodeAddress nd = address)
                     then collateralShare (collateralBudget ns) nodeWeights
                            totalNodeWeight nd
                     else 0)
                (NetworkState.NodeDetails ns))
      else 0
  | None => 0
  end.

(** The oDAO shares the second oDAO loop credits, member by member. *)
Definition odaoShares (r : Gen.t) : list Z :=
  let '(times, totalODaoNodeTime) := trueODaoNodeTimes r in
  map (fun d =>
         match individualOdaoRewards times (odaoBudget (Gen.networkState r))
                 totalODaoNodeTime (OracleDaoMember.Address d) with
         | Ok x => x
         | Err _ => 0
         end)
      (NetworkState.OracleDaoMemberDetails (Gen.networkState r)).

(** The bonuses of the minipools of a node, added up; a minipool
    without a bonus counts for nothing. *)
Definition minipoolBonusSum (nsd : NodeSmoothingDetails.t) : Z :=
  sumZ (map (fun m => default 0 (MinipoolInfo.MinipoolBonus m))
            (NodeSmoothingDetails.Minipools nsd)).

(** A minipool before and after its bonus is scaled by
    remainingBalance / totalConsensusBonus. *)
Definition scaledBonus (remainingBalance totalConsensusBonus : Z)
    (m m' : MinipoolInfo.t) : Prop :=
  exists b,
    MinipoolInfo.MinipoolBonus m = Some b
    /\ MinipoolInfo.MinipoolBonus m'
       = Some (b * remainingBalance / totalConsensusBonus).

(** The base shares the minipool loop credits, minipool by minipool. *)
Definition ethShares (totalNodeOpShare totalScore : Z)
    (minipools : list MinipoolInfo.t) : list Z :=
  map (fun mp =>
         default 0 (Big.Div (totalNodeOpShare
                             * MinipoolInfo.AttestationScore mp) totalScore))
      minipools.

(** A split whose credited shares miss its budget by more than the
    epsilon of the run. *)
Definition collateralOff (ns : NetworkState.t) : Prop :=
  exists w tw,
    NetworkState.CalculateNodeWeights ns = Some (w, tw)
    /\ 0 < tw
    /\ errorEpsilon ns
       < Z.abs (collateralBudget ns - sumZ (collateralShares ns)).

Definition odaoOff (r : Gen.t) : Prop :=
  errorEpsilon (Gen.networkState r)
  < Z.abs (odaoBudget (Gen.networkState r) - sumZ (odaoShares r)).

Definition smoothingOff (r : Gen.t) : Prop :=
  let ns := Gen.networkState r in
  let balance :=
    NetworkDetails.SmoothingPoolBalance (NetworkState.NetworkDetails ns) in
  balance <> 0
  /\ SSZFile.Index (Gen.rewardsFile r) <> 0
  /\ exists mps ts cnt share,
       RollingRecord.GetScores (Gen.rollingRecord r) (getCheaters r)
       = (mps, ts, cnt)
       /\ ts <> 0 /\ cnt <> 0
       /\ totalNodeOpShare balance ts cnt = Ok share
       /\ errorEpsilon ns < Z.abs (sumZ (ethShares share ts mps) - share).

(** Two generators that agree on everything [calculateNodeRewards]
    reads. *)
Definition sameCore (r s : Gen.t) : Prop :=
  Gen.networkState s = Gen.networkState r
  /\ Gen.rollingRecord s = Gen.rollingRecord r
  /\ Gen.smoothingPoolBalance s = Gen.smoothingPoolBalance r
  /\ Gen.epsilon s = Gen.epsilon r
  /\ getRulesetVersion s = getRulesetVersion r
  /\ Gen.nodeDetails s = Gen.nodeDetails r.

(** A network the execution client answers for, or network 0, which the
    cache knows from the start. *)
Definition answerable (rp : ExecutionClient.t) (network : Z) : Prop :=
  network = 0
  \/ ExecutionClient.GetNetworkEnabled rp (Big.int64 network) <> None.

(** The node index of the snapshot gives every node of the node list
    its reward network. *)
Definition indexedByAddress (ns : NetworkState.t) : Prop :=
  forall nd nnd,
    nd ∈ NetworkState.NodeDetails ns ->
    NetworkState.NodeDetailsByAddress ns !! NodeDetails.NodeAddress nd
    = Some nnd ->
    NodeDetails.RewardNetwork nnd = NodeDetails.RewardNetwork nd.

(** Every node that holds an entry of the accumulator has had the
    network of its index entry validated. *)
Definition entriesValidated (rp : ExecutionClient.t) (r : Gen.t) : Prop :=
  forall address nnd,
    is_Some (Gen.nodeRewards r !! address) ->
    NetworkState.NodeDetailsByAddress (Gen.networkState r) !! address
    = Some nnd ->
    answerable rp (Big.Uint64 (NodeDetails.RewardNetwork nnd)).

(** Every network the cache holds is answerable. *)
Definition cacheGood (rp : ExecutionClient.t) (r : Gen.t) : Prop :=
  forall network,
    is_Some (Gen.validNetworkCache r !! network) -> answerable rp network.

(** The reward network of a node record is the one of the index entry
    of its address. *)
Definition networksFromIndex (ns : NetworkState.t)
    (nds : gmap Z NodeSmoothingDetails.t) : Prop :=
  forall address nsd,
    nds !! address = Some nsd ->
    exists nnd,
      NetworkState.NodeDetailsByAddress ns !! address = Some nnd
      /\ NodeSmoothingDetails.RewardsNetwork nsd
         = Big.Uint64 (NodeDetails.RewardNetwork nnd).

(** ** The accumulators of a run *)

(** What an allocation loop hands out. *)
Inductive asset : Type := Collateral | OracleDao | SmoothingPool.

Definition sameAsset (k k' : asset) : bool :=
  match k, k' with
  | Collateral, Collateral | OracleDao, OracleDao
  | SmoothingPool, SmoothingPool => true
  | _, _ => false
  end.

Definition nodeAmount (k : asset) (n : NodeReward.t) : Z :=
  match k with
  | Collateral => NodeReward.CollateralRpl n
  | OracleDao => NodeReward.OracleDaoRpl n
  | SmoothingPool => NodeReward.SmoothingPoolEth n
  end.

Definition networkAmount (k : asset) (n : NetworkReward.t) : Z :=
  match k with
  | Collateral => NetworkReward.CollateralRpl n
  | OracleDao => NetworkReward.OracleDaoRpl n
  | SmoothingPool => NetworkReward.SmoothingPoolEth n
  end.

Definition addToNode (k : asset) (n : NodeReward.t) (x : Z) : NodeReward.t :=
  match k with
  | Collateral => NodeReward.addCollateralRpl n x
  | OracleDao => NodeReward.addOracleDaoRpl n x
  | SmoothingPool => NodeReward.addSmoothingPoolEth n x
  end.

Definition addToNetwork (k : asset) (n : NetworkReward.t) (x : Z)
  : NetworkReward.t :=
  match k with
  | Collateral => NetworkReward.addCollateralRpl n x
  | OracleDao => NetworkReward.addOracleDaoRpl n x
  | SmoothingPool => NetworkReward.addSmoothingPoolEth n x
  end.

(** The block the bodies of the three allocation loops have in common:
    fetch or create the entry of the node, add the amount to it and to
    the entry of its network. *)
Definition credit (rp : ExecutionClient.t) (k : asset) (address : Z)
    (network : result Z) (x : Z) (r : Gen.t) : result Gen.t :=
  let* (n, r1) := rewardsForNode rp r address network in
  let n' := addToNode k n x in
  let r2 := Gen.withNodeRewards r1 (<[address := n']> (Gen.nodeRewards r1)) in
  let net := NodeReward.Network n' in
  Ok (Gen.withNetworkRewards r2
        (<[net := addToNetwork k (rewardsForNetwork r2 net) x]>
           (Gen.networkRewards r2))).

(** The maps a run accumulates its results in. *)
Definition accumulators (r : Gen.t)
  : gmap Z bool * gmap Z Z * gmap Z NodeReward.t * gmap Z NetworkReward.t
    * gmap Z Performance.t :=
  (Gen.validNetworkCache r, Gen.invalidNetworkNodes r, Gen.nodeRewards r,
   Gen.networkRewards r,
   PerformanceFile.MinipoolPerformance (Gen.minipoolPerformanceFile r)).

(** The performance records of the minipools of one node, added to the
    performance file as the loop of [calculateEthRewards] does. *)
Definition withPerformances (r : Gen.t) (minipools : list MinipoolInfo.t)
  : Gen.t :=
  let pf := Gen.minipoolPerformanceFile r in
  Gen.withPerformanceFile r
    (PerformanceFile.mk (PerformanceFile.BonusScalar pf)
       (fold_left addPerformance minipools
          (PerformanceFile.MinipoolPerformance pf))).

(** The amount of one asset the node entries of one network hold. *)
Definition heldOnNetwork (k : asset) (network : Z)
    (nodes : gmap Z NodeReward.t) : Z :=
  sumMap (fun n => if decide (NodeReward.Network n = network)
                   then nodeAmount k n else 0) nodes.

(** The same over the node list of a rewards file. *)
Definition listedOnNetwork (k : asset) (network : Z)
    (nodes : list NodeReward.t) : Z :=
  sumZ (map (fun n => if decide (NodeReward.Network n = network)
                      then nodeAmount k n else 0) nodes).

(** Network 0 is known valid, a network the cache holds as invalid was
    answered so by the execution client, and every node reported with
    an invalid network has the network cached as invalid and holds an
    entry on network 0. *)
Definition redirected (rp : ExecutionClient.t) (r : Gen.t) : Prop :=
  Gen.validNetworkCache r !! 0 = Some true
  /\ (forall network,
        Gen.validNetworkCache r !! network = Some false ->
        ExecutionClient.GetNetworkEnabled rp (Big.int64 network) = Some false)
  /\ (forall address network,
        Gen.invalidNetworkNodes r !! address = Some network ->
        Gen.validNetworkCache r !! network = Some false
        /\ exists n, Gen.nodeRewards r !! address = Some n
                     /\ NodeReward.Network n = 0).

(** Every network entry holds what the node entries of its network
    hold, and every node entry has the entry of its network. *)
Definition mirrored (r : Gen.t) : Prop :=
  (forall k network,
     from_option (networkAmount k) 0 (Gen.networkRewards r !! network)
     = heldOnNetwork k network (Gen.nodeRewards r))
  /\ (forall address n,
        Gen.nodeRewards r !! address = Some n ->
        is_Some (Gen.networkRewards r !! NodeReward.Network n)).


(** The network entries hold, of every asset, what the node entries
    hold. *)
Definition balanced (r : Gen.t) : Prop :=
  forall k,
    sumMap (networkAmount k) (Gen.networkRewards r)
    = sumMap (nodeAmount k) (Gen.nodeRewards r).

(** The smoothing pool ETH a node holds in the accumulator, and what
    the node records give it: the amount of its record when that is
    positive. *)
Definition smoothingOf (r : Gen.t) (address : Z) : Z :=
  from_option NodeReward.SmoothingPoolEth 0 (Gen.nodeRewards r !! address).

Definition smoothingEarned (nodeDetails : gmap Z NodeSmoothingDetails.t)
    (address : Z) : Z :=
  match nodeDetails !! address with
  | Some nodeInfo =>
      if 0 <? NodeSmoothingDetails.SmoothingPoolEth nodeInfo
      then NodeSmoothingDetails.SmoothingPoolEth nodeInfo
      else 0
  | None => 0
  end.
(** * Properties *)

(** ** The result monad and the loops *)

Lemma bind_Ok {A B : Type} (c : result A) (k : A -> result B) (b : B) :
  bind c k = Ok b -> exists a, c = Ok a /\ k a = Ok b.
Proof. destruct c as [a|e]; simpl; [eauto | discriminate]. Qed.

Lemma orPanic_Ok {A : Type} (o : option A) (a : A) :
  orPanic o = Ok a -> o = Some a.
Proof. destruct o; simpl; congruence. Qed.

Lemma result_cases {A : Type} (c : result A) :
  (exists a, c = Ok a) \/ (exists e, c = Err e).
Proof. destruct c; eauto. Qed.

(** Split a successful computation at its binds. *)
Ltac bind_inv H :=
  let a := fresh "a" in
  let Ha := fresh "Hc" in
  apply bind_Ok in H; destruct H as (a & Ha & H).

Tactic Notation "bind_into" hyp(H) "as" ident(a) ident(Ha) :=
  apply bind_Ok in H; destruct H as (a & Ha & H).

(** An invariant of the loop body is an invariant of the loop. *)
Lemma foldM_invariant {A S : Type} (P : S -> Prop)
    (f : S -> A -> result S) (l : list A) :
  (forall s a s', P s -> f s a = Ok s' -> P s') ->
  forall s s', P s -> foldM f l s = Ok s' -> P s'.
Proof.
  intros Hstep. induction l as [|a l IH]; simpl; intros s s' Hs H.
  - congruence.
  - bind_inv H. eauto.
Qed.

(** A quantity that every iteration raises by [g] of its element is
    raised by the sum of [g] over the list. *)
Lemma foldM_measure {A S : Type} (mu : S -> Z) (g : A -> Z)
    (f : S -> A -> result S) (l : list A) :
  (forall s a s', f s a = Ok s' -> mu s' = mu s + g a) ->
  forall s s', foldM f l s = Ok s' -> mu s' = mu s + sumZ (map g l).
Proof.
  intros Hstep. induction l as [|a l IH]; simpl; intros s s' H.
  - inversion H; subst. unfold sumZ; simpl. lia.
  - bind_inv H. apply IH in H. apply Hstep in Hc.
    unfold sumZ in *; simpl. lia.
Qed.

Lemma mapM_Forall2 {A B : Type} (f : A -> result B) (l : list A)
    (l' : list B) :
  mapM f l = Ok l' -> Forall2 (fun a b => f a = Ok b) l l'.
Proof.
  revert l'. induction l as [|a l IH]; simpl; intros l' H.
  - inversion H. constructor.
  - bind_inv H. bind_inv H. inversion H; subst. constructor; auto.
Qed.

Lemma sumZ_app (l1 l2 : list Z) : sumZ (l1 ++ l2) = sumZ l1 + sumZ l2.
Proof. unfold sumZ. induction l1; simpl; lia. Qed.

Lemma sumZ_Permutation (l1 l2 : list Z) :
  Permutation l1 l2 -> sumZ l1 = sumZ l2.
Proof. unfold sumZ. induction 1; simpl; lia. Qed.

Lemma sumMap_empty {V : Type} (f : V -> Z) : sumMap f (∅ : gmap Z V) = 0.
Proof. unfold sumMap. rewrite map_to_list_empty. reflexivity. Qed.

Lemma sumMap_insert_fresh {V : Type} (f : V -> Z) (m : gmap Z V) k v :
  m !! k = None -> sumMap f (<[k := v]> m) = sumMap f m + f v.
Proof.
  intros Hk. unfold sumMap.
  rewrite (sumZ_Permutation _ (map (fun kv => f kv.2) ((k, v) :: map_to_list m))).
  - unfold sumZ; simpl. lia.
  - apply Permutation_map. apply map_to_list_insert. exact Hk.
Qed.

(** Writing a key of a map moves the sum of a field by the change of
    that field at the key. *)
Lemma sumMap_insert {V : Type} (f : V -> Z) (m : gmap Z V) k v :
  sumMap f (<[k := v]> m) = sumMap f m - from_option f 0 (m !! k) + f v.
Proof.
  destruct (m !! k) as [old|] eqn:Hk; simpl.
  - rewrite <- (insert_delete_eq m).
    rewrite sumMap_insert_fresh by apply lookup_delete_eq.
    rewrite <- (insert_delete_id m k old Hk) at 2.
    rewrite sumMap_insert_fresh by apply lookup_delete_eq. lia.
  - rewrite sumMap_insert_fresh by exact Hk. lia.
Qed.

Lemma sumMap_fmap {V W : Type} (f : W -> Z) (g : V -> W) (m : gmap Z V) :
  sumMap f (g <$> m) = sumMap (fun v => f (g v)) m.
Proof.
  unfold sumMap. rewrite map_to_list_fmap.
  rewrite <- list_fmap_compose. reflexivity.
Qed.

(** ** What the allocation loops leave alone *)

Lemma sameInputs_refl (r : Gen.t) : sameInputs r r.
Proof. unfold sameInputs; tauto. Qed.

Lemma sameInputs_trans (r1 r2 r3 : Gen.t) :
  sameInputs r1 r2 -> sameInputs r2 r3 -> sameInputs r1 r3.
Proof. unfold sameInputs. intuition congruence. Qed.

Lemma validateNetwork_sameInputs rp r network valid r' :
  validateNetwork rp r network = Ok (valid, r') -> sameInputs r r'.
Proof.
  unfold validateNetwork. intros H.
  destruct (Gen.validNetworkCache r !! network).
  - inversion H; subst. apply sameInputs_refl.
  - destruct (ExecutionClient.GetNetworkEnabled rp _); inversion H; subst.
    unfold sameInputs; simpl; tauto.
Qed.

Lemma rewardsForNode_sameInputs rp r address network n r' :
  rewardsForNode rp r address network = Ok (n, r') -> sameInputs r r'.
Proof.
  unfold rewardsForNode. intros H.
  destruct (Gen.nodeRewards r !! address).
  - inversion H; subst. apply sameInputs_refl.
  - bind_inv H. bind_inv H. destruct a0 as [valid r1].
    apply validateNetwork_sameInputs in Hc0.
    inversion H; subst. eapply sameInputs_trans; [exact Hc0|].
    destruct valid; unfold sameInputs; simpl; tauto.
Qed.

Lemma collateralStep_sameInputs rp w total tw r nd r' :
  collateralStep rp w total tw r nd = Ok r' -> sameInputs r r'.
Proof.
  unfold collateralStep. intros H. bind_inv H. bind_inv H.
  destruct (Big.Sign a0 =? 1).
  - bind_inv H. destruct a1 as [n r1].
    apply rewardsForNode_sameInputs in Hc1. inversion H; subst.
    eapply sameInputs_trans; [exact Hc1|]. unfold sameInputs; simpl; tauto.
  - inversion H; subst. apply sameInputs_refl.
Qed.

Lemma odaoStep_sameInputs rp times total tt r d r' :
  odaoStep rp times total tt r d = Ok r' -> sameInputs r r'.
Proof.
  unfold odaoStep. intros H. bind_inv H. bind_inv H. destruct a0 as [n r1].
  apply rewardsForNode_sameInputs in Hc0. inversion H; subst.
  eapply sameInputs_trans; [exact Hc0|]. unfold sameInputs; simpl; tauto.
Qed.

Lemma ethStep_sameInputs rp r entry r' :
  ethStep rp r entry = Ok r' -> sameInputs r r'.
Proof.
  unfold ethStep. intros H.
  destruct (0 <? NodeSmoothingDetails.SmoothingPoolEth entry.2).
  - bind_inv H. destruct a as [n r1].
    apply rewardsForNode_sameInputs in Hc. inversion H; subst.
    eapply sameInputs_trans; [exact Hc|]. unfold sameInputs; simpl; tauto.
  - inversion H; subst. apply sameInputs_refl.
Qed.

Lemma foldM_sameInputs {A : Type} (f : Gen.t -> A -> result Gen.t)
    (l : list A) :
  (forall s a s', f s a = Ok s' -> sameInputs s s') ->
  forall r r', foldM f l r = Ok r' -> sameInputs r r'.
Proof.
  intros Hf r r' H.
  apply (foldM_invariant (sameInputs r) f l) with (s := r); auto.
  - intros s a s' Hs Hstep. eapply sameInputs_trans; eauto.
  - apply sameInputs_refl.
Qed.

(** ** RPL conservation *)

Lemma collateralRewards_totals rp r pending pDao total w tw r1 pDao1 :
  collateralRewards rp r pending pDao total w tw = Ok (r1, pDao1) ->
  Gen.networkState r1 = Gen.networkState r
  /\ Gen.epsilon r1 = Gen.epsilon r
  /\ if 0 <? tw
     then pDao1 + TotalRewards.TotalCollateralRpl (Gen.totalRewards r1)
          = pending
     else pDao1 = pDao + total
          /\ Gen.totalRewards r1 = Gen.totalRewards r.
Proof.
  unfold collateralRewards, Big.Sign. intros H.
  assert (Hsgn : (0 <? Z.sgn tw) = (0 <? tw)).
  { destruct tw; reflexivity. }
  rewrite Hsgn in H. destruct (0 <? tw).
  - bind_inv H. apply foldM_sameInputs in Hc;
      [|intros; eapply collateralStep_sameInputs; eauto].
    destruct Hc as (Hns & _ & _ & _ & _ & _ & Heps & _).
    destruct (Gen.epsilon a <? _); [discriminate|].
    inversion H; subst; simpl in *. repeat split; try assumption. lia.
  - inversion H; subst. auto.
Qed.

(** With a positive total node weight the three recorded RPL totals add
    up to the pending rewards. *)
Lemma calculateRplRewards_conserves rp r r' w tw :
  NetworkState.CalculateNodeWeights (Gen.networkState r) = Some (w, tw) ->
  0 < tw ->
  calculateRplRewards rp r = Ok r' ->
  rplDistributed (Gen.totalRewards r')
  = NetworkDetails.PendingRPLRewards
      (NetworkState.NetworkDetails (Gen.networkState r)).
Proof.
  intros Hw Htw H. unfold calculateRplRewards in H. rewrite Hw in H.
  destruct (_ =? 0); [discriminate|]. simpl in H.
  bind_inv H. destruct a as [r1 pDao1].
  apply collateralRewards_totals in Hc. destruct Hc as (_ & _ & Hsum).
  replace (0 <? tw) with true in Hsum by (symmetry; apply Z.ltb_lt; exact Htw).
  destruct (trueODaoNodeTimes r1) as [times tt].
  bind_inv H. apply foldM_sameInputs in Hc;
    [|intros; eapply odaoStep_sameInputs; eauto].
  destruct Hc as (_ & Hfile & _).
  destruct (Gen.epsilon a <? _); [discriminate|].
  inversion H; subst. unfold rplDistributed, Gen.totalRewards in *; simpl.
  rewrite Hfile. lia.
Qed.

(** Without node weight the Protocol DAO is given the two floored
    budgets, and the oDAO total is then taken out of it. *)
Lemma calculateRplRewards_without_weight rp r r' w tw :
  NetworkState.CalculateNodeWeights (Gen.networkState r) = Some (w, tw) ->
  tw <= 0 ->
  calculateRplRewards rp r = Ok r' ->
  let nd := NetworkState.NetworkDetails (Gen.networkState r) in
  TotalRewards.ProtocolDaoRpl (Gen.totalRewards r')
  + TotalRewards.TotalOracleDaoRpl (Gen.totalRewards r')
  = NetworkDetails.PendingRPLRewards nd
    * NetworkDetails.ProtocolDaoRewardsPercent nd / oneEth
    + NetworkDetails.PendingRPLRewards nd
      * NetworkDetails.NodeOperatorRewardsPercent nd / oneEth.
Proof.
  intros Hw Htw H. unfold calculateRplRewards in H. rewrite Hw in H.
  destruct (_ =? 0); [discriminate|]. simpl in H.
  bind_inv H. destruct a as [r1 pDao1].
  apply collateralRewards_totals in Hc. destruct Hc as (_ & _ & Hsum).
  replace (0 <? tw) with false in Hsum by (symmetry; apply Z.ltb_ge; exact Htw).
  destruct Hsum as [HpDao _].
  destruct (trueODaoNodeTimes r1) as [times tt].
  bind_inv H. destruct (Gen.epsilon a <? _); [discriminate|].
  inversion H; subst. unfold Gen.totalRewards; simpl. lia.
Qed.

(** C1: on a snapshot without any node weight the generator completes,
    and its three recorded RPL totals (800, 0 and 100) add up to 900 of
    the 1000 pending RPL: the conservation that holds with a positive
    total weight is lost in the zero-weight branch. *)
Theorem rpl_not_conserved_without_node_weight :
  exists t : TotalRewards.t,
    Fixtures.totalsOf (Fixtures.run Fixtures.inOrder 10 Fixtures.noWeight)
    = Ok t
    /\ NetworkState.CalculateNodeWeights Fixtures.noWeight
       = Some (list_to_map [(1, 0)], 0)
    /\ TotalRewards.ProtocolDaoRpl t = 800
    /\ TotalRewards.TotalCollateralRpl t = 0
    /\ TotalRewards.TotalOracleDaoRpl t = 100
    /\ rplDistributed t = 900
    /\ NetworkDetails.PendingRPLRewards
         (NetworkState.NetworkDetails Fixtures.noWeight) = 1000.
Proof.
  eexists. split; [vm_compute; reflexivity|]. repeat split.
Qed.

(** ** Nothing to distribute *)

Section Skips.

Variable tenEth : Z.
Variable IsEligibleForBonuses : MinipoolInfo.t -> bool.
Variable merkleRoot : list NetworkReward.t -> list NodeReward.t -> option Z.

(** C8: with no pending RPL rewards the run fails and returns no
    result; with an empty smoothing pool, or in interval zero,
    [calculateEthRewards] returns without an error and leaves the
    generator as it was, apart from the balance it has just read. *)
Theorem no_pending_rpl_fails_and_empty_pool_skips
    (nodeOrder networkOrder : MapOrder) (r : Gen.t)
    (rp : ExecutionClient.t) (bc : BeaconClient.t) :
  let nd := NetworkState.NetworkDetails (Gen.networkState r) in
  (NetworkDetails.PendingRPLRewards nd = 0 ->
   generateTree tenEth IsEligibleForBonuses merkleRoot nodeOrder
     networkOrder r rp bc = Err ENoPendingRpl)
  /\ (forall checkBeaconPerformance : bool,
        NetworkDetails.SmoothingPoolBalance nd = 0
        \/ SSZFile.Index (Gen.rewardsFile r) = 0 ->
        calculateEthRewards tenEth IsEligibleForBonuses
          checkBeaconPerformance rp bc r
        = Ok (Gen.withSmoothingPoolBalance r
                (NetworkDetails.SmoothingPoolBalance nd))).
Proof.
  simpl. split.
  - intros Hp. unfold generateTree, calculateRplRewards. simpl.
    rewrite Hp. reflexivity.
  - intros flag H. unfold calculateEthRewards. simpl.
    destruct H as [H|H]; rewrite H; simpl; [reflexivity|].
    destruct (_ =? 0); reflexivity.
Qed.

End Skips.

Lemma no_pending_rpl_fails_and_empty_pool_skips_witness :
  Fixtures.run Fixtures.inOrder 10 Fixtures.nothingPending = Err ENoPendingRpl
  /\ calculateEthRewards Fixtures.tenEth Fixtures.eligible true Fixtures.rp
       Fixtures.bc (Fixtures.generator 10 (Fixtures.twoNodes 0))
     = Ok (Gen.withSmoothingPoolBalance
             (Fixtures.generator 10 (Fixtures.twoNodes 0)) 0).
Proof.
  split.
  - apply (proj1 (no_pending_rpl_fails_and_empty_pool_skips
                    Fixtures.tenEth Fixtures.eligible Fixtures.positional
                    Fixtures.inOrder Fixtures.inOrder
                    (Fixtures.generator 10 Fixtures.nothingPending)
                    Fixtures.rp Fixtures.bc)).
    reflexivity.
  - apply (proj2 (no_pending_rpl_fails_and_empty_pool_skips
                    Fixtures.tenEth Fixtures.eligible Fixtures.positional
                    Fixtures.inOrder Fixtures.inOrder
                    (Fixtures.generator 10 (Fixtures.twoNodes 0))
                    Fixtures.rp Fixtures.bc) true).
    left. reflexivity.
Defined.

(** ** Entries of the node reward list *)

(** C9: an oDAO member whose computed reward is zero still gets an
    entry: with five pending RPL the member at address 7 is listed with
    every reward field at zero. *)
Theorem odao_member_listed_without_reward :
  exists (n7 n1 : NodeReward.t),
    Fixtures.nodeListOf (Fixtures.run Fixtures.inOrder 10 Fixtures.dust)
    = Ok [n7; n1]
    /\ n7 = NodeReward.mk 7 0 0 0 0
    /\ emptyNodeReward n7 = true
    /\ n1 = NodeReward.mk 1 0 3 0 0.
Proof.
  do 2 eexists. split; [vm_compute; reflexivity|]. repeat split.
Qed.

(** ** Order of the lists *)


(** ** Loops over maps of pointers *)

Lemma Forall2_elem_of_right {A B : Type} (P : A -> B -> Prop)
    (l : list A) (l' : list B) (b : B) :
  Forall2 P l l' -> b ∈ l' -> exists a, a ∈ l /\ P a b.
Proof.
  induction 1 as [|a b' l l' Hab Hll IH]; intros Hb.
  - inversion Hb.
  - apply elem_of_cons in Hb. destruct Hb as [->|Hb].
    + exists a. split; [left|exact Hab].
    + destruct (IH Hb) as (a' & Ha' & HP). exists a'. split; [by right|exact HP].
Qed.

Lemma Forall2_elem_of_left {A B : Type} (P : A -> B -> Prop)
    (l : list A) (l' : list B) (a : A) :
  Forall2 P l l' -> a ∈ l -> exists b, b ∈ l' /\ P a b.
Proof.
  induction 1 as [|a' b l l' Hab Hll IH]; intros Ha.
  - inversion Ha.
  - apply elem_of_cons in Ha. destruct Ha as [->|Ha].
    + exists b. split; [left|exact Hab].
    + destruct (IH Ha) as (b' & Hb' & HP). exists b'. split; [by right|exact HP].
Qed.

(** Every value of the map a successful [gmapM] returns is the image of
    the value under the same key. *)
Lemma gmapM_lookup {V W : Type} (f : V -> result W) (m : gmap Z V)
    (m' : gmap Z W) (k : Z) (w : W) :
  gmapM f m = Ok m' -> m' !! k = Some w ->
  exists v, m !! k = Some v /\ f v = Ok w.
Proof.
  unfold gmapM. intros H Hk. bind_inv H. inversion H; subst. clear H.
  apply elem_of_list_to_map_2 in Hk. apply mapM_Forall2 in Hc.
  destruct (Forall2_elem_of_right _ _ _ _ Hc Hk) as ([k' v] & Hin & Hf).
  simpl in Hf. bind_inv Hf. inversion Hf; subst.
  exists v. split; [|exact Hc0]. by apply elem_of_map_to_list.
Qed.

Lemma mapM_fst_keys {V W : Type} (f : V -> result W) (l : list (Z * V))
    (l' : list (Z * W)) :
  mapM (fun kv => let* w := f (snd kv) in Ok (fst kv, w)) l = Ok l' ->
  l'.*1 = l.*1.
Proof.
  revert l'. induction l as [|[k v] l IH]; simpl; intros l' H.
  - inversion H. reflexivity.
  - bind_into H as b Hb. bind_into Hb as w Hw. inversion Hb; subst.
    bind_into H as bs Hbs. inversion H; subst. simpl. f_equal.
    apply IH. exact Hbs.
Qed.

(** Conversely every key of the map is kept. *)
Lemma gmapM_lookup_total {V W : Type} (f : V -> result W) (m : gmap Z V)
    (m' : gmap Z W) (k : Z) (v : V) :
  gmapM f m = Ok m' -> m !! k = Some v ->
  exists w, m' !! k = Some w /\ f v = Ok w.
Proof.
  unfold gmapM. intros H Hk. bind_inv H. inversion H; subst. clear H.
  pose proof (mapM_fst_keys _ _ _ Hc) as Hkeys.
  apply mapM_Forall2 in Hc. apply elem_of_map_to_list in Hk.
  destruct (Forall2_elem_of_left _ _ _ _ Hc Hk) as ([k' w] & Hin & Hf).
  simpl in Hf. bind_inv Hf. inversion Hf; subst.
  exists w. split; [|exact Hc0].
  apply elem_of_list_to_map_1; [|exact Hin].
  rewrite Hkeys. apply NoDup_fst_map_to_list.
Qed.

Lemma mapM_elem_of_Ok {A B : Type} (f : A -> result B) (l : list A)
    (l' : list B) (a : A) :
  mapM f l = Ok l' -> a ∈ l -> exists b, b ∈ l' /\ f a = Ok b.
Proof.
  intros H Ha. apply mapM_Forall2 in H.
  exact (Forall2_elem_of_left _ _ _ _ H Ha).
Qed.

(** ** The bonus fee *)

Section BonusFee.

Variable tenEth : Z.
Variable IsEligibleForBonuses : MinipoolInfo.t -> bool.

(** With a positive cap constant the fee floor is
    0.10 + 0.04 * min(cap, percent) / cap, and it is at most 0.14. *)
Lemma feeWithBonus_floor (percentOfBorrowedEth : Z) :
  0 < tenEth ->
  feeWithBonus tenEth percentOfBorrowedEth
  = Ok (Z.min tenEth percentOfBorrowedEth * pointOhFourEth / tenEth
        + pointOneEth)
  /\ Z.min tenEth percentOfBorrowedEth * pointOhFourEth / tenEth
     + pointOneEth <= fourteenPercentEth.
Proof.
  intros Hpos. unfold feeWithBonus, Big.Div.
  replace (tenEth =? 0) with false by (symmetry; apply Z.eqb_neq; lia).
  replace (0 <? tenEth) with true by (symmetry; apply Z.ltb_lt; lia).
  simpl. split.
  - destruct (Z.ltb_spec percentOfBorrowedEth tenEth).
    + rewrite Z.min_r by lia. reflexivity.
    + rewrite Z.min_l by lia. reflexivity.
  - assert (Z.min tenEth percentOfBorrowedEth * pointOhFourEth / tenEth
            <= pointOhFourEth).
    { apply Z.div_le_upper_bound; [exact Hpos|].
      unfold pointOhFourEth. nia. }
    unfold pointOhFourEth, pointOneEth, fourteenPercentEth in *. lia.
Qed.

(** A minipool leaves the bonus loop with a bonus only through the
    branch that raises its fee, behind the 14% check. *)
Lemma minipoolBonus_awarded ns pct mpd mpd' b :
  minipoolBonus tenEth IsEligibleForBonuses ns pct mpd = Ok (mpd', b) ->
  MinipoolInfo.MinipoolBonus mpd' <> None ->
  exists mpi fee,
    NetworkState.MinipoolDetailsByAddress ns !! MinipoolInfo.Address mpd
    = Some mpi
    /\ IsEligibleForBonuses mpd = true
    /\ feeWithBonus tenEth pct = Ok fee
    /\ MinipoolDetails.NodeFee mpi < fee
    /\ fee <= fourteenPercentEth
    /\ MinipoolInfo.TotalFee mpd' = Some fee
    /\ MinipoolInfo.MinipoolBonus mpd' = Some b
    /\ 0 <= b.
Proof.
  unfold minipoolBonus. intros H Hb.
  bind_into H as mpi Hmpi. apply orPanic_Ok in Hmpi.
  destruct (IsEligibleForBonuses mpd) eqn:He; simpl in H;
    [|inversion H; subst; simpl in Hb; congruence].
  bind_into H as fee Hfee.
  destruct (Z.leb_spec fee (MinipoolDetails.NodeFee mpi));
    [inversion H; subst; simpl in Hb; congruence|].
  destruct (Z.ltb_spec fourteenPercentEth fee); [discriminate|].
  bind_into H as income Hincome. inversion H; subst; simpl.
  exists mpi, fee. repeat split; try assumption.
  unfold Big.Sign.
  match goal with |- context [Z.sgn ?x] => generalize x end.
  intros x. destruct x; simpl; lia.
Qed.

(** The check does not clamp: a raised fee above 14% is an error. *)
Lemma minipoolBonus_above_cap ns pct mpd mpi fee :
  NetworkState.MinipoolDetailsByAddress ns !! MinipoolInfo.Address mpd
  = Some mpi ->
  IsEligibleForBonuses mpd = true ->
  feeWithBonus tenEth pct = Ok fee ->
  MinipoolDetails.NodeFee mpi < fee ->
  fourteenPercentEth < fee ->
  minipoolBonus tenEth IsEligibleForBonuses ns pct mpd = Err EFeeCap.
Proof.
  intros Hmpi He Hfee Hlt Hcap. unfold minipoolBonus.
  rewrite Hmpi, He, Hfee. simpl.
  replace (fee <=? MinipoolDetails.NodeFee mpi) with false
    by (symmetry; apply Z.leb_gt; lia).
  replace (fourteenPercentEth <? fee) with true
    by (symmetry; apply Z.ltb_lt; lia).
  reflexivity.
Qed.

Lemma nodeBonuses_eligible ns nsd nsd' b :
  nodeBonuses tenEth IsEligibleForBonuses ns nsd = Ok (nsd', b) ->
  NodeSmoothingDetails.IsEligible nsd' = true ->
  NodeSmoothingDetails.IsEligible nsd = true
  /\ NodeSmoothingDetails.Address nsd' = NodeSmoothingDetails.Address nsd
  /\ exists nd l,
       NetworkState.NodeDetailsByAddress ns
         !! NodeSmoothingDetails.Address nsd = Some nd
       /\ mapM (minipoolBonus tenEth IsEligibleForBonuses ns
                  (NetworkState.PercentOfBorrowedEth ns nd))
            (NodeSmoothingDetails.Minipools nsd) = Ok l
       /\ NodeSmoothingDetails.Minipools nsd' = map fst l
       /\ b = sumZ (map snd l)
       /\ NodeSmoothingDetails.BonusEth nsd'
          = NodeSmoothingDetails.BonusEth nsd + b.
Proof.
  unfold nodeBonuses. intros H He.
  destruct (NodeSmoothingDetails.IsEligible nsd) eqn:Hel; simpl in H;
    [|inversion H; subst; congruence].
  bind_into H as nd Hnd. apply orPanic_Ok in Hnd.
  bind_into H as l Hl. inversion H; subst; simpl.
  repeat split. exists nd, l. repeat split; assumption.
Qed.

End BonusFee.

(** C5: after a successful [calculateNodeBonuses] every minipool of an
    eligible node that holds a bonus has its total fee set to the fee
    floor of its node, 0.10 + 0.04 * min(cap, percent) / cap for a
    positive cap constant, above its base fee and at most 0.14; and the
    fee is never clamped: when the floor of an eligible minipool lies
    above its base fee and above 0.14 the calculation ends in an
    error. *)
Theorem bonus_fee_at_most_fourteen_percent
    (tenEth : Z) (IsEligibleForBonuses : MinipoolInfo.t -> bool) (r : Gen.t) :
  let ns := Gen.networkState r in
  (forall total r' address nsd mpd,
      calculateNodeBonuses tenEth IsEligibleForBonuses r = Ok (total, r') ->
      Gen.nodeDetails r' !! address = Some nsd ->
      NodeSmoothingDetails.IsEligible nsd = true ->
      mpd ∈ NodeSmoothingDetails.Minipools nsd ->
      MinipoolInfo.MinipoolBonus mpd <> None ->
      exists nd fee,
        NetworkState.NodeDetailsByAddress ns
          !! NodeSmoothingDetails.Address nsd = Some nd
        /\ feeWithBonus tenEth (NetworkState.PercentOfBorrowedEth ns nd)
           = Ok fee
        /\ MinipoolInfo.TotalFee mpd = Some fee
        /\ fee <= fourteenPercentEth
        /\ (0 < tenEth ->
            fee = Z.min tenEth (NetworkState.PercentOfBorrowedEth ns nd)
                  * pointOhFourEth / tenEth + pointOneEth))
  /\ (forall address nsd nd mpd mpi fee,
        Gen.nodeDetails r !! address = Some nsd ->
        NodeSmoothingDetails.IsEligible nsd = true ->
        NetworkState.NodeDetailsByAddress ns
          !! NodeSmoothingDetails.Address nsd = Some nd ->
        mpd ∈ NodeSmoothingDetails.Minipools nsd ->
        NetworkState.MinipoolDetailsByAddress ns !! MinipoolInfo.Address mpd
        = Some mpi ->
        IsEligibleForBonuses mpd = true ->
        feeWithBonus tenEth (NetworkState.PercentOfBorrowedEth ns nd)
        = Ok fee ->
        MinipoolDetails.NodeFee mpi < fee ->
        fourteenPercentEth < fee ->
        exists e, calculateNodeBonuses tenEth IsEligibleForBonuses r = Err e).
Proof.
  simpl. split.
  - intros total r' address nsd mpd H Hnsd Hel Hmpd Hbonus.
    unfold calculateNodeBonuses in H. bind_into H as m Hm.
    inversion H; subst; clear H. simpl in Hnsd.
    apply lookup_fmap_Some in Hnsd. destruct Hnsd as ([nsd' b] & Hfst & Hk).
    simpl in Hfst. subst nsd'.
    destruct (gmapM_lookup _ _ _ _ _ Hm Hk) as (nsd0 & _ & Hnode).
    destruct (nodeBonuses_eligible _ _ _ _ _ _ Hnode Hel)
      as (_ & Haddr & nd & l & Hnd & Hl & Hmps & _).
    rewrite Hmps in Hmpd. apply list_elem_of_fmap in Hmpd.
    destruct Hmpd as ([mpd' b'] & Hfst & Hin). simpl in Hfst. subst mpd'.
    apply mapM_Forall2 in Hl.
    destruct (Forall2_elem_of_right _ _ _ _ Hl Hin) as (mpd0 & _ & Hstep).
    destruct (minipoolBonus_awarded _ _ _ _ _ _ _ Hstep Hbonus)
      as (mpi & fee & _ & _ & Hfee & _ & Hcap & Htotal & _).
    exists nd, fee. rewrite Haddr. repeat split; try assumption.
    intros Hpos. destruct (feeWithBonus_floor tenEth
      (NetworkState.PercentOfBorrowedEth (Gen.networkState r) nd) Hpos)
      as [Heq _].
    congruence.
  - intros address nsd nd mpd mpi fee Hnsd Hel Hnd Hmpd Hmpi He Hfee Hlt Hcap.
    destruct (result_cases (calculateNodeBonuses tenEth IsEligibleForBonuses r))
      as [[[total r'] H]|[e H]]; [exfalso|eauto].
    unfold calculateNodeBonuses in H. bind_into H as m Hm.
    destruct (gmapM_lookup_total _ _ _ _ _ Hm Hnsd) as ([nsd' b] & _ & Hnode).
    unfold nodeBonuses in Hnode. rewrite Hel, Hnd in Hnode. simpl in Hnode.
    bind_into Hnode as l Hl.
    destruct (mapM_elem_of_Ok _ _ _ _ Hl Hmpd) as (out & _ & Hstep).
    rewrite (minipoolBonus_above_cap _ _ _ _ _ _ _ Hmpi He Hfee Hlt Hcap)
      in Hstep.
    discriminate.
Qed.

Lemma bonus_fee_at_most_fourteen_percent_witness :
  (exists nd fee,
      NetworkState.NodeDetailsByAddress (Fixtures.twoNodes 1000000) !! 1
      = Some nd
      /\ feeWithBonus Fixtures.tenEth
           (NetworkState.PercentOfBorrowedEth (Fixtures.twoNodes 1000000) nd)
         = Ok fee
      /\ MinipoolInfo.TotalFee Fixtures.bonused101 = Some fee
      /\ fee <= fourteenPercentEth
      /\ (0 < Fixtures.tenEth ->
          fee = Z.min Fixtures.tenEth
                  (NetworkState.PercentOfBorrowedEth
                     (Fixtures.twoNodes 1000000) nd)
                * pointOhFourEth / Fixtures.tenEth + pointOneEth))
  /\ exists e,
       calculateNodeBonuses Fixtures.brokenTenEth Fixtures.eligible
         Fixtures.brokenBefore = Err e.
Proof.
  split.
  - apply (proj1 (bonus_fee_at_most_fourteen_percent Fixtures.tenEth
                    Fixtures.eligible Fixtures.beforeBonuses)
             (525 * 10 ^ 14) Fixtures.afterBonuses 1 Fixtures.bonusedNode1
             Fixtures.bonused101).
    + vm_compute. reflexivity.
    + vm_compute. reflexivity.
    + reflexivity.
    + vm_compute. left.
    + vm_compute. discriminate.
  - apply (proj2 (bonus_fee_at_most_fourteen_percent Fixtures.brokenTenEth
                    Fixtures.eligible Fixtures.brokenBefore)
             1 (NodeSmoothingDetails.mk 1 true [Fixtures.info101] 100000 0 0)
             Fixtures.node1 Fixtures.info101 Fixtures.pool101 (3 * 10 ^ 17)).
    + vm_compute. reflexivity.
    + reflexivity.
    + vm_compute. reflexivity.
    + left.
    + vm_compute. reflexivity.
    + reflexivity.
    + vm_compute. reflexivity.
    + vm_compute. reflexivity.
    + vm_compute. reflexivity.
Defined.

(** ** Minipool and node records across the bonus phases *)

Lemma sameBase_refl m : sameBase m m.
Proof. unfold sameBase; tauto. Qed.

Lemma sameBase_trans m1 m2 m3 :
  sameBase m1 m2 -> sameBase m2 m3 -> sameBase m1 m3.
Proof. unfold sameBase. intuition congruence. Qed.

Lemma Forall2_sameBase_refl l : Forall2 sameBase l l.
Proof. induction l; constructor; auto using sameBase_refl. Qed.

Lemma Forall2_sameBase_trans l1 l2 l3 :
  Forall2 sameBase l1 l2 -> Forall2 sameBase l2 l3 -> Forall2 sameBase l1 l3.
Proof.
  intros H. revert l3. induction H; intros l3 H3; inversion H3; subst;
    constructor; eauto using sameBase_trans.
Qed.

Lemma sameNode_refl n : sameNode n n.
Proof. unfold sameNode. auto using Forall2_sameBase_refl. Qed.

Lemma sameNode_trans n1 n2 n3 :
  sameNode n1 n2 -> sameNode n2 n3 -> sameNode n1 n3.
Proof.
  unfold sameNode. intros (?&?&?&?) (?&?&?&?).
  repeat split; try congruence. eauto using Forall2_sameBase_trans.
Qed.

Lemma sameNodes_refl m : sameNodes m m.
Proof.
  intros k. destruct (m !! k); constructor. apply sameNode_refl.
Qed.

Lemma sameNodes_trans m1 m2 m3 :
  sameNodes m1 m2 -> sameNodes m2 m3 -> sameNodes m1 m3.
Proof.
  intros H12 H23 k. specialize (H12 k). specialize (H23 k).
  inversion H12 as [n1 n2 Hn|]; subst.
  - rewrite <- H0 in H23. inversion H23; subst. constructor.
    eapply sameNode_trans; eauto.
  - rewrite <- H0 in H23. inversion H23; subst. constructor.
Qed.

(** A loop that relates every value to its update relates the maps. *)
Lemma gmapM_related {V W : Type} (R : V -> W -> Prop) (f : V -> result W)
    (m : gmap Z V) (m' : gmap Z W) :
  (forall v w, f v = Ok w -> R v w) ->
  gmapM f m = Ok m' ->
  forall k, option_Forall2 R (m !! k) (m' !! k).
Proof.
  intros HR H k. destruct (m !! k) as [v|] eqn:Hk.
  - destruct (gmapM_lookup_total _ _ _ _ _ H Hk) as (w & Hw & Hf).
    rewrite Hw. constructor. auto.
  - destruct (m' !! k) as [w|] eqn:Hw; [|constructor].
    destruct (gmapM_lookup _ _ _ _ _ H Hw) as (v & Hv & _). congruence.
Qed.

Lemma mapM_related {A B : Type} (R : A -> B -> Prop) (f : A -> result B)
    (l : list A) (l' : list B) :
  (forall a b, f a = Ok b -> R a b) ->
  mapM f l = Ok l' -> Forall2 R l l'.
Proof.
  intros HR H. apply mapM_Forall2 in H.
  induction H; constructor; auto.
Qed.

Section BonusPhases.

Variable tenEth : Z.
Variable IsEligibleForBonuses : MinipoolInfo.t -> bool.

Lemma minipoolBonus_sameBase ns pct mpd mpd' b :
  minipoolBonus tenEth IsEligibleForBonuses ns pct mpd = Ok (mpd', b) ->
  sameBase mpd mpd'.
Proof.
  unfold minipoolBonus. intros H. bind_into H as mpi Hmpi.
  destruct (IsEligibleForBonuses mpd); simpl in H;
    [|inversion H; subst; unfold sameBase; simpl; tauto].
  bind_into H as fee Hfee.
  destruct (fee <=? _); [inversion H; subst; unfold sameBase; simpl; tauto|].
  destruct (fourteenPercentEth <? fee); [discriminate|].
  bind_into H as income Hincome. inversion H; subst.
  unfold sameBase; simpl; tauto.
Qed.

Lemma nodeBonuses_sameNode ns nsd nsd' b :
  nodeBonuses tenEth IsEligibleForBonuses ns nsd = Ok (nsd', b) ->
  sameNode nsd nsd'
  /\ NodeSmoothingDetails.SmoothingPoolEth nsd'
     = NodeSmoothingDetails.SmoothingPoolEth nsd
  /\ NodeSmoothingDetails.BonusEth nsd'
     = NodeSmoothingDetails.BonusEth nsd + b.
Proof.
  unfold nodeBonuses. intros H.
  destruct (NodeSmoothingDetails.IsEligible nsd); simpl in H.
  - bind_into H as nd Hnd. bind_into H as l Hl. inversion H; subst; simpl.
    repeat split. unfold sameNode; simpl. repeat split.
    apply (mapM_related (fun a (b : MinipoolInfo.t * Z) => sameBase a (fst b)))
      in Hl.
    + clear -Hl. induction Hl; simpl; constructor; auto.
    + intros a [m' b'] Hstep. simpl. eapply minipoolBonus_sameBase; eauto.
  - inversion H; subst. split; [apply sameNode_refl|]. split; [reflexivity|lia].
Qed.

Lemma scaleMinipool_sameBase rem total mpd mpd' :
  scaleMinipool rem total mpd = Ok mpd' -> sameBase mpd mpd'.
Proof.
  unfold scaleMinipool. intros H. bind_into H as b Hb. bind_into H as b' Hb'.
  inversion H; subst. unfold sameBase; simpl; tauto.
Qed.

Lemma scaleNode_sameNode rem total nsd nsd' :
  scaleNode rem total nsd = Ok nsd' ->
  sameNode nsd nsd'
  /\ NodeSmoothingDetails.SmoothingPoolEth nsd'
     = NodeSmoothingDetails.SmoothingPoolEth nsd.
Proof.
  unfold scaleNode. intros H. bind_into H as b Hb. bind_into H as mps Hmps.
  inversion H; subst; simpl. split; [|reflexivity].
  unfold sameNode; simpl. repeat split.
  eapply mapM_related; [|exact Hmps].
  intros; eapply scaleMinipool_sameBase; eauto.
Qed.

Lemma calculateNodeBonuses_nodes r total r' :
  calculateNodeBonuses tenEth IsEligibleForBonuses r = Ok (total, r') ->
  r' = Gen.withNodeDetails r (Gen.nodeDetails r')
  /\ sameNodes (Gen.nodeDetails r) (Gen.nodeDetails r').
Proof.
  unfold calculateNodeBonuses. intros H. bind_into H as m Hm.
  inversion H; subst; simpl. split; [reflexivity|].
  intros k.
  pose proof (gmapM_related
    (fun v (w : NodeSmoothingDetails.t * Z) => sameNode v (fst w)) _ _ _
    (fun v w Hf => proj1 (nodeBonuses_sameNode _ _ (fst w) (snd w)
       (eq_trans Hf (f_equal Ok (surjective_pairing w))))) Hm k) as Hk.
  rewrite lookup_fmap. inversion Hk; subst; simpl; constructor. assumption.
Qed.

Lemma bonuses_nodes r totalEth scalar r' scalar' :
  bonuses tenEth IsEligibleForBonuses r totalEth scalar = Ok (r', scalar') ->
  r' = Gen.withNodeDetails r (Gen.nodeDetails r')
  /\ sameNodes (Gen.nodeDetails r) (Gen.nodeDetails r').
Proof.
  unfold bonuses. intros H. destruct (10 <=? getRulesetVersion r).
  - bind_into H as tr Htr. destruct tr as [total r1].
    apply calculateNodeBonuses_nodes in Htr. destruct Htr as [Hr1 Hsame].
    destruct (_ <? total).
    + bind_into H as sc Hsc. bind_into H as nds Hnds.
      inversion H; subst; simpl. rewrite Hr1. simpl. split; [reflexivity|].
      eapply sameNodes_trans; [exact Hsame|].
      intros k. eapply gmapM_related; [|exact Hnds].
      intros v w Hf. apply scaleNode_sameNode in Hf. tauto.
    + inversion H; subst. auto.
  - inversion H; subst. destruct r'; simpl. split; [reflexivity|].
    apply sameNodes_refl.
Qed.

End BonusPhases.

(** ** The minipool loop of calculateNodeRewards *)

Lemma minipoolStep_inv ns cheaters share ts nds mp nds' :
  minipoolStep ns cheaters share ts nds mp = Ok nds' ->
  exists nodeInfo nmd q,
    (nds !! MinipoolInfo.NodeAddress mp = Some nodeInfo
     \/ nds !! MinipoolInfo.NodeAddress mp = None
        /\ NodeSmoothingDetails.IsEligible nodeInfo
           = negb (isCheater cheaters (MinipoolInfo.NodeAddress mp))
        /\ NodeSmoothingDetails.Minipools nodeInfo = []
        /\ NodeSmoothingDetails.SmoothingPoolEth nodeInfo = 0
        /\ NodeSmoothingDetails.BonusEth nodeInfo = 0)
    /\ NetworkState.MinipoolDetailsByAddress ns !! MinipoolInfo.Address mp
       = Some nmd
    /\ Big.Div (share * MinipoolInfo.AttestationScore mp) ts = Some q
    /\ nds'
       = <[MinipoolInfo.NodeAddress mp :=
             NodeSmoothingDetails.withSmoothingPoolEth
               (NodeSmoothingDetails.withMinipools nodeInfo
                  (NodeSmoothingDetails.Minipools nodeInfo
                   ++ [MinipoolInfo.withShare
                         (MinipoolInfo.withBond mp
                            (MinipoolDetails.NodeDepositBalance nmd))
                         (Some q)]))
               (NodeSmoothingDetails.SmoothingPoolEth nodeInfo + q)]> nds.
Proof.
  unfold minipoolStep. intros H.
  bind_into H as nodeInfo Hinfo. bind_into H as nmd Hnmd.
  apply orPanic_Ok in Hnmd. bind_into H as q Hq. apply orPanic_Ok in Hq.
  simpl in Hq. inversion H; subst; clear H.
  exists nodeInfo, nmd, q. repeat split; try assumption.
  destruct (nds !! MinipoolInfo.NodeAddress mp) as [ni|] eqn:Hk.
  - left. inversion Hinfo; subst. reflexivity.
  - right. bind_into Hinfo as nnd Hnnd. inversion Hinfo; subst; simpl.
    repeat split.
Qed.

(** Each iteration adds the base share of its minipool to the sum of
    the nodes' smoothing pool ETH. *)
Lemma minipoolStep_sum ns cheaters share ts nds mp nds' :
  minipoolStep ns cheaters share ts nds mp = Ok nds' ->
  sumMap NodeSmoothingDetails.SmoothingPoolEth nds'
  = sumMap NodeSmoothingDetails.SmoothingPoolEth nds
    + default 0 (Big.Div (share * MinipoolInfo.AttestationScore mp) ts).
Proof.
  intros H. apply minipoolStep_inv in H.
  destruct H as (nodeInfo & nmd & q & Hnode & _ & Hq & ->).
  rewrite sumMap_insert, Hq. simpl.
  destruct Hnode as [Hk|(Hk & _ & _ & Hsp & _)]; rewrite Hk; simpl; lia.
Qed.

(** Every minipool recorded under a node carries its base share. *)
Lemma minipoolStep_shares ns cheaters share ts nds mp nds' :
  minipoolStep ns cheaters share ts nds mp = Ok nds' ->
  (forall k nsd m, nds !! k = Some nsd ->
                   m ∈ NodeSmoothingDetails.Minipools nsd ->
                   hasBaseShare share ts m) ->
  forall k nsd m, nds' !! k = Some nsd ->
                  m ∈ NodeSmoothingDetails.Minipools nsd ->
                  hasBaseShare share ts m.
Proof.
  intros H Hinv k nsd m Hk Hm. apply minipoolStep_inv in H.
  destruct H as (nodeInfo & nmd & q & Hnode & _ & Hq & ->).
  rewrite lookup_insert in Hk.
  destruct (decide (MinipoolInfo.NodeAddress mp = k)) as [Heq|Hne];
    [subst k|eauto].
  inversion Hk; subst; clear Hk. simpl in Hm.
  apply elem_of_app in Hm. destruct Hm as [Hm|Hm].
  - destruct Hnode as [Hold|(_ & _ & Hnil & _)].
    + eauto.
    + rewrite Hnil in Hm. inversion Hm.
  - apply list_elem_of_singleton in Hm. subst m.
    unfold hasBaseShare; simpl. congruence.
Qed.

Lemma minipoolStep_records ns cheaters share ts nds mp nds' :
  minipoolStep ns cheaters share ts nds mp = Ok nds' ->
  recorded share ts nds' mp
  /\ forall mp0, recorded share ts nds mp0 -> recorded share ts nds' mp0.
Proof.
  intros H. apply minipoolStep_inv in H.
  destruct H as (nodeInfo & nmd & q & Hnode & _ & Hq & ->). split.
  - eexists _, _. rewrite lookup_insert_eq. split; [reflexivity|]. simpl.
    split; [apply elem_of_app; right; left|].
    unfold hasBaseShare; simpl. repeat split. congruence.
  - intros mp0 (nsd & m & Hk & Hm & Ha & Hs & Hb).
    destruct (decide (MinipoolInfo.NodeAddress mp
                      = MinipoolInfo.NodeAddress mp0)) as [He|Hne].
    + eexists _, m. rewrite He, lookup_insert_eq. split; [reflexivity|].
      simpl. split; [|auto]. apply elem_of_app. left.
      destruct Hnode as [Hold|(Hnone & _)]; congruence.
    + exists nsd, m. rewrite lookup_insert_ne by exact Hne. auto.
Qed.

Lemma minipoolLoop_records ns cheaters share ts mps :
  forall nds nds',
    foldM (minipoolStep ns cheaters share ts) mps nds = Ok nds' ->
    (forall mp0, recorded share ts nds mp0 -> recorded share ts nds' mp0)
    /\ forall mp, mp ∈ mps -> recorded share ts nds' mp.
Proof.
  induction mps as [|mp mps IH]; simpl; intros nds nds' H.
  - inversion H; subst. split; [auto|]. intros mp Hmp. inversion Hmp.
  - bind_into H as nds1 Hstep. apply minipoolStep_records in Hstep.
    destruct Hstep as [Hnew Hold]. destruct (IH _ _ H) as [Hkeep Hall].
    split; [auto|]. intros mp0 Hmp0. apply elem_of_cons in Hmp0.
    destruct Hmp0 as [->|Hin]; auto.
Qed.

(** ** Unfolding the ETH allocation *)

Lemma Big_Div_pos (x y : Z) : 0 < y -> Big.Div x y = Some (x / y).
Proof.
  intros Hy. unfold Big.Div.
  replace (y =? 0) with false by (symmetry; apply Z.eqb_neq; lia).
  replace (0 <? y) with true by (symmetry; apply Z.ltb_lt; lia).
  reflexivity.
Qed.

Lemma Big_int64_small (u : Z) : 0 <= u < 2 ^ 63 -> Big.int64 u = u.
Proof.
  intros Hu. unfold Big.int64. rewrite Z.mod_small by lia.
  replace (u <? 2 ^ 63) with true by (symmetry; apply Z.ltb_lt; lia).
  reflexivity.
Qed.

Lemma GetScores_count rr cheaters mps ts cnt :
  RollingRecord.GetScores rr cheaters = (mps, ts, cnt) -> 0 <= cnt < 2 ^ 64.
Proof.
  unfold RollingRecord.GetScores. intros H. inversion H; subst.
  apply Z.mod_pos_bound. lia.
Qed.

Section EthAllocation.

Variable tenEth : Z.
Variable IsEligibleForBonuses : MinipoolInfo.t -> bool.

Lemma calculateNodeRewards_inv r ps no bs r' mps ts cnt :
  calculateNodeRewards tenEth IsEligibleForBonuses r = Ok (ps, no, bs, r') ->
  RollingRecord.GetScores (Gen.rollingRecord r) (getCheaters r)
  = (mps, ts, cnt) ->
  ts <> 0 -> cnt <> 0 ->
  exists share nds0 r1,
    totalNodeOpShare (Gen.smoothingPoolBalance r) ts cnt = Ok share
    /\ foldM (minipoolStep (Gen.networkState r) (getCheaters r) share ts)
         mps ∅ = Ok nds0
    /\ bonuses tenEth IsEligibleForBonuses (Gen.withNodeDetails r nds0)
         (sumMap NodeSmoothingDetails.SmoothingPoolEth nds0) oneEth
       = Ok (r1, bs)
    /\ Z.abs (sumMap NodeSmoothingDetails.SmoothingPoolEth nds0 - share)
       <= Gen.epsilon r
    /\ no = (if 10 <=? getRulesetVersion r
             then sumMap NodeSmoothingDetails.SmoothingPoolEth nds0
                  + sumMap NodeSmoothingDetails.BonusEth (Gen.nodeDetails r1)
             else sumMap NodeSmoothingDetails.SmoothingPoolEth nds0)
    /\ ps = Gen.smoothingPoolBalance r - no
    /\ r' = (if 10 <=? getRulesetVersion r
             then Gen.withNodeDetails r1 (awardBonus <$> Gen.nodeDetails r1)
             else r1).
Proof.
  unfold calculateNodeRewards. intros H Hs Hts Hcnt. rewrite Hs in H.
  replace (ts =? 0) with false in H by (symmetry; apply Z.eqb_neq; lia).
  replace (cnt =? 0) with false in H by (symmetry; apply Z.eqb_neq; lia).
  simpl in H. bind_into H as share Hshare. bind_into H as nds0 Hloop.
  bind_into H as rb Hb. destruct rb as [r1 bs1].
  pose proof (bonuses_nodes _ _ _ _ _ _ _ Hb) as [Hr1 _].
  assert (Heps : Gen.epsilon r1 = Gen.epsilon r) by (rewrite Hr1; reflexivity).
  assert (Hver : getRulesetVersion r1 = getRulesetVersion r)
    by (rewrite Hr1; reflexivity).
  assert (Hbal : Gen.smoothingPoolBalance r1 = Gen.smoothingPoolBalance r)
    by (rewrite Hr1; reflexivity).
  rewrite Heps in H. simpl in H.
  match type of H with
  | context [if ?c then _ else _] => destruct c eqn:Hlt
  end; [discriminate|].
  apply Z.ltb_ge in Hlt. rewrite Hver in H. simpl in *.
  exists share, nds0, r1.
  destruct (10 <=? getRulesetVersion r); inversion H; subst; simpl;
    rewrite ?Hbal; repeat split; auto.
Qed.

Lemma getBlocksAndTimesForInterval_inv rp bc r startTime r' :
  getBlocksAndTimesForInterval rp bc r = Ok (startTime, r') ->
  exists f, r' = Gen.withRewardsFile r f
            /\ SSZFile.TotalRewards f = Gen.totalRewards r
            /\ SSZFile.RulesetVersion f = getRulesetVersion r
            /\ SSZFile.Index f = SSZFile.Index (Gen.rewardsFile r)
            /\ SSZFile.NodeRewards f = SSZFile.NodeRewards (Gen.rewardsFile r)
            /\ SSZFile.NetworkRewards f
               = SSZFile.NetworkRewards (Gen.rewardsFile r).
Proof.
  unfold getBlocksAndTimesForInterval. intros H.
  destruct (BeaconClient.GetBeaconBlock bc _) as [[el|]|]; try discriminate.
  destruct (ExecutionClient.HeaderByNumber rp _); [|discriminate].
  inversion H; subst. eexists. split; [reflexivity|]. repeat split.
Qed.

Lemma calculateEthRewards_inv flag rp bc r r' :
  calculateEthRewards tenEth IsEligibleForBonuses flag rp bc r = Ok r' ->
  NetworkDetails.SmoothingPoolBalance
    (NetworkState.NetworkDetails (Gen.networkState r)) <> 0 ->
  SSZFile.Index (Gen.rewardsFile r) <> 0 ->
  exists startTime f ps no bs r1 r2,
    getBlocksAndTimesForInterval rp bc
      (Gen.withSmoothingPoolBalance r
         (NetworkDetails.SmoothingPoolBalance
            (NetworkState.NetworkDetails (Gen.networkState r))))
    = Ok (startTime,
          Gen.withRewardsFile
            (Gen.withSmoothingPoolBalance r
               (NetworkDetails.SmoothingPoolBalance
                  (NetworkState.NetworkDetails (Gen.networkState r)))) f)
    /\ SSZFile.TotalRewards f = Gen.totalRewards r
    /\ SSZFile.RulesetVersion f = getRulesetVersion r
    /\ calculateNodeRewards tenEth IsEligibleForBonuses
         (atNodeRewards r f startTime) = Ok (ps, no, bs, r1)
    /\ foldM (ethStep rp) (map_to_list (Gen.nodeDetails r1))
         (withScalar r1 bs) = Ok r2
    /\ r' = Gen.withTotalRewards r2
              (TotalRewards.withSmoothingPool (Gen.totalRewards r2) ps no
                 (Gen.smoothingPoolBalance r2)).
Proof.
  unfold calculateEthRewards. intros H Hbal Hidx. simpl in H.
  replace (_ =? 0) with false in H by (symmetry; apply Z.eqb_neq; exact Hbal).
  replace (_ =? 0) with false in H by (symmetry; apply Z.eqb_neq; exact Hidx).
  bind_into H as sr Hblocks. destruct sr as [startTime r0].
  destruct (getBlocksAndTimesForInterval_inv _ _ _ _ _ Hblocks)
    as (f & -> & Htot & Hver & _).
  bind_into H as res Hres. destruct res as [[[ps no] bs] r1].
  bind_into H as r2 Hloop. inversion H; subst; clear H.
  exists startTime, f, ps, no, bs, r1, r2.
  repeat split; try assumption.
  unfold withScalar.
  destruct (10 <=? getRulesetVersion r1); exact Hloop.
Qed.

End EthAllocation.

(** ** Base shares of the smoothing pool *)

Lemma sameBase_hasBaseShare share ts m m' :
  sameBase m m' -> hasBaseShare share ts m -> hasBaseShare share ts m'.
Proof.
  unfold sameBase, hasBaseShare. intros (_ & _ & Hs & Hsh) H.
  rewrite Hsh, Hs. exact H.
Qed.

Lemma sameNodes_shares share ts a b :
  sameNodes a b ->
  (forall k nsd m, a !! k = Some nsd ->
                   m ∈ NodeSmoothingDetails.Minipools nsd ->
                   hasBaseShare share ts m) ->
  forall k nsd m, b !! k = Some nsd ->
                  m ∈ NodeSmoothingDetails.Minipools nsd ->
                  hasBaseShare share ts m.
Proof.
  intros Hab Ha k nsd m Hk Hm. specialize (Hab k). rewrite Hk in Hab.
  inversion Hab as [n0 n1 (_ & _ & _ & Hmps) Hn0|]; subst.
  destruct (Forall2_elem_of_right _ _ _ _ Hmps Hm) as (m0 & Hm0 & Hsame).
  eapply sameBase_hasBaseShare; [exact Hsame|]. eauto.
Qed.

Lemma sameNodes_recorded share ts a b mp :
  sameNodes a b -> recorded share ts a mp -> recorded share ts b mp.
Proof.
  intros Hab (nsd & m & Hk & Hm & Haddr & Hscore & Hshare).
  specialize (Hab (MinipoolInfo.NodeAddress mp)). rewrite Hk in Hab.
  inversion Hab as [n0 n1 (_ & _ & _ & Hmps) Hn0 Hn1|]; subst.
  destruct (Forall2_elem_of_left _ _ _ _ Hmps Hm) as (m' & Hm' & Hsame).
  exists n1, m'. repeat split; auto.
  - destruct Hsame as (? & _). congruence.
  - destruct Hsame as (_ & _ & ? & _). congruence.
  - eapply sameBase_hasBaseShare; eauto.
Qed.

Lemma awardBonus_sameNodes m : sameNodes m (awardBonus <$> m).
Proof.
  intros k. rewrite lookup_fmap. destruct (m !! k); simpl; constructor.
  unfold sameNode, awardBonus; simpl. repeat split.
  apply Forall2_sameBase_refl.
Qed.

Lemma minipoolLoop_shares ns cheaters share ts mps nds :
  foldM (minipoolStep ns cheaters share ts) mps ∅ = Ok nds ->
  forall k nsd m, nds !! k = Some nsd ->
                  m ∈ NodeSmoothingDetails.Minipools nsd ->
                  hasBaseShare share ts m.
Proof.
  intros H.
  apply (foldM_invariant
           (fun nds => forall k nsd m, nds !! k = Some nsd ->
              m ∈ NodeSmoothingDetails.Minipools nsd ->
              hasBaseShare share ts m)
           (minipoolStep ns cheaters share ts) mps) with (s := ∅).
  - intros s a s' Hs Hstep. eapply minipoolStep_shares; eauto.
  - intros k nsd m Hk. rewrite lookup_empty in Hk. discriminate.
  - exact H.
Qed.

Section BaseShares.

Variable tenEth : Z.
Variable IsEligibleForBonuses : MinipoolInfo.t -> bool.

(** The node records [calculateNodeRewards] leaves are those of its
    minipool loop, up to the bonus fields. *)
Lemma calculateNodeRewards_nodes r ps no bs r' mps ts cnt :
  calculateNodeRewards tenEth IsEligibleForBonuses r = Ok (ps, no, bs, r') ->
  RollingRecord.GetScores (Gen.rollingRecord r) (getCheaters r)
  = (mps, ts, cnt) ->
  ts <> 0 -> cnt <> 0 ->
  exists share nds0,
    totalNodeOpShare (Gen.smoothingPoolBalance r) ts cnt = Ok share
    /\ foldM (minipoolStep (Gen.networkState r) (getCheaters r) share ts)
         mps ∅ = Ok nds0
    /\ sameNodes nds0 (Gen.nodeDetails r').
Proof.
  intros H Hs Hts Hcnt.
  destruct (calculateNodeRewards_inv _ _ _ _ _ _ _ _ _ _ H Hs Hts Hcnt)
    as (share & nds0 & r1 & Hshare & Hloop & Hb & _ & _ & _ & Hr').
  exists share, nds0. repeat split; try assumption.
  apply bonuses_nodes in Hb. destruct Hb as [_ Hsame]. simpl in Hsame.
  subst r'. destruct (10 <=? getRulesetVersion r); [|exact Hsame].
  simpl. eapply sameNodes_trans; [exact Hsame|]. apply awardBonus_sameNodes.
Qed.

(** C7: when the smoothing pool is allocated and the rolling record
    reports a positive total score and a non-zero attestation count
    (below 2^63, so that its conversion to a signed integer keeps it),
    the node operator total is
    floor(floor(balance * totalScore / attestationCount) / 1e18) and
    every minipool the record scored is recorded under its node with the
    base share floor(total * score / totalScore); no minipool is
    recorded with another base share. *)
Theorem node_operator_total_and_minipool_shares
    (checkBeaconPerformance : bool) (rp : ExecutionClient.t)
    (bc : BeaconClient.t) (r r' : Gen.t) (mps : list MinipoolInfo.t)
    (totalScore attestationCount : Z) :
  let balance :=
    NetworkDetails.SmoothingPoolBalance
      (NetworkState.NetworkDetails (Gen.networkState r)) in
  let total := balance * totalScore / attestationCount / oneEth in
  calculateEthRewards tenEth IsEligibleForBonuses checkBeaconPerformance
    rp bc r = Ok r' ->
  balance <> 0 ->
  SSZFile.Index (Gen.rewardsFile r) <> 0 ->
  RollingRecord.GetScores (Gen.rollingRecord r) (getCheaters r)
  = (mps, totalScore, attestationCount) ->
  0 < totalScore ->
  attestationCount <> 0 ->
  attestationCount < 2 ^ 63 ->
  totalNodeOpShare balance totalScore attestationCount = Ok total
  /\ (forall mp, mp ∈ mps ->
        exists nsd m,
          Gen.nodeDetails r' !! MinipoolInfo.NodeAddress mp = Some nsd
          /\ m ∈ NodeSmoothingDetails.Minipools nsd
          /\ MinipoolInfo.Address m = MinipoolInfo.Address mp
          /\ MinipoolInfo.MinipoolShare m
             = Some (total * MinipoolInfo.AttestationScore mp / totalScore))
  /\ (forall k nsd m,
        Gen.nodeDetails r' !! k = Some nsd ->
        m ∈ NodeSmoothingDetails.Minipools nsd ->
        MinipoolInfo.MinipoolShare m
        = Some (total * MinipoolInfo.AttestationScore m / totalScore)).
Proof.
  intros balance total H Hbal Hidx Hs Hts Hcnt Hsmall.
  destruct (calculateEthRewards_inv _ _ _ _ _ _ _ H Hbal Hidx)
    as (st & f & ps & no & bs & r1 & r2 & _ & _ & _ & Hnr & Hloop & Hr').
  assert (Hnodes : Gen.nodeDetails r' = Gen.nodeDetails r1).
  { apply foldM_sameInputs in Hloop;
      [|intros; eapply ethStep_sameInputs; eauto].
    destruct Hloop as (_ & _ & _ & _ & _ & _ & _ & _ & Hnd).
    subst r'. simpl. rewrite Hnd. unfold withScalar.
    destruct (10 <=? _); reflexivity. }
  assert (Hts' : totalScore <> 0) by lia.
  destruct (calculateNodeRewards_nodes _ _ _ _ _ _ _ _ Hnr Hs Hts' Hcnt)
    as (share & nds0 & Hshare & Hmloop & Hsame).
  simpl in Hshare, Hmloop. fold balance in Hshare.
  assert (Htotal : totalNodeOpShare balance totalScore attestationCount
                   = Ok total).
  { unfold totalNodeOpShare. pose proof (GetScores_count _ _ _ _ _ Hs).
    rewrite Big_int64_small by lia. rewrite Big_Div_pos by lia.
    reflexivity. }
  assert (share = total) by congruence. subst share.
  rewrite Hnodes. split; [exact Htotal|]. split.
  - intros mp Hmp.
    destruct (minipoolLoop_records _ _ _ _ _ _ _ Hmloop) as [_ Hall].
    destruct (sameNodes_recorded _ _ _ _ _ Hsame (Hall mp Hmp))
      as (nsd & m & Hk & Hm & Haddr & Hscore & Hsh).
    exists nsd, m. repeat split; try assumption.
    unfold hasBaseShare in Hsh. rewrite Hsh, Hscore.
    apply Big_Div_pos. exact Hts.
  - intros k nsd m Hk Hm.
    pose proof (sameNodes_shares _ _ _ _ Hsame
                  (minipoolLoop_shares _ _ _ _ _ _ Hmloop) k nsd m Hk Hm)
      as Hsh.
    unfold hasBaseShare in Hsh. rewrite Hsh. apply Big_Div_pos. exact Hts.
Qed.

End BaseShares.

Lemma node_operator_total_and_minipool_shares_witness :
  totalNodeOpShare 1000000 (10 ^ 17) 1 = Ok 100000
  /\ (forall mp, mp ∈ [Fixtures.info101] ->
        exists nsd m,
          Gen.nodeDetails Fixtures.afterEth !! MinipoolInfo.NodeAddress mp
          = Some nsd
          /\ m ∈ NodeSmoothingDetails.Minipools nsd
          /\ MinipoolInfo.Address m = MinipoolInfo.Address mp
          /\ MinipoolInfo.MinipoolShare m
             = Some (100000 * MinipoolInfo.AttestationScore mp / 10 ^ 17))
  /\ (forall k nsd m,
        Gen.nodeDetails Fixtures.afterEth !! k = Some nsd ->
        m ∈ NodeSmoothingDetails.Minipools nsd ->
        MinipoolInfo.MinipoolShare m
        = Some (100000 * MinipoolInfo.AttestationScore m / 10 ^ 17)).
Proof.
  apply (node_operator_total_and_minipool_shares Fixtures.tenEth
           Fixtures.eligible true Fixtures.rp Fixtures.bc
           (Fixtures.generator 10 (Fixtures.twoNodes 1000000))
           Fixtures.afterEth [Fixtures.info101] (10 ^ 17) 1).
  - vm_compute. reflexivity.
  - vm_compute. discriminate.
  - vm_compute. discriminate.
  - vm_compute. reflexivity.
  - reflexivity.
  - discriminate.
  - reflexivity.
Defined.

(** ** Cheaters *)

Lemma cheaters_fold ns (l : list NodeDetails.t) (acc : gmap Z bool) (a : Z) :
  fold_left
    (fun cheatingNodes nd =>
       let address := NodeDetails.NodeAddress nd in
       if existsb (fun mpd => 3 <=? MinipoolDetails.PenaltyCount mpd)
            (default [] (NetworkState.MinipoolDetailsByNode ns !! address))
       then <[address := true]> cheatingNodes
       else cheatingNodes) l acc !! a = Some true
  <-> acc !! a = Some true
      \/ exists nd, nd ∈ l /\ NodeDetails.NodeAddress nd = a
                    /\ hasPenalizedMinipool ns nd = true.
Proof.
  revert acc. induction l as [|nd l IH]; simpl; intros acc.
  - split; [auto|]. intros [H|(nd & Hin & _)]; [exact H|inversion Hin].
  - rewrite IH. fold (hasPenalizedMinipool ns nd).
    destruct (hasPenalizedMinipool ns nd) eqn:Hp.
    + rewrite lookup_insert. split.
      * intros [H|(nd' & Hin & Ha & Hp')].
        -- destruct (decide (NodeDetails.NodeAddress nd = a)) as [He|Hne].
           ++ right. exists nd. split; [left|auto].
           ++ auto.
        -- right. exists nd'. split; [by right|auto].
      * intros [H|(nd' & Hin & Ha & Hp')].
        -- left. destruct (decide _); [reflexivity|exact H].
        -- apply elem_of_cons in Hin. destruct Hin as [->|Hin].
           ++ left. rewrite decide_True by exact Ha. reflexivity.
           ++ right. exists nd'. auto.
    + split.
      * intros [H|(nd' & Hin & Ha & Hp')]; [auto|].
        right. exists nd'. split; [by right|auto].
      * intros [H|(nd' & Hin & Ha & Hp')]; [auto|].
        apply elem_of_cons in Hin. destruct Hin as [->|Hin]; [congruence|].
        right. exists nd'. auto.
Qed.

(** The cheater set holds exactly the nodes of the list that own a
    minipool of three or more penalties. *)
Lemma getCheaters_spec (r : Gen.t) (a : Z) :
  getCheaters r !! a = Some true
  <-> exists nd, nd ∈ NetworkState.NodeDetails (Gen.networkState r)
                 /\ NodeDetails.NodeAddress nd = a
                 /\ hasPenalizedMinipool (Gen.networkState r) nd = true.
Proof.
  unfold getCheaters. rewrite cheaters_fold. rewrite lookup_empty.
  split; [intros [H|H]; [discriminate|exact H]|auto].
Qed.

(** The scoring set holds no minipool of a node of the cheater set. *)
Lemma GetScores_excludes rr cheaters mps ts cnt mp :
  RollingRecord.GetScores rr cheaters = (mps, ts, cnt) ->
  mp ∈ mps ->
  isCheater cheaters (MinipoolInfo.NodeAddress mp) = false
  /\ mp ∈ RollingRecord.Minipools rr.
Proof.
  unfold RollingRecord.GetScores. intros H Hmp. inversion H; subst.
  apply list_elem_of_filter in Hmp. exact Hmp.
Qed.

(** ** What the RPL loops credit *)

Lemma rewardsForNode_inv rp r address network n r' :
  rewardsForNode rp r address network = Ok (n, r') ->
  Gen.networkRewards r' = Gen.networkRewards r
  /\ Gen.nodeRewards r' !! address = Some n
  /\ (forall b, b <> address ->
        Gen.nodeRewards r' !! b = Gen.nodeRewards r !! b)
  /\ (Gen.nodeRewards r !! address = Some n
      \/ Gen.nodeRewards r !! address = None
         /\ NodeReward.CollateralRpl n = 0
         /\ NodeReward.OracleDaoRpl n = 0
         /\ NodeReward.SmoothingPoolEth n = 0).
Proof.
  unfold rewardsForNode. intros H.
  destruct (Gen.nodeRewards r !! address) as [n0|] eqn:Hk.
  - inversion H; subst. repeat split; auto.
  - bind_into H as net Hnet. bind_into H as vr Hv. destruct vr as [valid r1].
    assert (Hr1 : Gen.nodeRewards r1 = Gen.nodeRewards r
                  /\ Gen.networkRewards r1 = Gen.networkRewards r).
    { unfold validateNetwork in Hv.
      destruct (Gen.validNetworkCache r !! net); [inversion Hv; subst; auto|].
      destruct (ExecutionClient.GetNetworkEnabled rp _); inversion Hv; subst.
      auto. }
    destruct Hr1 as [Hnr Hnw]. inversion H; subst; clear H.
    destruct valid; simpl; rewrite ?Hnr, ?Hnw; repeat split;
      try apply lookup_insert_eq;
      try (intros b Hb; apply lookup_insert_ne; congruence);
      right; repeat split; assumption.
Qed.

(** Adding to the running total of a network moves the sum of a field
    over the networks by what the update adds to that field. *)
Lemma sumMap_network (F : NetworkReward.t -> Z)
    (upd : NetworkReward.t -> NetworkReward.t) (d : Z)
    (r : Gen.t) (net : Z) :
  (forall n, F (upd n) = F n + d) ->
  F (NetworkReward.New net) = 0 ->
  sumMap F (<[net := upd (rewardsForNetwork r net)]> (Gen.networkRewards r))
  = sumMap F (Gen.networkRewards r) + d.
Proof.
  intros Hupd Hnew. rewrite sumMap_insert, Hupd. unfold rewardsForNetwork.
  destruct (Gen.networkRewards r !! net); simpl; lia.
Qed.

Lemma collateralStep_credits rp w total tw r nd r' :
  collateralStep rp w total tw r nd = Ok r' ->
  (forall a,
      collateralOf r' a
      = collateralOf r a
        + if decide (NodeDetails.NodeAddress nd = a)
          then collateralShare total w tw nd else 0)
  /\ sumMap NetworkReward.CollateralRpl (Gen.networkRewards r')
     = sumMap NetworkReward.CollateralRpl (Gen.networkRewards r)
       + collateralShare total w tw nd
  /\ sumMap NetworkReward.OracleDaoRpl (Gen.networkRewards r')
     = sumMap NetworkReward.OracleDaoRpl (Gen.networkRewards r).
Proof.
  unfold collateralStep, collateralShare. intros H.
  bind_into H as nw Hnw. apply orPanic_Ok in Hnw. rewrite Hnw.
  bind_into H as x Hx. rewrite Hx.
  destruct (Big.Sign x =? 1).
  - bind_into H as nr Hn. destruct nr as [n r1].
    apply rewardsForNode_inv in Hn.
    destruct Hn as (Hnets & Hat & Hother & Hold).
    inversion H; subst; clear H. simpl. repeat split.
    + intros a. unfold collateralOf; simpl. rewrite lookup_insert.
      destruct (decide (NodeDetails.NodeAddress nd = a)) as [He|Hne].
      * subst a. simpl.
        destruct Hold as [Hk|(Hk & Hc & _)]; rewrite Hk; simpl; lia.
      * rewrite Hother by congruence. lia.
    + rewrite <- Hnets.
      apply (sumMap_network NetworkReward.CollateralRpl
               (fun n => NetworkReward.addCollateralRpl n x) x
               (Gen.withNodeRewards r1 _)); reflexivity.
    + rewrite <- Hnets.
      rewrite (sumMap_network NetworkReward.OracleDaoRpl
               (fun n => NetworkReward.addCollateralRpl n x) 0
               (Gen.withNodeRewards r1 _)); [simpl; lia| |reflexivity].
      intros; simpl; lia.
  - inversion H; subst. repeat split; try lia.
    intros a. destruct (decide _); lia.
Qed.

Lemma odaoStep_credits rp times total tt r d r' :
  odaoStep rp times total tt r d = Ok r' ->
  exists x,
    individualOdaoRewards times total tt (OracleDaoMember.Address d) = Ok x
    /\ (forall a, collateralOf r' a = collateralOf r a)
    /\ sumMap NetworkReward.CollateralRpl (Gen.networkRewards r')
       = sumMap NetworkReward.CollateralRpl (Gen.networkRewards r)
    /\ sumMap NetworkReward.OracleDaoRpl (Gen.networkRewards r')
       = sumMap NetworkReward.OracleDaoRpl (Gen.networkRewards r) + x.
Proof.
  unfold odaoStep. intros H. bind_into H as x Hx. exists x.
  split; [exact Hx|]. bind_into H as nr Hn. destruct nr as [n r1].
  apply rewardsForNode_inv in Hn.
  destruct Hn as (Hnets & Hat & Hother & Hold).
  inversion H; subst; clear H. simpl. repeat split.
  - intros a. unfold collateralOf; simpl. rewrite lookup_insert.
    destruct (decide (OracleDaoMember.Address d = a)) as [He|Hne].
    + subst a. simpl.
      destruct Hold as [Hk|(Hk & Hc & _)]; rewrite Hk; simpl; lia.
    + rewrite Hother by congruence. reflexivity.
  - rewrite <- Hnets.
    rewrite (sumMap_network NetworkReward.CollateralRpl
             (fun n => NetworkReward.addOracleDaoRpl n x) 0
             (Gen.withNodeRewards r1 _)); [simpl; lia| |reflexivity].
    intros; simpl; lia.
  - rewrite <- Hnets.
    apply (sumMap_network NetworkReward.OracleDaoRpl
             (fun n => NetworkReward.addOracleDaoRpl n x) x
             (Gen.withNodeRewards r1 _)); reflexivity.
Qed.

Lemma collateralLoop_credits rp w total tw l :
  forall r r',
    foldM (collateralStep rp w total tw) l r = Ok r' ->
    (forall a,
        collateralOf r' a
        = collateralOf r a
          + sumZ (map (fun nd =>
                         if decide (NodeDetails.NodeAddress nd = a)
                         then collateralShare total w tw nd else 0) l))
    /\ sumMap NetworkReward.CollateralRpl (Gen.networkRewards r')
       = sumMap NetworkReward.CollateralRpl (Gen.networkRewards r)
         + sumZ (map (collateralShare total w tw) l)
    /\ sumMap NetworkReward.OracleDaoRpl (Gen.networkRewards r')
       = sumMap NetworkReward.OracleDaoRpl (Gen.networkRewards r).
Proof.
  intros r r' H. repeat split.
  - intros a.
    apply (foldM_measure (fun r => collateralOf r a) _
             (collateralStep rp w total tw) l) with (s := r); [|exact H].
    intros s nd s' Hstep. apply collateralStep_credits in Hstep.
    destruct Hstep as (Ha & _). apply Ha.
  - apply (foldM_measure
             (fun r => sumMap NetworkReward.CollateralRpl (Gen.networkRewards r))
             _ (collateralStep rp w total tw) l) with (s := r); [|exact H].
    intros s nd s' Hstep. apply collateralStep_credits in Hstep. tauto.
  - pose proof (foldM_measure
             (fun r => sumMap NetworkReward.OracleDaoRpl (Gen.networkRewards r))
             (fun _ => 0) (collateralStep rp w total tw) l) as Hm.
    assert (Hstep0 : forall s nd s',
              collateralStep rp w total tw s nd = Ok s' ->
              sumMap NetworkReward.OracleDaoRpl (Gen.networkRewards s')
              = sumMap NetworkReward.OracleDaoRpl (Gen.networkRewards s) + 0).
    { intros s nd s' Hstep. apply collateralStep_credits in Hstep.
      destruct Hstep as (_ & _ & Ho). lia. }
    rewrite (Hm Hstep0 r r' H).
    clear. induction l; simpl; unfold sumZ in *; simpl; lia.
Qed.

Lemma odaoLoop_credits rp times total tt l :
  forall r r',
    foldM (odaoStep rp times total tt) l r = Ok r' ->
    (forall a, collateralOf r' a = collateralOf r a)
    /\ sumMap NetworkReward.CollateralRpl (Gen.networkRewards r')
       = sumMap NetworkReward.CollateralRpl (Gen.networkRewards r)
    /\ sumMap NetworkReward.OracleDaoRpl (Gen.networkRewards r')
       = sumMap NetworkReward.OracleDaoRpl (Gen.networkRewards r)
         + sumZ (map (fun d =>
                        match individualOdaoRewards times total tt
                                (OracleDaoMember.Address d) with
                        | Ok x => x
                        | Err _ => 0
                        end) l).
Proof.
  induction l as [|d l IH]; simpl; intros r r' H.
  - inversion H; subst. unfold sumZ; simpl. repeat split; lia.
  - bind_into H as r1 Hstep. apply odaoStep_credits in Hstep.
    destruct Hstep as (x & Hx & Ha & Hc & Ho).
    destruct (IH _ _ H) as (Ha' & Hc' & Ho'). rewrite Hx.
    repeat split.
    + intros a. rewrite Ha', Ha. reflexivity.
    + lia.
    + rewrite Ho', Ho. unfold sumZ; simpl. lia.
Qed.

Lemma trueODaoNodeTimes_sameInputs r r1 :
  Gen.networkState r1 = Gen.networkState r ->
  Gen.elSnapshotHeaderTime r1 = Gen.elSnapshotHeaderTime r ->
  trueODaoNodeTimes r1 = trueODaoNodeTimes r.
Proof. unfold trueODaoNodeTimes. intros -> ->. reflexivity. Qed.

Lemma odaoShares_sameInputs r r1 :
  Gen.networkState r1 = Gen.networkState r ->
  Gen.elSnapshotHeaderTime r1 = Gen.elSnapshotHeaderTime r ->
  odaoShares r1 = odaoShares r.
Proof.
  intros Hns Ht. unfold odaoShares.
  rewrite (trueODaoNodeTimes_sameInputs _ _ Hns Ht), Hns. reflexivity.
Qed.

(** What a successful [calculateRplRewards] has checked and credited. *)
Lemma calculateRplRewards_sums rp r r' :
  calculateRplRewards rp r = Ok r' ->
  let ns := Gen.networkState r in
  let collateral0 :=
    sumMap NetworkReward.CollateralRpl (Gen.networkRewards r) in
  let odao0 := sumMap NetworkReward.OracleDaoRpl (Gen.networkRewards r) in
  sameInputs r (Gen.withRewardsFile r' (Gen.rewardsFile r))
  /\ (forall a, collateralOf r' a = collateralOf r a + collateralPaid ns a)
  /\ sumMap NetworkReward.CollateralRpl (Gen.networkRewards r')
     = collateral0 + sumZ (collateralShares ns)
  /\ sumMap NetworkReward.OracleDaoRpl (Gen.networkRewards r')
     = odao0 + sumZ (odaoShares r)
  /\ (forall w tw, NetworkState.CalculateNodeWeights ns = Some (w, tw) ->
        0 < tw ->
        Z.abs (collateralBudget ns - (collateral0 + sumZ (collateralShares ns)))
        <= Gen.epsilon r)
  /\ Z.abs (odaoBudget ns - (odao0 + sumZ (odaoShares r))) <= Gen.epsilon r.
Proof.
  intros H ns collateral0 odao0. unfold calculateRplRewards in H.
  destruct (_ =? 0); [discriminate|].
  fold ns in H. fold (collateralBudget ns) in H. fold (odaoBudget ns) in H.
  destruct (NetworkState.CalculateNodeWeights ns) as [[w tw]|] eqn:Hw;
    [|discriminate].
  simpl in H. bind_into H as rp1 Hcoll. destruct rp1 as [r1 pDao1].
  assert (Hcollateral :
    sameInputs r (Gen.withRewardsFile r1 (Gen.rewardsFile r))
    /\ (forall a, collateralOf r1 a = collateralOf r a + collateralPaid ns a)
    /\ sumMap NetworkReward.CollateralRpl (Gen.networkRewards r1)
       = collateral0 + sumZ (collateralShares ns)
    /\ sumMap NetworkReward.OracleDaoRpl (Gen.networkRewards r1) = odao0
    /\ (0 < tw ->
        Z.abs (collateralBudget ns - (collateral0 + sumZ (collateralShares ns)))
        <= Gen.epsilon r)).
  { unfold collateralRewards in Hcoll. unfold collateralPaid, collateralShares.
    fold ns in Hcoll. rewrite Hw.
    assert (Hsgn : (0 <? Big.Sign tw) = (0 <? tw)) by (destruct tw; reflexivity).
    rewrite Hsgn in Hcoll. destruct (Z.ltb_spec 0 tw) as [Hpos|Hneg].
    - bind_into Hcoll as r1' Hloop.
      pose proof (foldM_sameInputs _ _
        (fun s a s' => collateralStep_sameInputs rp w _ tw s a s') _ _ Hloop)
        as Hsame.
      apply collateralLoop_credits in Hloop.
      destruct Hloop as (Ha & Hc & Ho). simpl in Ha, Hc, Ho.
      destruct Hsame as (Hns & Hfile & Htime & Hse & Hrr & Hbal & Heps & His
                         & Hnd). simpl in *.
      rewrite Heps in Hcoll.
      match type of Hcoll with
      | context [if ?c then _ else _] => destruct c eqn:Hlt
      end; [discriminate|].
      apply Z.ltb_ge in Hlt. inversion Hcoll; subst; clear Hcoll. simpl.
      split; [unfold sameInputs; simpl; tauto|].
      split; [exact Ha|]. split; [exact Hc|]. split; [exact Ho|].
      intros _. unfold collateral0. rewrite <- Hc. exact Hlt.
    - inversion Hcoll; subst; clear Hcoll.
      split; [destruct r1; unfold sameInputs; simpl; tauto|].
      unfold sumZ; simpl. repeat split; lia. }
  destruct Hcollateral as (Hsame1 & Ha1 & Hc1 & Ho1 & Hcheck1).
  destruct Hsame1 as (Hns1 & _ & Htime1 & Hse1 & Hrr1 & Hbal1 & Heps1 & His1
                      & Hnd1). simpl in *.
  pose proof (odaoShares_sameInputs r r1 Hns1 Htime1) as Hshares.
  unfold odaoShares in Hshares. fold ns in Hshares.
  rewrite Hns1 in H. fold ns in H.
  destruct (trueODaoNodeTimes r1) as [times tt].
  bind_into H as r2 Hloop.
  pose proof (foldM_sameInputs _ _
    (fun s a s' => odaoStep_sameInputs rp times _ tt s a s') _ _ Hloop)
    as Hsame2.
  apply odaoLoop_credits in Hloop. destruct Hloop as (Ha2 & Hc2 & Ho2).
  destruct Hsame2 as (Hns2 & Hfile2 & Htime2 & Hse2 & Hrr2 & Hbal2 & Heps2
                      & His2 & Hnd2).
  match type of H with
  | context [if ?c then _ else _] => destruct c eqn:Hlt
  end; [discriminate|].
  apply Z.ltb_ge in Hlt. inversion H; subst; clear H.
  rewrite Hns1 in Hshares. fold ns in Hshares.
  assert (Hodao : sumMap NetworkReward.OracleDaoRpl (Gen.networkRewards r2)
                  = odao0 + sumZ (odaoShares r)).
  { rewrite Ho2, Ho1. unfold odaoShares. fold ns. rewrite <- Hshares.
    reflexivity. }
  split; [unfold sameInputs; simpl; repeat split; congruence|].
  split.
  { intros a. change (collateralOf r2 a = collateralOf r a + collateralPaid ns a).
    rewrite Ha2. apply Ha1. }
  split; [simpl; rewrite Hc2; exact Hc1|].
  split; [exact Hodao|].
  split.
  { intros w' tw' Hw' Hpos. inversion Hw'; subst. auto. }
  rewrite <- Hodao, <- Heps1, <- Heps2. exact Hlt.
Qed.

Lemma minipoolLoop_keys ns cheaters share ts mps :
  forall nds nds' k,
    foldM (minipoolStep ns cheaters share ts) mps nds = Ok nds' ->
    is_Some (nds' !! k) ->
    is_Some (nds !! k)
    \/ exists mp, mp ∈ mps /\ MinipoolInfo.NodeAddress mp = k.
Proof.
  induction mps as [|mp mps IH]; simpl; intros nds nds' k H Hk.
  - inversion H; subst. auto.
  - bind_into H as nds1 Hstep.
    destruct (IH _ _ _ H Hk) as [Hin|(mp' & Hin & Ha)].
    + apply minipoolStep_inv in Hstep.
      destruct Hstep as (nodeInfo & nmd & q & _ & _ & _ & ->).
      rewrite lookup_insert in Hin.
      destruct (decide (MinipoolInfo.NodeAddress mp = k)) as [He|Hne].
      * right. exists mp. split; [left|exact He].
      * left. exact Hin.
    + right. exists mp'. split; [by right|exact Ha].
Qed.

(** C4, against the claim: node 2 owns a minipool with three penalties
    and is in the cheater set, and with weight 2 of 3 it is still paid
    466 = floor(700 * 2 / 3) of the 700 collateral RPL, node 1 the
    remaining 233: its weight is part of the apportionment. *)
Lemma cheater_is_paid_collateral_by_weight :
  Fixtures.node2 ∈ NetworkState.NodeDetails (Fixtures.twoNodes 0)
  /\ hasPenalizedMinipool (Fixtures.twoNodes 0) Fixtures.node2 = true
  /\ getCheaters (Fixtures.generator 10 (Fixtures.twoNodes 0)) !! 2 = Some true
  /\ collateralBudget (Fixtures.twoNodes 0) = 700
  /\ Fixtures.nodeListOf
       (Fixtures.run Fixtures.inOrder 10 (Fixtures.twoNodes 0))
     = Ok [NodeReward.mk 2 0 466 0 0; NodeReward.mk 1 0 233 100 0].
Proof.
  split; [right; left|]. vm_compute. repeat split.
Qed.

Section Cheaters.

Variable tenEth : Z.
Variable IsEligibleForBonuses : MinipoolInfo.t -> bool.

(** C4, as the code has it: a node of the node list that owns a
    minipool with three or more penalties is in the cheater set; no
    minipool of it is in the scoring set the rolling record returns for
    that set, and the smoothing pool allocation keeps no record of it;
    its collateral RPL is what the loop credits by the snapshot's
    weights to any address, the cheater set playing no part in it. *)
Theorem cheater_flagged_unscored_and_paid_by_weight
    (rp : ExecutionClient.t) (r : Gen.t) (nd : NodeDetails.t) :
  let ns := Gen.networkState r in
  let address := NodeDetails.NodeAddress nd in
  nd ∈ NetworkState.NodeDetails ns ->
  hasPenalizedMinipool ns nd = true ->
  getCheaters r !! address = Some true
  /\ (forall mps ts cnt mp,
        RollingRecord.GetScores (Gen.rollingRecord r) (getCheaters r)
        = (mps, ts, cnt) ->
        mp ∈ mps -> MinipoolInfo.NodeAddress mp <> address)
  /\ (forall mps ts cnt ps no bs r',
        RollingRecord.GetScores (Gen.rollingRecord r) (getCheaters r)
        = (mps, ts, cnt) ->
        ts <> 0 -> cnt <> 0 ->
        calculateNodeRewards tenEth IsEligibleForBonuses r
        = Ok (ps, no, bs, r') ->
        Gen.nodeDetails r' !! address = None)
  /\ (forall r',
        calculateRplRewards rp r = Ok r' ->
        collateralOf r' address
        = collateralOf r address + collateralPaid ns address).
Proof.
  intros ns address Hnd Hp.
  assert (Hcheater : getCheaters r !! address = Some true).
  { apply getCheaters_spec. exists nd. auto. }
  assert (Hscores : forall mps ts cnt mp,
            RollingRecord.GetScores (Gen.rollingRecord r) (getCheaters r)
            = (mps, ts, cnt) ->
            mp ∈ mps -> MinipoolInfo.NodeAddress mp <> address).
  { intros mps ts cnt mp Hs Hmp Ha.
    destruct (GetScores_excludes _ _ _ _ _ _ Hs Hmp) as [Hc _].
    unfold isCheater in Hc. rewrite Ha, Hcheater in Hc. discriminate. }
  split; [exact Hcheater|]. split; [exact Hscores|]. split.
  - intros mps ts cnt ps no bs r' Hs Hts Hcnt H.
    destruct (calculateNodeRewards_nodes _ _ _ _ _ _ _ _ _ _ H Hs Hts Hcnt)
      as (share & nds0 & _ & Hloop & Hsame).
    specialize (Hsame address).
    destruct (Gen.nodeDetails r' !! address) as [nsd|] eqn:Hk; [|reflexivity].
    inversion Hsame as [n0 n1 _ Hn0 Hn1|]; subst.
    destruct (minipoolLoop_keys _ _ _ _ _ _ _ address Hloop) as [Hin|Hin].
    + rewrite <- Hn0. eauto.
    + rewrite lookup_empty in Hin. destruct Hin as [? Hin]. discriminate.
    + destruct Hin as (mp & Hmp & Ha). exfalso.
      exact (Hscores _ _ _ _ Hs Hmp Ha).
  - intros r' H. apply calculateRplRewards_sums in H.
    destruct H as (_ & Ha & _). apply Ha.
Qed.

End Cheaters.

Lemma cheater_flagged_unscored_and_paid_by_weight_witness :
  let r := Fixtures.generator 10 (Fixtures.twoNodes 0) in
  let ns := Fixtures.twoNodes 0 in
  getCheaters r !! 2 = Some true
  /\ (forall mps ts cnt mp,
        RollingRecord.GetScores (Gen.rollingRecord r) (getCheaters r)
        = (mps, ts, cnt) ->
        mp ∈ mps -> MinipoolInfo.NodeAddress mp <> 2)
  /\ (forall mps ts cnt ps no bs r',
        RollingRecord.GetScores (Gen.rollingRecord r) (getCheaters r)
        = (mps, ts, cnt) ->
        ts <> 0 -> cnt <> 0 ->
        calculateNodeRewards Fixtures.tenEth Fixtures.eligible r
        = Ok (ps, no, bs, r') ->
        Gen.nodeDetails r' !! 2 = None)
  /\ (forall r',
        calculateRplRewards Fixtures.rp r = Ok r' ->
        collateralOf r' 2 = collateralOf r 2 + collateralPaid ns 2).
Proof.
  apply (cheater_flagged_unscored_and_paid_by_weight Fixtures.tenEth
           Fixtures.eligible Fixtures.rp
           (Fixtures.generator 10 (Fixtures.twoNodes 0)) Fixtures.node2).
  - right. left.
  - reflexivity.
Defined.

(** ** Sums over updated maps *)

Lemma gmapM_list {V W : Type} (f : V -> result W) (m : gmap Z V)
    (m' : gmap Z W) :
  gmapM f m = Ok m' ->
  exists l', Forall2 (fun kv kw => f (snd kv) = Ok (snd kw))
               (map_to_list m) l'
             /\ Permutation (map_to_list m') l'.
Proof.
  unfold gmapM. intros H. bind_into H as l' Hl. inversion H; subst.
  exists l'. split.
  - apply mapM_Forall2 in Hl. clear -Hl.
    induction Hl as [|[k v] [k' w] l l' Hf Hll IH]; constructor; auto.
    simpl in *. bind_into Hf as w0 Hw. inversion Hf; subst. exact Hw.
  - apply map_to_list_to_map. rewrite (mapM_fst_keys _ _ _ Hl).
    apply NoDup_fst_map_to_list.
Qed.

(** If every update bounds a field of the new value by a function of
    the old one, the sum of the field is bounded by the sum of the
    function. *)
Lemma sumMap_gmapM_le {V W : Type} (f : V -> result W) (g : W -> Z)
    (h : V -> Z) (m : gmap Z V) (m' : gmap Z W) :
  (forall v w, f v = Ok w -> g w <= h v) ->
  gmapM f m = Ok m' -> sumMap g m' <= sumMap h m.
Proof.
  intros Hgh H. destruct (gmapM_list _ _ _ H) as (l' & Hl & Hperm).
  unfold sumMap.
  rewrite (sumZ_Permutation _ (map (fun kw => g kw.2) l'))
    by (apply Permutation_map; exact Hperm).
  clear -Hl Hgh. induction Hl as [|kv kw l l' Hf Hll IH]; simpl.
  - reflexivity.
  - unfold sumZ in *; simpl. specialize (Hgh _ _ Hf). lia.
Qed.

Lemma sumMap_gmapM_eq {V W : Type} (f : V -> result W) (g : W -> Z)
    (h : V -> Z) (m : gmap Z V) (m' : gmap Z W) :
  (forall v w, f v = Ok w -> g w = h v) ->
  gmapM f m = Ok m' -> sumMap g m' = sumMap h m.
Proof.
  intros Hgh H. destruct (gmapM_list _ _ _ H) as (l' & Hl & Hperm).
  unfold sumMap.
  rewrite (sumZ_Permutation _ (map (fun kw => g kw.2) l'))
    by (apply Permutation_map; exact Hperm).
  clear -Hl Hgh. induction Hl as [|kv kw l l' Hf Hll IH]; simpl.
  - reflexivity.
  - unfold sumZ in *; simpl. specialize (Hgh _ _ Hf). lia.
Qed.

Lemma sumMap_zero {V : Type} (f : V -> Z) (m : gmap Z V) :
  (forall k v, m !! k = Some v -> f v = 0) -> sumMap f m = 0.
Proof.
  intros H. unfold sumMap.
  assert (Hall : forall kv, kv ∈ map_to_list m -> f kv.2 = 0).
  { intros [k v] Hin. apply elem_of_map_to_list in Hin. eauto. }
  induction (map_to_list m) as [|kv l IH]; [reflexivity|].
  unfold sumZ in *; simpl. rewrite (Hall kv) by left.
  rewrite IH; [reflexivity|]. intros kv' Hin. apply Hall. by right.
Qed.

Lemma sumMap_le {V : Type} (f g : V -> Z) (m : gmap Z V) :
  (forall k v, m !! k = Some v -> f v <= g v) -> sumMap f m <= sumMap g m.
Proof.
  intros H. unfold sumMap.
  assert (Hall : forall kv, kv ∈ map_to_list m -> f kv.2 <= g kv.2).
  { intros [k v] Hin. apply elem_of_map_to_list in Hin. eauto. }
  induction (map_to_list m) as [|kv l IH]; [reflexivity|].
  unfold sumZ in *; simpl. pose proof (Hall kv ltac:(left)).
  assert (foldr Z.add 0 (map (fun kv => f kv.2) l)
          <= foldr Z.add 0 (map (fun kv => g kv.2) l)).
  { apply IH. intros kv' Hin. apply Hall. by right. }
  lia.
Qed.

Lemma sumMap_minus {V : Type} (f g : V -> Z) (m : gmap Z V) :
  sumMap (fun v => f v - g v) m = sumMap f m - sumMap g m.
Proof.
  unfold sumMap. induction (map_to_list m) as [|kv l IH]; [reflexivity|].
  unfold sumZ in *; simpl. lia.
Qed.

(** Floors of parts add up to at most the floor of the whole. *)
Lemma sum_of_floors_le (R T : Z) (l : list Z) :
  0 < T -> sumZ (map (fun b => b * R / T) l) <= sumZ l * R / T.
Proof.
  intros HT. induction l as [|b l IH]; unfold sumZ in *; simpl.
  - rewrite Z.div_0_l by lia. lia.
  - apply Z.div_le_lower_bound; [exact HT|].
    pose proof (Z.mul_div_le (b * R) T HT).
    pose proof (Z.mul_div_le (foldr Z.add 0 l * R) T HT).
    nia.
Qed.

Lemma sumMap_floors_le {V : Type} (F : V -> Z) (R T : Z) (m : gmap Z V) :
  0 < T -> sumMap (fun v => F v * R / T) m <= sumMap F m * R / T.
Proof.
  intros HT. unfold sumMap.
  pose proof (sum_of_floors_le R T (map (fun kv => F kv.2) (map_to_list m)) HT)
    as H.
  rewrite map_map in H. exact H.
Qed.

(** ** Bonuses and their scaling *)


Section Scaling.

Variable tenEth : Z.
Variable IsEligibleForBonuses : MinipoolInfo.t -> bool.

Lemma minipoolBonus_value ns pct mpd mpd' b :
  minipoolBonus tenEth IsEligibleForBonuses ns pct mpd = Ok (mpd', b) ->
  default 0 (MinipoolInfo.MinipoolBonus mpd') = b /\ 0 <= b.
Proof.
  intros H. destruct (MinipoolInfo.MinipoolBonus mpd') as [b'|] eqn:Hb.
  - assert (Hne : MinipoolInfo.MinipoolBonus mpd' <> None) by congruence.
    destruct (minipoolBonus_awarded _ _ _ _ _ _ _ H Hne)
      as (mpi & fee & _ & _ & _ & _ & _ & _ & Hsome & Hpos).
    simpl. split; [congruence|exact Hpos].
  - unfold minipoolBonus in H. bind_into H as mpi Hmpi.
    destruct (IsEligibleForBonuses mpd); simpl in H;
      [|inversion H; subst; simpl; lia].
    bind_into H as fee Hfee.
    destruct (fee <=? _); [inversion H; subst; simpl; lia|].
    destruct (fourteenPercentEth <? fee); [discriminate|].
    bind_into H as income Hincome. inversion H; subst. simpl in Hb.
    discriminate.
Qed.

Lemma minipoolBonuses_sum ns pct l l' :
  mapM (minipoolBonus tenEth IsEligibleForBonuses ns pct) l = Ok l' ->
  sumZ (map (fun m => default 0 (MinipoolInfo.MinipoolBonus m)) (map fst l'))
  = sumZ (map snd l')
  /\ 0 <= sumZ (map snd l').
Proof.
  revert l'. induction l as [|m l IH]; simpl; intros l' H.
  - inversion H. unfold sumZ; simpl. lia.
  - bind_into H as mb Hm. bind_into H as rest Hrest. inversion H; subst.
    destruct mb as [m' b]. apply minipoolBonus_value in Hm.
    destruct (IH _ Hrest) as [Hs Hp]. unfold sumZ in *; simpl. lia.
Qed.

(** The bonus a node is given is the sum of the bonuses of its
    minipools, and it is not negative. *)
Lemma nodeBonuses_value ns nsd nsd' b :
  nodeBonuses tenEth IsEligibleForBonuses ns nsd = Ok (nsd', b) ->
  NodeSmoothingDetails.IsEligible nsd = true ->
  NodeSmoothingDetails.BonusEth nsd = 0 ->
  NodeSmoothingDetails.BonusEth nsd' = b
  /\ minipoolBonusSum nsd' = b
  /\ 0 <= b.
Proof.
  unfold nodeBonuses. intros H Hel Hzero. rewrite Hel in H. simpl in H.
  bind_into H as nd Hnd. bind_into H as l Hl. inversion H; subst; clear H.
  apply minipoolBonuses_sum in Hl. destruct Hl as [Hs Hp].
  unfold minipoolBonusSum; simpl. repeat split; [lia|exact Hs|exact Hp].
Qed.


Lemma scaleMinipools_inv R T l l' :
  0 < T ->
  mapM (scaleMinipool R T) l = Ok l' ->
  Forall2 (scaledBonus R T) l l'
  /\ sumZ (map (fun m => default 0 (MinipoolInfo.MinipoolBonus m)) l')
     = sumZ (map (fun b => b * R / T)
               (map (fun m => default 0 (MinipoolInfo.MinipoolBonus m)) l)).
Proof.
  intros HT. revert l'. induction l as [|m l IH]; simpl; intros l' H.
  - inversion H. split; [constructor|reflexivity].
  - bind_into H as m' Hm. bind_into H as rest Hrest. inversion H; subst.
    destruct (IH _ Hrest) as [Hf Hs].
    unfold scaleMinipool in Hm. bind_into Hm as b Hb. apply orPanic_Ok in Hb.
    bind_into Hm as b' Hb'. apply orPanic_Ok in Hb'.
    rewrite Big_Div_pos in Hb' by exact HT. inversion Hb'; subst.
    inversion Hm; subst. split.
    + constructor; [|exact Hf]. exists b. simpl. auto.
    + unfold sumZ in *; simpl. rewrite Hb. simpl. lia.
Qed.

Lemma scaleNode_inv R T nsd nsd' :
  0 < T ->
  scaleNode R T nsd = Ok nsd' ->
  NodeSmoothingDetails.BonusEth nsd'
  = NodeSmoothingDetails.BonusEth nsd * R / T
  /\ Forall2 (scaledBonus R T) (NodeSmoothingDetails.Minipools nsd)
       (NodeSmoothingDetails.Minipools nsd')
  /\ minipoolBonusSum nsd' <= minipoolBonusSum nsd * R / T.
Proof.
  intros HT H. unfold scaleNode in H. bind_into H as b Hb.
  apply orPanic_Ok in Hb. rewrite Big_Div_pos in Hb by exact HT.
  inversion Hb; subst. bind_into H as mps Hmps. inversion H; subst; simpl.
  destruct (scaleMinipools_inv _ _ _ _ HT Hmps) as [Hf Hs].
  repeat split; [exact Hf|]. unfold minipoolBonusSum; simpl. rewrite Hs.
  apply sum_of_floors_le. exact HT.
Qed.

End Scaling.

Section Insufficiency.

Variable tenEth : Z.
Variable IsEligibleForBonuses : MinipoolInfo.t -> bool.


End Insufficiency.


(** ** The sanity checks *)

Lemma calculateRplRewards_file rp r r' :
  calculateRplRewards rp r = Ok r' ->
  exists t, Gen.rewardsFile r'
            = SSZFile.withTotalRewards (Gen.rewardsFile r) t
            /\ TotalRewards.PoolStakerSmoothingPoolEth t
               = TotalRewards.PoolStakerSmoothingPoolEth (Gen.totalRewards r).
Proof.
  intros H. unfold calculateRplRewards in H.
  destruct (_ =? 0); [discriminate|].
  destruct (NetworkState.CalculateNodeWeights _) as [[w tw]|]; [|discriminate].
  simpl in H. bind_into H as rp1 Hcoll. destruct rp1 as [r1 pDao1].
  assert (Hfile1 : exists t,
            Gen.rewardsFile r1
            = SSZFile.withTotalRewards (Gen.rewardsFile r) t
            /\ TotalRewards.PoolStakerSmoothingPoolEth t
               = TotalRewards.PoolStakerSmoothingPoolEth (Gen.totalRewards r)).
  { unfold collateralRewards in Hcoll. destruct (0 <? Big.Sign tw).
    - bind_into Hcoll as r1' Hloop.
      apply foldM_sameInputs in Hloop;
        [|intros; eapply collateralStep_sameInputs; eauto].
      destruct Hloop as (_ & Hfile & _).
      destruct (Gen.epsilon r1' <? _); [discriminate|].
      inversion Hcoll; subst. unfold Gen.totalRewards. simpl.
      rewrite Hfile. simpl. eexists. split; reflexivity.
    - inversion Hcoll; subst. exists (Gen.totalRewards r1).
      split; [|reflexivity].
      destruct r1 as [? [] ? ? ? ? ? ? ? ? ? ? ? ?]. reflexivity. }
  destruct Hfile1 as (t1 & Hfile1 & Hps1).
  destruct (trueODaoNodeTimes r1) as [times tt].
  bind_into H as r2 Hloop.
  apply foldM_sameInputs in Hloop;
    [|intros; eapply odaoStep_sameInputs; eauto].
  destruct Hloop as (_ & Hfile & _).
  destruct (Gen.epsilon r2 <? _); [discriminate|].
  inversion H; subst. unfold Gen.totalRewards. simpl.
  rewrite Hfile, Hfile1. simpl. eexists. split; [reflexivity|].
  simpl. exact Hps1.
Qed.

Lemma getCheaters_networkState r1 r2 :
  Gen.networkState r1 = Gen.networkState r2 -> getCheaters r1 = getCheaters r2.
Proof. unfold getCheaters. intros ->. reflexivity. Qed.

Lemma minipoolLoop_sum ns cheaters share ts mps nds :
  foldM (minipoolStep ns cheaters share ts) mps ∅ = Ok nds ->
  sumMap NodeSmoothingDetails.SmoothingPoolEth nds
  = sumZ (ethShares share ts mps).
Proof.
  intros H.
  pose proof (foldM_measure
    (sumMap NodeSmoothingDetails.SmoothingPoolEth)
    (fun mp => default 0 (Big.Div (share * MinipoolInfo.AttestationScore mp) ts))
    (minipoolStep ns cheaters share ts) mps
    (fun s a s' Hstep => minipoolStep_sum _ _ _ _ _ _ _ Hstep) ∅ nds H) as Hm.
  rewrite sumMap_empty in Hm. unfold ethShares. lia.
Qed.

Section Checks.

Variable tenEth : Z.
Variable IsEligibleForBonuses : MinipoolInfo.t -> bool.
Variable merkleRoot : list NetworkReward.t -> list NodeReward.t -> option Z.

(** A successful smoothing pool allocation has found the base shares
    within epsilon of the node operator total. *)
Lemma calculateEthRewards_checked flag rp bc r r' mps ts cnt share :
  let balance :=
    NetworkDetails.SmoothingPoolBalance
      (NetworkState.NetworkDetails (Gen.networkState r)) in
  calculateEthRewards tenEth IsEligibleForBonuses flag rp bc r = Ok r' ->
  balance <> 0 ->
  SSZFile.Index (Gen.rewardsFile r) <> 0 ->
  RollingRecord.GetScores (Gen.rollingRecord r) (getCheaters r)
  = (mps, ts, cnt) ->
  ts <> 0 -> cnt <> 0 ->
  totalNodeOpShare balance ts cnt = Ok share ->
  Z.abs (sumZ (ethShares share ts mps) - share) <= Gen.epsilon r.
Proof.
  intros balance H Hbal Hidx Hs Hts Hcnt Hshare.
  destruct (calculateEthRewards_inv _ _ _ _ _ _ _ H Hbal Hidx)
    as (st & f & ps & no & bs & r1 & r2 & _ & _ & _ & Hnr & _).
  destruct (calculateNodeRewards_inv _ _ _ _ _ _ _ _ _ _ Hnr Hs Hts Hcnt)
    as (share' & nds0 & rb & Hshare' & Hloop & _ & Hcheck & _).
  simpl in Hshare', Hloop, Hcheck. fold balance in Hshare'.
  assert (share' = share) by congruence. subst share'.
  rewrite (minipoolLoop_sum _ _ _ _ _ _ Hloop) in Hcheck. exact Hcheck.
Qed.

Lemma generateTree_inv nodeOrder networkOrder r rp bc res :
  generateTree tenEth IsEligibleForBonuses merkleRoot nodeOrder networkOrder
    r rp bc = Ok res ->
  exists r1 r2 root,
    calculateRplRewards rp (provision r) = Ok r1
    /\ calculateEthRewards tenEth IsEligibleForBonuses true rp bc r1 = Ok r2
    /\ GenerateTreeResult.RewardsFile res
       = SSZFile.withMerkleRoot (assignLists nodeOrder networkOrder r2)
           (Some root)
    /\ GenerateTreeResult.InvalidNetworkNodes res = Gen.invalidNetworkNodes r2.
Proof.
  unfold generateTree. intros H. bind_into H as r1 Hrpl.
  bind_into H as r2 Heth.
  destruct (merkleRoot _ _) as [root|]; [|discriminate].
  inversion H; subst. exists r1, r2, root. repeat split; assumption.
Qed.

End Checks.

Section Epsilon.

Variable tenEth : Z.
Variable IsEligibleForBonuses : MinipoolInfo.t -> bool.
Variable merkleRoot : list NetworkReward.t -> list NodeReward.t -> option Z.

(** C3: the epsilon of a run is the larger of its node count and its
    minipool count.  A run of a new generator that returns a result has
    found every split it performed within epsilon: the collateral
    shares of the budget when there is node weight, the oDAO shares of
    the oDAO budget, and the base shares of the node operator total
    when the smoothing pool is allocated.  A run in which one of them
    is further off returns an error and no result. *)
Theorem splits_within_epsilon_or_abort
    (nodeOrder networkOrder : MapOrder)
    (rulesetVersion index : Z) (snapshotEnd : SnapshotEnd.t)
    (elSnapshotHeaderTime intervalsPassed : Z) (ns : NetworkState.t)
    (rr : RollingRecord.t) (rp : ExecutionClient.t) (bc : BeaconClient.t) :
  let r := newTreeGeneratorImpl_v9_v10_rolling rulesetVersion index
             snapshotEnd elSnapshotHeaderTime intervalsPassed ns rr in
  let balance :=
    NetworkDetails.SmoothingPoolBalance (NetworkState.NetworkDetails ns) in
  let run := generateTree tenEth IsEligibleForBonuses merkleRoot nodeOrder
               networkOrder r rp bc in
  errorEpsilon ns
  = Z.max (Z.of_nat (length (NetworkState.NodeDetails ns)))
          (Z.of_nat (length (NetworkState.MinipoolDetails ns)))
  /\ (forall res,
        run = Ok res ->
        (forall w tw,
            NetworkState.CalculateNodeWeights ns = Some (w, tw) ->
            0 < tw ->
            Z.abs (collateralBudget ns - sumZ (collateralShares ns))
            <= errorEpsilon ns)
        /\ Z.abs (odaoBudget ns - sumZ (odaoShares r)) <= errorEpsilon ns
        /\ (balance <> 0 -> index <> 0 ->
            forall mps ts cnt share,
              RollingRecord.GetScores rr (getCheaters r) = (mps, ts, cnt) ->
              ts <> 0 -> cnt <> 0 ->
              totalNodeOpShare balance ts cnt = Ok share ->
              Z.abs (sumZ (ethShares share ts mps) - share)
              <= errorEpsilon ns))
  /\ (collateralOff ns \/ odaoOff r \/ smoothingOff r ->
      exists e, run = Err e).
Proof.
  intros r balance run.
  assert (Hok : forall res,
        run = Ok res ->
        (forall w tw,
            NetworkState.CalculateNodeWeights ns = Some (w, tw) ->
            0 < tw ->
            Z.abs (collateralBudget ns - sumZ (collateralShares ns))
            <= errorEpsilon ns)
        /\ Z.abs (odaoBudget ns - sumZ (odaoShares r)) <= errorEpsilon ns
        /\ (balance <> 0 -> index <> 0 ->
            forall mps ts cnt share,
              RollingRecord.GetScores rr (getCheaters r) = (mps, ts, cnt) ->
              ts <> 0 -> cnt <> 0 ->
              totalNodeOpShare balance ts cnt = Ok share ->
              Z.abs (sumZ (ethShares share ts mps) - share)
              <= errorEpsilon ns)).
  { intros res Hrun.
    destruct (generateTree_inv _ _ _ _ _ _ _ _ _ Hrun)
      as (r1 & r2 & root & Hrpl & Heth & _).
    pose proof (calculateRplRewards_file _ _ _ Hrpl) as (t & Hfile & _).
    apply calculateRplRewards_sums in Hrpl.
    destruct Hrpl as (Hsame & _ & _ & _ & Hcoll & Hodao).
    destruct Hsame as (Hns & _ & _ & _ & Hrr & _ & Heps & _).
    simpl in Hns, Hrr, Heps, Hcoll, Hodao, Hfile.
    rewrite !sumMap_empty in *. split; [|split].
    - intros w tw Hw Htw. specialize (Hcoll w tw Hw Htw).
      rewrite Z.add_0_l in Hcoll. exact Hcoll.
    - rewrite Z.add_0_l in Hodao. exact Hodao.
    - intros Hbal Hidx mps ts cnt share Hs Hts Hcnt Hshare.
      rewrite <- Heps.
      apply (calculateEthRewards_checked tenEth IsEligibleForBonuses true
               rp bc r1 r2 mps ts cnt share Heth).
      + rewrite Hns. exact Hbal.
      + rewrite Hfile. exact Hidx.
      + rewrite Hrr, (getCheaters_networkState r1 r) by exact Hns. exact Hs.
      + exact Hts.
      + exact Hcnt.
      + rewrite Hns. exact Hshare. }
  split; [|split; [exact Hok|]].
  - unfold errorEpsilon.
    destruct (Z.ltb_spec (Z.of_nat (length (NetworkState.MinipoolDetails ns)))
                (Z.of_nat (length (NetworkState.NodeDetails ns)))); lia.
  - intros Hoff. destruct (result_cases run) as [[res Hrun]|[e Hrun]];
      [exfalso|eauto].
    destruct (Hok res Hrun) as (Hcoll & Hodao & Hsmooth).
    destruct Hoff as [(w & tw & Hw & Htw & Hlt)|[Hlt|Hoff]].
    + specialize (Hcoll w tw Hw Htw). lia.
    + unfold odaoOff in Hlt. simpl in Hlt. lia.
    + destruct Hoff as (Hbal & Hidx & mps & ts & cnt & share & Hs & Hts
                        & Hcnt & Hshare & Hlt).
      simpl in Hbal, Hidx, Hs, Hshare, Hlt.
      specialize (Hsmooth Hbal Hidx mps ts cnt share Hs Hts Hcnt Hshare).
      lia.
Qed.

End Epsilon.

Lemma splits_within_epsilon_or_abort_witness :
  let ns := Fixtures.twoNodes 1000000 in
  (Z.abs (collateralBudget ns - sumZ (collateralShares ns)) <= errorEpsilon ns
   /\ Z.abs (odaoBudget ns - sumZ (odaoShares (Fixtures.generator 10 ns)))
      <= errorEpsilon ns
   /\ Z.abs (sumZ (ethShares 100000 (10 ^ 17) [Fixtures.info101]) - 100000)
      <= errorEpsilon ns)
  /\ exists e, Fixtures.run Fixtures.inOrder 10 Fixtures.skewed = Err e.
Proof.
  intros ns. split.
  - assert (Hrun : Fixtures.run Fixtures.inOrder 10 ns = Ok Fixtures.fullResult)
      by (vm_compute; reflexivity).
    destruct (proj1 (proj2 (splits_within_epsilon_or_abort Fixtures.tenEth
                Fixtures.eligible Fixtures.positional Fixtures.inOrder
                Fixtures.inOrder 10 5 Fixtures.snapshotEnd 1000 1 ns
                Fixtures.record Fixtures.rp Fixtures.bc))
              Fixtures.fullResult Hrun) as (Hcoll & Hodao & Hsmooth).
    split; [|split].
    + apply (Hcoll (list_to_map [(1, 1); (2, 2)]) 3); [reflexivity|lia].
    + exact Hodao.
    + apply (Hsmooth ltac:(vm_compute; discriminate) ltac:(discriminate)
               [Fixtures.info101] (10 ^ 17) 1 100000).
      * vm_compute. reflexivity.
      * vm_compute. discriminate.
      * discriminate.
      * vm_compute. reflexivity.
  - apply (proj2 (proj2 (splits_within_epsilon_or_abort Fixtures.tenEth
                Fixtures.eligible Fixtures.positional Fixtures.inOrder
                Fixtures.inOrder 10 5 Fixtures.snapshotEnd 1000 1
                Fixtures.skewed Fixtures.record Fixtures.rp Fixtures.bc))).
    left. exists (list_to_map [(1, 1)]), 3.
    split; [reflexivity|]. split; [lia|]. vm_compute. reflexivity.
Defined.

(** ** The approximation of the pool stakers' share *)

Section Approximation.

Variable tenEth : Z.
Variable IsEligibleForBonuses : MinipoolInfo.t -> bool.

Lemma calculateNodeBonuses_sameCore r s total r' :
  Gen.networkState s = Gen.networkState r ->
  Gen.nodeDetails s = Gen.nodeDetails r ->
  calculateNodeBonuses tenEth IsEligibleForBonuses r = Ok (total, r') ->
  calculateNodeBonuses tenEth IsEligibleForBonuses s
  = Ok (total, Gen.withNodeDetails s (Gen.nodeDetails r')).
Proof.
  unfold calculateNodeBonuses. intros Hns Hnd H. rewrite Hns, Hnd.
  bind_into H as m Hm. rewrite Hm. simpl. inversion H; subst. reflexivity.
Qed.

Lemma bonuses_sameCore r s totalEth scalar r' scalar' :
  sameCore r s ->
  bonuses tenEth IsEligibleForBonuses r totalEth scalar = Ok (r', scalar') ->
  bonuses tenEth IsEligibleForBonuses s totalEth scalar
  = Ok (Gen.withNodeDetails s (Gen.nodeDetails r'), scalar').
Proof.
  intros (Hns & Hrr & Hbal & Heps & Hver & Hnd) H. unfold bonuses in *.
  rewrite Hver. destruct (10 <=? getRulesetVersion r).
  - bind_into H as tr Htr. destruct tr as [total r1].
    pose proof (calculateNodeBonuses_nodes _ _ _ _ _ Htr) as [Hr1 _].
    rewrite (calculateNodeBonuses_sameCore r s total r1 Hns Hnd Htr).
    simpl. rewrite Hbal.
    assert (Hbal1 : Gen.smoothingPoolBalance r1 = Gen.smoothingPoolBalance r)
      by (rewrite Hr1; reflexivity).
    rewrite Hbal1 in H. destruct (_ <? total).
    + bind_into H as sc Hsc. rewrite Hsc. simpl.
      bind_into H as nds Hnds. rewrite Hnds. simpl.
      inversion H; subst. reflexivity.
    + inversion H; subst. reflexivity.
  - inversion H; subst. rewrite <- Hnd. destruct s; reflexivity.
Qed.

(** [calculateNodeRewards] computes the same amounts and the same node
    records from generators that agree on what it reads. *)
Lemma calculateNodeRewards_sameCore r s ps no bs r' :
  sameCore r s ->
  calculateNodeRewards tenEth IsEligibleForBonuses r = Ok (ps, no, bs, r') ->
  calculateNodeRewards tenEth IsEligibleForBonuses s
  = Ok (ps, no, bs, Gen.withNodeDetails s (Gen.nodeDetails r')).
Proof.
  intros Hcore H. pose proof Hcore as (Hns & Hrr & Hbal & Heps & Hver & Hnd).
  unfold calculateNodeRewards in *.
  rewrite Hrr, (getCheaters_networkState s r Hns), Hbal, Hns.
  destruct (RollingRecord.GetScores _ _) as [[mps ts] cnt].
  destruct ((ts =? 0) || (cnt =? 0)).
  - inversion H; subst. rewrite <- Hnd. destruct s; reflexivity.
  - bind_into H as share Hshare. rewrite Hshare. simpl.
    bind_into H as nds0 Hloop. rewrite Hloop. simpl.
    bind_into H as rb Hb. destruct rb as [r1 bs1].
    assert (Hcore0 : sameCore (Gen.withNodeDetails r nds0)
                       (Gen.withNodeDetails s nds0))
      by (unfold sameCore; simpl; tauto).
    simpl in Hb.
    rewrite (bonuses_sameCore _ _ _ _ _ _ Hcore0 Hb). simpl.
    pose proof (bonuses_nodes _ _ _ _ _ _ _ Hb) as [Hr1 _].
    assert (Heps1 : Gen.epsilon r1 = Gen.epsilon r)
      by (rewrite Hr1; reflexivity).
    assert (Hver1 : getRulesetVersion r1 = getRulesetVersion r)
      by (rewrite Hr1; reflexivity).
    assert (Hbal1 : Gen.smoothingPoolBalance r1 = Gen.smoothingPoolBalance r)
      by (rewrite Hr1; reflexivity).
    rewrite Heps1, Hver1 in H. simpl in H.
    replace (getRulesetVersion (Gen.withNodeDetails
               (Gen.withNodeDetails s nds0) (Gen.nodeDetails r1)))
      with (getRulesetVersion r) by (symmetry; exact Hver).
    rewrite Heps. destruct (Gen.epsilon r <? _); [discriminate|].
    destruct (10 <=? getRulesetVersion r); simpl in *;
      rewrite ?Hbal1 in H; rewrite Hbal; inversion H; subst; reflexivity.
Qed.

End Approximation.

(** ** Network validation *)

Lemma foldM_invariant_elem {A S : Type} (P : S -> Prop)
    (f : S -> A -> result S) (l : list A) :
  (forall s a s', a ∈ l -> P s -> f s a = Ok s' -> P s') ->
  forall s s', P s -> foldM f l s = Ok s' -> P s'.
Proof.
  induction l as [|a l IH]; simpl; intros Hstep s s' Hs H.
  - congruence.
  - bind_into H as s1 Hs1. apply (IH (fun s0 a0 s0' Hin => Hstep s0 a0 s0'
      (proj2 (elem_of_cons l a0 a) (or_intror Hin))) s1 s'); [|exact H].
    apply (Hstep s a s1); [left|exact Hs|exact Hs1].
Qed.

Lemma validateNetwork_answerable rp r network valid r' :
  cacheGood rp r ->
  validateNetwork rp r network = Ok (valid, r') ->
  answerable rp network /\ cacheGood rp r'
  /\ Gen.nodeRewards r' = Gen.nodeRewards r.
Proof.
  unfold validateNetwork. intros Hgood H.
  destruct (Gen.validNetworkCache r !! network) as [v|] eqn:Hc.
  - inversion H; subst. split; [apply Hgood; rewrite Hc; eauto|]. auto.
  - destruct (ExecutionClient.GetNetworkEnabled rp _) as [v|] eqn:Hq;
      [|discriminate].
    inversion H; subst; clear H.
    assert (Ha : answerable rp network) by (right; congruence).
    split; [exact Ha|]. split; [|reflexivity].
    intros net Hnet. simpl in Hnet. rewrite lookup_insert in Hnet.
    destruct (decide (network = net)) as [<-|Hne]; [exact Ha|auto].
Qed.

Lemma validateNetwork_succeeds rp r network :
  is_Some (Gen.validNetworkCache r !! 0) ->
  answerable rp network ->
  exists valid r',
    validateNetwork rp r network = Ok (valid, r')
    /\ is_Some (Gen.validNetworkCache r' !! 0)
    /\ sameInputs r r'.
Proof.
  unfold validateNetwork. intros H0 Ha.
  destruct (Gen.validNetworkCache r !! network) as [v|] eqn:Hc.
  - exists v, r. auto using sameInputs_refl.
  - destruct Ha as [->|Ha]; [rewrite Hc in H0; destruct H0; discriminate|].
    destruct (ExecutionClient.GetNetworkEnabled rp _) as [v|];
      [|congruence].
    eexists _, _. split; [reflexivity|]. split.
    + simpl. rewrite lookup_insert. destruct (decide _); eauto.
    + unfold sameInputs; simpl; tauto.
Qed.

Lemma rewardsForNode_validated rp r address network n r' :
  cacheGood rp r ->
  rewardsForNode rp r address network = Ok (n, r') ->
  cacheGood rp r'
  /\ (forall b, is_Some (Gen.nodeRewards r' !! b)
                <-> b = address \/ is_Some (Gen.nodeRewards r !! b))
  /\ (Gen.nodeRewards r !! address = None ->
      exists nv, network = Ok nv /\ answerable rp nv).
Proof.
  unfold rewardsForNode. intros Hgood H.
  destruct (Gen.nodeRewards r !! address) as [n0|] eqn:Hk.
  - inversion H; subst. split; [exact Hgood|]. split; [|discriminate].
    intros b. split; [auto|]. intros [->|Hb]; [rewrite Hk; eauto|exact Hb].
  - bind_into H as nv Hnv. bind_into H as vr Hv. destruct vr as [valid r1].
    destruct (validateNetwork_answerable _ _ _ _ _ Hgood Hv)
      as (Ha & Hgood1 & Hnr).
    inversion H; subst; clear H. split; [|split].
    + destruct valid; exact Hgood1.
    + intros b. destruct valid; simpl; rewrite lookup_insert, Hnr;
        destruct (decide (address = b)) as [->|Hne]; split; eauto;
        intros [Hb|Hb]; congruence || exact Hb.
    + intros _. exists nv. split; [first [reflexivity|assumption]|exact Ha].
Qed.

Lemma rewardsForNode_succeeds rp r address network :
  is_Some (Gen.validNetworkCache r !! 0) ->
  (Gen.nodeRewards r !! address = None ->
   exists nv, network = Ok nv /\ answerable rp nv) ->
  exists n r',
    rewardsForNode rp r address network = Ok (n, r')
    /\ is_Some (Gen.validNetworkCache r' !! 0)
    /\ sameInputs r r'.
Proof.
  unfold rewardsForNode. intros H0 Hnet.
  destruct (Gen.nodeRewards r !! address) as [n0|] eqn:Hk.
  - exists n0, r. auto using sameInputs_refl.
  - destruct (Hnet eq_refl) as (nv & -> & Ha). simpl.
    destruct (validateNetwork_succeeds rp r nv H0 Ha)
      as (valid & r1 & Hv & H01 & Hsame).
    rewrite Hv. simpl. eexists _, _. split; [reflexivity|].
    split.
    + destruct valid; exact H01.
    + eapply sameInputs_trans; [exact Hsame|].
      destruct valid; unfold sameInputs; simpl; tauto.
Qed.

Lemma entriesValidated_update rp r r' :
  Gen.networkState r' = Gen.networkState r ->
  (forall b, is_Some (Gen.nodeRewards r' !! b)
             -> is_Some (Gen.nodeRewards r !! b)) ->
  entriesValidated rp r -> entriesValidated rp r'.
Proof.
  intros Hns Hdom Hv address nnd Hin Hnnd. rewrite Hns in Hnnd. eauto.
Qed.

Lemma collateralStep_validated rp w total tw r nd r' :
  indexedByAddress (Gen.networkState r) ->
  nd ∈ NetworkState.NodeDetails (Gen.networkState r) ->
  cacheGood rp r /\ entriesValidated rp r ->
  collateralStep rp w total tw r nd = Ok r' ->
  cacheGood rp r' /\ entriesValidated rp r'.
Proof.
  intros Hidx Hnd [Hgood Hval] H.
  pose proof (collateralStep_sameInputs _ _ _ _ _ _ _ H) as (Hns & _).
  unfold collateralStep in H. bind_into H as nw Hnw. bind_into H as x Hx.
  destruct (Big.Sign x =? 1); [|inversion H; subst; auto].
  bind_into H as nr Hn. destruct nr as [n r1].
  destruct (rewardsForNode_validated _ _ _ _ _ _ Hgood Hn)
    as (Hgood1 & Hdom & Hnew).
  inversion H; subst; clear H. split; [exact Hgood1|].
  intros address nnd Hin Hnnd. simpl in Hin, Hnnd.
  rewrite lookup_insert in Hin.
  assert (Hin1 : is_Some (Gen.nodeRewards r1 !! address)).
  { destruct (decide (NodeDetails.NodeAddress nd = address)) as [<-|Hne];
      [apply Hdom; auto|exact Hin]. }
  apply Hdom in Hin1. simpl in Hns. rewrite Hns in Hnnd.
  destruct Hin1 as [->|Hold]; [|eauto].
  destruct (Gen.nodeRewards r !! NodeDetails.NodeAddress nd) eqn:Hk;
    [apply (Hval (NodeDetails.NodeAddress nd) nnd);
       [rewrite Hk; eauto|exact Hnnd]|].
  destruct (Hnew eq_refl) as (nv & Hnv & Ha). inversion Hnv; subst.
  rewrite (Hidx nd nnd Hnd Hnnd). exact Ha.
Qed.

Lemma odaoStep_validated rp times total tt r d r' :
  cacheGood rp r /\ entriesValidated rp r ->
  odaoStep rp times total tt r d = Ok r' ->
  cacheGood rp r' /\ entriesValidated rp r'.
Proof.
  intros [Hgood Hval] H.
  pose proof (odaoStep_sameInputs _ _ _ _ _ _ _ H) as (Hns & _).
  unfold odaoStep in H. bind_into H as x Hx.
  bind_into H as nr Hn. destruct nr as [n r1].
  destruct (rewardsForNode_validated _ _ _ _ _ _ Hgood Hn)
    as (Hgood1 & Hdom & Hnew).
  inversion H; subst; clear H. split; [exact Hgood1|].
  intros address nnd Hin Hnnd. simpl in Hin, Hnnd.
  rewrite lookup_insert in Hin.
  assert (Hin1 : is_Some (Gen.nodeRewards r1 !! address)).
  { destruct (decide (OracleDaoMember.Address d = address)) as [<-|Hne];
      [apply Hdom; auto|exact Hin]. }
  apply Hdom in Hin1. simpl in Hns. rewrite Hns in Hnnd.
  destruct Hin1 as [->|Hold]; [|eauto].
  destruct (Gen.nodeRewards r !! OracleDaoMember.Address d) eqn:Hk;
    [apply (Hval (OracleDaoMember.Address d) nnd);
       [rewrite Hk; eauto|exact Hnnd]|].
  destruct (Hnew eq_refl) as (nv & Hnv & Ha).
  rewrite Hnnd in Hnv. simpl in Hnv. inversion Hnv; subst. exact Ha.
Qed.

(** The RPL allocation keeps the cache and the entries validated. *)
Lemma calculateRplRewards_validated rp r r' :
  indexedByAddress (Gen.networkState r) ->
  cacheGood rp r /\ entriesValidated rp r ->
  calculateRplRewards rp r = Ok r' ->
  cacheGood rp r' /\ entriesValidated rp r'.
Proof.
  intros Hidx Hinv H. unfold calculateRplRewards in H.
  destruct (_ =? 0); [discriminate|].
  destruct (NetworkState.CalculateNodeWeights _) as [[w tw]|]; [|discriminate].
  simpl in H. bind_into H as rp1 Hcoll. destruct rp1 as [r1 pDao1].
  assert (Hinv1 : (cacheGood rp r1 /\ entriesValidated rp r1)
                  /\ Gen.networkState r1 = Gen.networkState r).
  { unfold collateralRewards in Hcoll. destruct (0 <? Big.Sign tw).
    - bind_into Hcoll as r1' Hloop.
      destruct (Gen.epsilon r1' <? _); [discriminate|].
      inversion Hcoll; subst; clear Hcoll.
      pose proof (foldM_sameInputs _ _
        (fun s a s' => collateralStep_sameInputs rp w _ tw s a s') _ _ Hloop)
        as (Hns & _). simpl in Hns.
      split; [|exact Hns].
      apply (foldM_invariant_elem
               (fun s => (cacheGood rp s /\ entriesValidated rp s)
                         /\ Gen.networkState s = Gen.networkState r)
               _ _) in Hloop.
      + destruct Hloop as [[Hg Hv] Hns1]. split; [exact Hg|].
        intros a nnd Hin Hnnd. exact (Hv a nnd Hin Hnnd).
      + intros s nd s' Hnd [Hs Hnss] Hstep. split.
        * eapply (collateralStep_validated rp w _ tw s nd s');
            [rewrite Hnss; exact Hidx|rewrite Hnss; exact Hnd|exact Hs
            |exact Hstep].
        * apply collateralStep_sameInputs in Hstep.
          destruct Hstep as (Hn & _). congruence.
      + split; [|reflexivity]. destruct Hinv as [Hg Hv]. split; [exact Hg|].
        intros a nnd Hin Hnnd. exact (Hv a nnd Hin Hnnd).
    - inversion Hcoll; subst. auto. }
  destruct Hinv1 as [Hinv1 Hns1].
  destruct (trueODaoNodeTimes r1) as [times tt].
  bind_into H as r2 Hloop.
  destruct (Gen.epsilon r2 <? _); [discriminate|].
  inversion H; subst; clear H.
  apply (foldM_invariant (fun s => cacheGood rp s /\ entriesValidated rp s)
           _ _) in Hloop.
  - destruct Hloop as [Hg Hv]. split; [exact Hg|].
    intros a nnd Hin Hnnd. exact (Hv a nnd Hin Hnnd).
  - intros s d s' Hs Hstep. eapply odaoStep_validated; eauto.
  - exact Hinv1.
Qed.

Lemma ethStep_validated rp r entry r' :
  cacheGood rp r ->
  ethStep rp r entry = Ok r' ->
  cacheGood rp r'
  /\ (forall b, is_Some (Gen.nodeRewards r' !! b) ->
                b = entry.1 \/ is_Some (Gen.nodeRewards r !! b))
  /\ (0 < NodeSmoothingDetails.SmoothingPoolEth entry.2 ->
      Gen.nodeRewards r !! entry.1 = None ->
      answerable rp (NodeSmoothingDetails.RewardsNetwork entry.2)).
Proof.
  unfold ethStep. intros Hgood H.
  destruct (Z.ltb_spec 0 (NodeSmoothingDetails.SmoothingPoolEth entry.2)).
  - bind_into H as nr Hn. destruct nr as [n r1].
    destruct (rewardsForNode_validated _ _ _ _ _ _ Hgood Hn)
      as (Hgood1 & Hdom & Hnew).
    inversion H; subst; clear H. split; [exact Hgood1|]. split.
    + intros b Hb. simpl in Hb. rewrite lookup_insert in Hb.
      destruct (decide (entry.1 = b)) as [<-|Hne]; [auto|].
      apply Hdom in Hb. exact Hb.
    + intros _ Hk. destruct (Hnew Hk) as (nv & Hnv & Ha).
      inversion Hnv; subst. exact Ha.
  - inversion H; subst. split; [exact Hgood|]. split; [auto|lia].
Qed.

(** Every node the full run pays smoothing pool ETH has a reward
    network the client answers for. *)
Lemma ethLoop_answerable rp l :
  forall r r',
    NoDup l.*1 ->
    cacheGood rp r ->
    (forall entry, entry ∈ l ->
       0 < NodeSmoothingDetails.SmoothingPoolEth entry.2 ->
       is_Some (Gen.nodeRewards r !! entry.1) ->
       answerable rp (NodeSmoothingDetails.RewardsNetwork entry.2)) ->
    foldM (ethStep rp) l r = Ok r' ->
    forall entry, entry ∈ l ->
      0 < NodeSmoothingDetails.SmoothingPoolEth entry.2 ->
      answerable rp (NodeSmoothingDetails.RewardsNetwork entry.2).
Proof.
  induction l as [|e l IH]; simpl; intros r r' Hnodup Hgood Hold H entry Hin.
  - inversion Hin.
  - bind_into H as r1 Hstep. inversion Hnodup as [|k ks Hnotin Hnodup']; subst.
    destruct (ethStep_validated _ _ _ _ Hgood Hstep) as (Hgood1 & Hdom & Hnew).
    apply elem_of_cons in Hin. destruct Hin as [->|Hin].
    + intros Hpos.
      destruct (Gen.nodeRewards r !! e.1) eqn:Hk.
      * apply Hold; [left|exact Hpos|first [rewrite Hk; eauto|eauto]].
      * exact (Hnew Hpos eq_refl).
    + apply (IH r1 r' Hnodup' Hgood1); [|exact H|exact Hin].
      intros entry' Hin' Hpos' Hsome. apply Hdom in Hsome.
      destruct Hsome as [He|Hsome].
      * exfalso. apply Hnotin. rewrite <- He.
        apply list_elem_of_fmap. exists entry'. auto.
      * apply Hold; [by right|exact Hpos'|exact Hsome].
Qed.

(** The last loop of [calculateEthRewards] returns when every node it
    pays has an answerable reward network. *)
Lemma ethLoop_succeeds rp l :
  forall r,
    is_Some (Gen.validNetworkCache r !! 0) ->
    (forall entry, entry ∈ l ->
       0 < NodeSmoothingDetails.SmoothingPoolEth entry.2 ->
       answerable rp (NodeSmoothingDetails.RewardsNetwork entry.2)) ->
    exists r', foldM (ethStep rp) l r = Ok r' /\ sameInputs r r'.
Proof.
  induction l as [|e l IH]; simpl; intros r H0 Hans.
  - exists r. auto using sameInputs_refl.
  - assert (Hstep : exists r1, ethStep rp r e = Ok r1
                      /\ is_Some (Gen.validNetworkCache r1 !! 0)
                      /\ sameInputs r r1).
    { unfold ethStep.
      destruct (Z.ltb_spec 0 (NodeSmoothingDetails.SmoothingPoolEth e.2)).
      - destruct (rewardsForNode_succeeds rp r e.1
                    (Ok (NodeSmoothingDetails.RewardsNetwork e.2)) H0)
          as (n & r1 & Hn & H01 & Hsame).
        + intros _. eexists. split; [reflexivity|]. apply Hans; [left|lia].
        + rewrite Hn. simpl. eexists. split; [reflexivity|].
          split; [exact H01|].
          eapply sameInputs_trans; [exact Hsame|].
          unfold sameInputs; simpl; tauto.
      - exists r. auto using sameInputs_refl. }
    destruct Hstep as (r1 & Hr1 & H01 & Hsame1). rewrite Hr1. simpl.
    destruct (IH r1 H01) as (r' & Hr' & Hsame').
    + intros entry Hin. apply Hans. by right.
    + exists r'. split; [exact Hr'|]. eapply sameInputs_trans; eauto.
Qed.

Lemma minipoolStep_networks ns cheaters share ts nds mp nds' :
  minipoolStep ns cheaters share ts nds mp = Ok nds' ->
  networksFromIndex ns nds -> networksFromIndex ns nds'.
Proof.
  unfold minipoolStep. intros H Hinv.
  bind_into H as nodeInfo Hinfo. bind_into H as nmd Hnmd.
  bind_into H as q Hq. inversion H; subst; clear H.
  intros address nsd Hk. rewrite lookup_insert in Hk.
  destruct (decide (MinipoolInfo.NodeAddress mp = address)) as [<-|Hne];
    [|eauto].
  inversion Hk; subst; clear Hk. simpl.
  destruct (nds !! MinipoolInfo.NodeAddress mp) as [ni|] eqn:Hold.
  - inversion Hinfo; subst. eauto.
  - bind_into Hinfo as nnd Hnnd. apply orPanic_Ok in Hnnd.
    inversion Hinfo; subst; simpl. eauto.
Qed.

Lemma sameNodes_networks ns a b :
  sameNodes a b -> networksFromIndex ns a -> networksFromIndex ns b.
Proof.
  intros Hab Ha address nsd Hk. specialize (Hab address). rewrite Hk in Hab.
  inversion Hab as [n0 n1 (_ & _ & Hnet & _) Hn0|]; subst.
  destruct (Ha address n0 ltac:(congruence)) as (nnd & Hnnd & Hn).
  exists nnd. split; [exact Hnnd|congruence].
Qed.

Lemma getBlocksAndTimesForInterval_same rp bc r s startTime r' :
  Gen.rollingRecord s = Gen.rollingRecord r ->
  Gen.snapshotEnd s = Gen.snapshotEnd r ->
  getBlocksAndTimesForInterval rp bc r = Ok (startTime, r') ->
  exists f,
    getBlocksAndTimesForInterval rp bc s
    = Ok (startTime, Gen.withRewardsFile s f)
    /\ SSZFile.RulesetVersion f = getRulesetVersion s
    /\ SSZFile.TotalRewards f = Gen.totalRewards s.
Proof.
  unfold getBlocksAndTimesForInterval. intros Hrr Hse H. rewrite Hrr, Hse.
  destruct (BeaconClient.GetBeaconBlock bc _) as [[el|]|]; try discriminate.
  destruct (ExecutionClient.HeaderByNumber rp _); [|discriminate].
  inversion H; subst. eexists. split; [reflexivity|]. split; reflexivity.
Qed.

Section ApproximationRun.

Variable tenEth : Z.
Variable IsEligibleForBonuses : MinipoolInfo.t -> bool.
Variable merkleRoot : list NetworkReward.t -> list NodeReward.t -> option Z.

Lemma calculateEthRewards_skips flag rp bc g :
  NetworkDetails.SmoothingPoolBalance
    (NetworkState.NetworkDetails (Gen.networkState g)) = 0
  \/ SSZFile.Index (Gen.rewardsFile g) = 0 ->
  calculateEthRewards tenEth IsEligibleForBonuses flag rp bc g
  = Ok (Gen.withSmoothingPoolBalance g
          (NetworkDetails.SmoothingPoolBalance
             (NetworkState.NetworkDetails (Gen.networkState g)))).
Proof.
  intros H. unfold calculateEthRewards. simpl.
  destruct H as [H|H]; rewrite H; simpl; [reflexivity|].
  destruct (_ =? 0); reflexivity.
Qed.

Lemma calculateNodeRewards_only_nodes r ps no bs r' :
  calculateNodeRewards tenEth IsEligibleForBonuses r = Ok (ps, no, bs, r') ->
  r' = Gen.withNodeDetails r (Gen.nodeDetails r').
Proof.
  intros H.
  assert (Hcore : sameCore r r) by (unfold sameCore; tauto).
  pose proof (calculateNodeRewards_sameCore _ _ _ _ _ _ _ _ Hcore H) as H'.
  rewrite H in H'. inversion H'. congruence.
Qed.

Lemma calculateNodeRewards_networks r ps no bs r' :
  calculateNodeRewards tenEth IsEligibleForBonuses r = Ok (ps, no, bs, r') ->
  networksFromIndex (Gen.networkState r) (Gen.nodeDetails r) ->
  networksFromIndex (Gen.networkState r) (Gen.nodeDetails r').
Proof.
  intros H Hinv.
  destruct (RollingRecord.GetScores (Gen.rollingRecord r) (getCheaters r))
    as [[mps ts] cnt] eqn:Hs.
  destruct (Z.eqb_spec ts 0) as [Hts|Hts];
    [|destruct (Z.eqb_spec cnt 0) as [Hcnt|Hcnt]].
  - unfold calculateNodeRewards in H. rewrite Hs in H. subst ts. simpl in H.
    inversion H; subst. exact Hinv.
  - unfold calculateNodeRewards in H. rewrite Hs in H. subst cnt.
    rewrite orb_true_r in H. inversion H; subst. exact Hinv.
  - destruct (calculateNodeRewards_nodes _ _ _ _ _ _ _ _ _ _ H Hs Hts Hcnt)
      as (share & nds0 & _ & Hloop & Hsame).
    apply (sameNodes_networks _ _ _ Hsame).
    apply (foldM_invariant (networksFromIndex (Gen.networkState r))
             (minipoolStep (Gen.networkState r) (getCheaters r) share ts) mps)
      with (s := ∅); [| |exact Hloop].
    + intros s a s' Hs0 Hstep.
      exact (minipoolStep_networks _ _ _ _ _ _ _ Hstep Hs0).
    + intros address nsd Hk. rewrite lookup_empty in Hk. discriminate.
Qed.

(** The run of [calculateEthRewards] put together from its steps. *)
Lemma calculateEthRewards_run flag rp bc g st f ps no bs g1 g2 :
  let balance :=
    NetworkDetails.SmoothingPoolBalance
      (NetworkState.NetworkDetails (Gen.networkState g)) in
  balance <> 0 ->
  SSZFile.Index (Gen.rewardsFile g) <> 0 ->
  getBlocksAndTimesForInterval rp bc (Gen.withSmoothingPoolBalance g balance)
  = Ok (st, Gen.withRewardsFile (Gen.withSmoothingPoolBalance g balance) f) ->
  calculateNodeRewards tenEth IsEligibleForBonuses (atNodeRewards g f st)
  = Ok (ps, no, bs, g1) ->
  foldM (ethStep rp) (map_to_list (Gen.nodeDetails g1)) (withScalar g1 bs)
  = Ok g2 ->
  calculateEthRewards tenEth IsEligibleForBonuses flag rp bc g
  = Ok (Gen.withTotalRewards g2
          (TotalRewards.withSmoothingPool (Gen.totalRewards g2) ps no
             (Gen.smoothingPoolBalance g2))).
Proof.
  intros balance Hbal Hidx Hblocks Hnr Hloop.
  unfold calculateEthRewards. simpl. fold balance.
  replace (balance =? 0) with false by (symmetry; apply Z.eqb_neq; exact Hbal).
  replace (_ =? 0) with false by (symmetry; apply Z.eqb_neq; exact Hidx).
  rewrite Hblocks. simpl. unfold atNodeRewards in Hnr. fold balance in Hnr.
  simpl in Hnr. rewrite Hnr. unfold bind at 1. cbv beta iota.
  fold (withScalar g1 bs).
  replace (Gen.nodeDetails (withScalar g1 bs)) with (Gen.nodeDetails g1)
    by (unfold withScalar; destruct (10 <=? _); reflexivity).
  rewrite Hloop. reflexivity.
Qed.

(** From a full allocation on one generator to the allocation on
    another that agrees with it on the inputs: the second returns too,
    with the same pool staker amount. *)
Lemma calculateEthRewards_transfer flag rp bc F A r' :
  Gen.networkState A = Gen.networkState F ->
  Gen.rollingRecord A = Gen.rollingRecord F ->
  Gen.snapshotEnd A = Gen.snapshotEnd F ->
  Gen.epsilon A = Gen.epsilon F ->
  getRulesetVersion A = getRulesetVersion F ->
  SSZFile.Index (Gen.rewardsFile A) = SSZFile.Index (Gen.rewardsFile F) ->
  Gen.nodeDetails A = Gen.nodeDetails F ->
  TotalRewards.PoolStakerSmoothingPoolEth (Gen.totalRewards A)
  = TotalRewards.PoolStakerSmoothingPoolEth (Gen.totalRewards F) ->
  is_Some (Gen.validNetworkCache A !! 0) ->
  cacheGood rp F ->
  entriesValidated rp F ->
  networksFromIndex (Gen.networkState F) (Gen.nodeDetails F) ->
  calculateEthRewards tenEth IsEligibleForBonuses true rp bc F = Ok r' ->
  exists a',
    calculateEthRewards tenEth IsEligibleForBonuses flag rp bc A = Ok a'
    /\ TotalRewards.PoolStakerSmoothingPoolEth (Gen.totalRewards a')
       = TotalRewards.PoolStakerSmoothingPoolEth (Gen.totalRewards r').
Proof.
  intros Hns Hrr Hse Heps Hver Hidx Hnd Hps H0 Hgood Hval Hnets Heth.
  set (balance := NetworkDetails.SmoothingPoolBalance
                    (NetworkState.NetworkDetails (Gen.networkState F))).
  destruct (Z.eq_dec balance 0) as [Hb0|Hb0];
    [|destruct (Z.eq_dec (SSZFile.Index (Gen.rewardsFile F)) 0) as [Hi0|Hi0]].
  - rewrite calculateEthRewards_skips in Heth by (left; exact Hb0).
    rewrite calculateEthRewards_skips by (left; rewrite Hns; exact Hb0).
    eexists. split; [reflexivity|]. inversion Heth; subst. exact Hps.
  - rewrite calculateEthRewards_skips in Heth by (right; exact Hi0).
    rewrite calculateEthRewards_skips by (right; rewrite Hidx; exact Hi0).
    eexists. split; [reflexivity|]. inversion Heth; subst. exact Hps.
  - destruct (calculateEthRewards_inv _ _ _ _ _ _ _ Heth Hb0 Hi0)
      as (st & f & ps & no & bs & rF1 & rF2 & Hblocks & _ & HverF & Hnr
          & Hloop & Hr').
    fold balance in Hblocks.
    assert (HrrA : Gen.rollingRecord (Gen.withSmoothingPoolBalance A balance)
                   = Gen.rollingRecord (Gen.withSmoothingPoolBalance F balance))
      by exact Hrr.
    assert (HseA : Gen.snapshotEnd (Gen.withSmoothingPoolBalance A balance)
                   = Gen.snapshotEnd (Gen.withSmoothingPoolBalance F balance))
      by exact Hse.
    destruct (getBlocksAndTimesForInterval_same rp bc
                (Gen.withSmoothingPoolBalance F balance)
                (Gen.withSmoothingPoolBalance A balance) st _
                HrrA HseA Hblocks)
      as (fA & HblocksA & HverA & _).
    assert (Hcore : sameCore (atNodeRewards F f st) (atNodeRewards A fA st)).
    { unfold sameCore, atNodeRewards, getRulesetVersion. simpl.
      rewrite Hns. repeat split; try assumption.
      rewrite HverA, HverF. exact Hver. }
    pose proof (calculateNodeRewards_sameCore _ _ _ _ _ _ _ _ Hcore Hnr)
      as HnrA.
    pose proof (calculateNodeRewards_only_nodes _ _ _ _ _ Hnr) as HrF1.
    pose proof (calculateNodeRewards_networks _ _ _ _ _ Hnr Hnets) as Hnets'.
    change (Gen.networkState (atNodeRewards F f st))
      with (Gen.networkState F) in Hnets'.
    assert (Hans : forall entry,
              entry ∈ map_to_list (Gen.nodeDetails rF1) ->
              0 < NodeSmoothingDetails.SmoothingPoolEth entry.2 ->
              answerable rp (NodeSmoothingDetails.RewardsNetwork entry.2)).
    { apply (ethLoop_answerable rp _ (withScalar rF1 bs) rF2);
        [apply NoDup_fst_map_to_list| | |exact Hloop].
      - intros net Hnet. apply Hgood.
        rewrite HrF1 in Hnet. unfold withScalar in Hnet.
        destruct (10 <=? _); exact Hnet.
      - intros [a nsd] Hin Hpos Hsome.
        apply elem_of_map_to_list in Hin.
        destruct (Hnets' a nsd Hin) as (nnd & Hnnd & Hnet).
        simpl. rewrite Hnet.
        apply (Hval a nnd); [|exact Hnnd].
        rewrite HrF1 in Hsome. unfold withScalar in Hsome.
        destruct (10 <=? _); exact Hsome. }
    destruct (ethLoop_succeeds rp (map_to_list (Gen.nodeDetails rF1))
                (withScalar (Gen.withNodeDetails (atNodeRewards A fA st)
                               (Gen.nodeDetails rF1)) bs))
      as (rA2 & HloopA & HsameA).
    + unfold withScalar. destruct (10 <=? _); exact H0.
    + exact Hans.
    + eexists. split.
      * apply (calculateEthRewards_run flag rp bc A st fA ps no bs
                 (Gen.withNodeDetails (atNodeRewards A fA st)
                    (Gen.nodeDetails rF1)) rA2).
        -- rewrite Hns. exact Hb0.
        -- rewrite Hidx. exact Hi0.
        -- rewrite Hns. exact HblocksA.
        -- exact HnrA.
        -- exact HloopA.
      * subst r'. reflexivity.
Qed.

(** C10: for a new generator over a snapshot whose node index agrees
    with its node list, whenever the full run returns a rewards file the
    approximation returns the pool staker smoothing pool ETH recorded in
    it; and the flag given to [calculateEthRewards] changes nothing. *)
Theorem approximation_returns_recorded_pool_staker_eth
    (nodeOrder networkOrder : MapOrder)
    (rulesetVersion index : Z) (snapshotEnd : SnapshotEnd.t)
    (elSnapshotHeaderTime intervalsPassed : Z) (ns : NetworkState.t)
    (rr : RollingRecord.t) (rp : ExecutionClient.t) (bc : BeaconClient.t)
    (res : GenerateTreeResult.t) :
  let r := newTreeGeneratorImpl_v9_v10_rolling rulesetVersion index
             snapshotEnd elSnapshotHeaderTime intervalsPassed ns rr in
  indexedByAddress ns ->
  generateTree tenEth IsEligibleForBonuses merkleRoot nodeOrder networkOrder
    r rp bc = Ok res ->
  approximateStakerShareOfSmoothingPool tenEth IsEligibleForBonuses r rp bc
  = Ok (TotalRewards.PoolStakerSmoothingPoolEth
          (SSZFile.TotalRewards (GenerateTreeResult.RewardsFile res)))
  /\ forall (g : Gen.t) (checkBeaconPerformance : bool),
       calculateEthRewards tenEth IsEligibleForBonuses
         checkBeaconPerformance rp bc g
       = calculateEthRewards tenEth IsEligibleForBonuses true rp bc g.
Proof.
  intros r Hidx Hrun. split; [|reflexivity].
  destruct (generateTree_inv _ _ _ _ _ _ _ _ _ Hrun)
    as (r1 & r2 & root & Hrpl & Heth & Hfile & _).
  rewrite Hfile. clear Hfile Hrun.
  change (SSZFile.TotalRewards
            (SSZFile.withMerkleRoot (assignLists nodeOrder networkOrder r2)
               (Some root)))
    with (Gen.totalRewards r2).
  pose proof (calculateRplRewards_file _ _ _ Hrpl) as (t & Hfile1 & Hps1).
  assert (Hinv1 : cacheGood rp r1 /\ entriesValidated rp r1).
  { apply (calculateRplRewards_validated rp (provision r) r1);
      [exact Hidx| |exact Hrpl].
    split.
    - intros net Hnet. simpl in Hnet.
      destruct (decide (net = 0)) as [->|Hne]; [left; reflexivity|].
      rewrite lookup_singleton_ne in Hnet by congruence.
      destruct Hnet; discriminate.
    - intros a nnd Hin. simpl in Hin. rewrite lookup_empty in Hin.
      destruct Hin; discriminate. }
  destruct Hinv1 as [Hgood1 Hval1].
  apply calculateRplRewards_sums in Hrpl. destruct Hrpl as (Hsame & _).
  destruct Hsame as (Hns & _ & Htime & Hse & Hrr & Hbal & Heps & His & Hnd).
  assert (H1 : Gen.networkState (provision r) = Gen.networkState r1)
    by (symmetry; exact Hns).
  assert (H2 : Gen.rollingRecord (provision r) = Gen.rollingRecord r1)
    by (symmetry; exact Hrr).
  assert (H3 : Gen.snapshotEnd (provision r) = Gen.snapshotEnd r1)
    by (symmetry; exact Hse).
  assert (H4 : Gen.epsilon (provision r) = Gen.epsilon r1)
    by (symmetry; exact Heps).
  assert (H5 : getRulesetVersion (provision r) = getRulesetVersion r1)
    by (unfold getRulesetVersion; rewrite Hfile1; reflexivity).
  assert (H6 : SSZFile.Index (Gen.rewardsFile (provision r))
               = SSZFile.Index (Gen.rewardsFile r1))
    by (rewrite Hfile1; reflexivity).
  assert (H7 : Gen.nodeDetails (provision r) = Gen.nodeDetails r1)
    by (symmetry; exact Hnd).
  assert (H8 : TotalRewards.PoolStakerSmoothingPoolEth
                 (Gen.totalRewards (provision r))
               = TotalRewards.PoolStakerSmoothingPoolEth (Gen.totalRewards r1))
    by (unfold Gen.totalRewards at 2; rewrite Hfile1; symmetry; exact Hps1).
  assert (H9 : is_Some (Gen.validNetworkCache (provision r) !! 0))
    by (simpl; rewrite lookup_singleton_eq; eauto).
  assert (H10 : networksFromIndex (Gen.networkState r1) (Gen.nodeDetails r1)).
  { rewrite <- H7. intros a nsd Hk. simpl in Hk. rewrite lookup_empty in Hk.
    discriminate. }
  destruct (calculateEthRewards_transfer false rp bc r1 (provision r) r2
              H1 H2 H3 H4 H5 H6 H7 H8 H9 Hgood1 Hval1 H10 Heth)
    as (a' & Ha' & Hps).
  unfold approximateStakerShareOfSmoothingPool. rewrite Ha'.
  unfold bind. rewrite Hps. reflexivity.
Qed.

End ApproximationRun.

Lemma approximation_returns_recorded_pool_staker_eth_witness :
  approximateStakerShareOfSmoothingPool Fixtures.tenEth Fixtures.eligible
    (Fixtures.generator 10 (Fixtures.twoNodes 1000000)) Fixtures.rp Fixtures.bc
  = Ok (TotalRewards.PoolStakerSmoothingPoolEth
          (SSZFile.TotalRewards
             (GenerateTreeResult.RewardsFile Fixtures.fullResult)))
  /\ forall (g : Gen.t) (checkBeaconPerformance : bool),
       calculateEthRewards Fixtures.tenEth Fixtures.eligible
         checkBeaconPerformance Fixtures.rp Fixtures.bc g
       = calculateEthRewards Fixtures.tenEth Fixtures.eligible true
           Fixtures.rp Fixtures.bc g.
Proof.
  apply (approximation_returns_recorded_pool_staker_eth Fixtures.tenEth
           Fixtures.eligible Fixtures.positional Fixtures.inOrder
           Fixtures.inOrder 10 5 Fixtures.snapshotEnd 1000 1
           (Fixtures.twoNodes 1000000) Fixtures.record Fixtures.rp
           Fixtures.bc Fixtures.fullResult).
  - intros nd nnd Hin Hk. simpl in Hin.
    apply elem_of_cons in Hin. destruct Hin as [->|Hin].
    + vm_compute in Hk. inversion Hk. reflexivity.
    + apply elem_of_cons in Hin. destruct Hin as [->|Hin].
      * vm_compute in Hk. inversion Hk. reflexivity.
      * inversion Hin.
  - vm_compute. reflexivity.
Defined.

(** * Further properties of the generator *)

(** ** Conservation of the totals *)

Section Totals.

Variable tenEth : Z.
Variable IsEligibleForBonuses : MinipoolInfo.t -> bool.
Variable merkleRoot : list NetworkReward.t -> list NodeReward.t -> option Z.

Lemma calculateNodeRewards_balance r ps no bs r' :
  calculateNodeRewards tenEth IsEligibleForBonuses r = Ok (ps, no, bs, r') ->
  ps + no = Gen.smoothingPoolBalance r
  /\ Gen.smoothingPoolBalance r' = Gen.smoothingPoolBalance r.
Proof.
  intros H.
  pose proof (calculateNodeRewards_only_nodes _ _ _ _ _ _ _ H) as Hr'.
  split; [|rewrite Hr'; reflexivity].
  destruct (RollingRecord.GetScores (Gen.rollingRecord r) (getCheaters r))
    as [[mps ts] cnt] eqn:Hs.
  destruct (Z.eqb_spec ts 0) as [Hts|Hts];
    [|destruct (Z.eqb_spec cnt 0) as [Hcnt|Hcnt]].
  - unfold calculateNodeRewards in H. rewrite Hs in H. subst ts. simpl in H.
    inversion H; subst. lia.
  - unfold calculateNodeRewards in H. rewrite Hs in H. subst cnt.
    rewrite orb_true_r in H. inversion H; subst. lia.
  - destruct (calculateNodeRewards_inv _ _ _ _ _ _ _ _ _ _ H Hs Hts Hcnt)
      as (share & nds0 & r1 & _ & _ & _ & _ & Hno & Hps & _).
    lia.
Qed.

(** The totals a returned smoothing pool allocation leaves in the
    rewards file. *)
Lemma calculateEthRewards_totals flag rp bc r r' :
  calculateEthRewards tenEth IsEligibleForBonuses flag rp bc r = Ok r' ->
  let t := Gen.totalRewards r in
  let t' := Gen.totalRewards r' in
  let balance :=
    NetworkDetails.SmoothingPoolBalance
      (NetworkState.NetworkDetails (Gen.networkState r)) in
  TotalRewards.ProtocolDaoRpl t' = TotalRewards.ProtocolDaoRpl t
  /\ TotalRewards.TotalCollateralRpl t' = TotalRewards.TotalCollateralRpl t
  /\ TotalRewards.TotalOracleDaoRpl t' = TotalRewards.TotalOracleDaoRpl t
  /\ TotalRewards.TotalNodeWeight t' = TotalRewards.TotalNodeWeight t
  /\ (balance <> 0 -> SSZFile.Index (Gen.rewardsFile r) <> 0 ->
      TotalRewards.TotalSmoothingPoolEth t' = balance
      /\ TotalRewards.PoolStakerSmoothingPoolEth t'
         + TotalRewards.NodeOperatorSmoothingPoolEth t'
         = balance).
Proof.
  intros H t t' balance. subst t t'.
  destruct (Z.eq_dec balance 0) as [Hb0|Hb0];
    [|destruct (Z.eq_dec (SSZFile.Index (Gen.rewardsFile r)) 0) as [Hi0|Hi0]].
  - rewrite calculateEthRewards_skips in H by (left; exact Hb0).
    inversion H; subst. repeat split; try reflexivity; contradiction.
  - rewrite calculateEthRewards_skips in H by (right; exact Hi0).
    inversion H; subst. repeat split; try reflexivity; contradiction.
  - destruct (calculateEthRewards_inv _ _ _ _ _ _ _ H Hb0 Hi0)
      as (st & f & ps & no & bs & r1 & r2 & _ & Htot & _ & Hnr & Hloop & Hr').
    apply foldM_sameInputs in Hloop;
      [|intros; eapply ethStep_sameInputs; eauto].
    destruct Hloop as (_ & Hfile & _ & _ & _ & Hbal2 & _).
    pose proof (calculateNodeRewards_only_nodes _ _ _ _ _ _ _ Hnr) as Hr1.
    destruct (calculateNodeRewards_balance _ _ _ _ _ Hnr) as [Hsum Hbal1].
    assert (Ht2 : Gen.totalRewards r2 = Gen.totalRewards r).
    { unfold Gen.totalRewards at 1. rewrite Hfile. rewrite <- Htot.
      unfold withScalar. rewrite Hr1.
      destruct (10 <=? _); reflexivity. }
    assert (Hb2 : Gen.smoothingPoolBalance r2 = balance).
    { rewrite Hbal2. unfold withScalar.
      destruct (10 <=? _); simpl; rewrite Hbal1; reflexivity. }
    subst r'. unfold Gen.totalRewards in *. simpl.
    rewrite ?Ht2, ?Hb2.
    repeat split; try reflexivity; try (rewrite Ht2; reflexivity).
    exact Hsum.
Qed.

(** X1: with a positive total node weight, the three RPL totals of the
    rewards file a run returns add up to the pending RPL rewards. *)
Theorem rpl_conserved_with_node_weight
    (nodeOrder networkOrder : MapOrder) (r : Gen.t) (rp : ExecutionClient.t)
    (bc : BeaconClient.t) (res : GenerateTreeResult.t) (w : gmap Z Z)
    (tw : Z) :
  generateTree tenEth IsEligibleForBonuses merkleRoot nodeOrder networkOrder
    r rp bc = Ok res ->
  NetworkState.CalculateNodeWeights (Gen.networkState r) = Some (w, tw) ->
  0 < tw ->
  rplDistributed (SSZFile.TotalRewards (GenerateTreeResult.RewardsFile res))
  = NetworkDetails.PendingRPLRewards
      (NetworkState.NetworkDetails (Gen.networkState r)).
Proof.
  intros Hrun Hw Htw.
  destruct (generateTree_inv _ _ _ _ _ _ _ _ _ Hrun)
    as (r1 & r2 & root & Hrpl & Heth & Hfile & _).
  rewrite Hfile.
  change (SSZFile.TotalRewards
            (SSZFile.withMerkleRoot (assignLists nodeOrder networkOrder r2)
               (Some root)))
    with (Gen.totalRewards r2).
  pose proof (calculateRplRewards_conserves rp (provision r) r1 w tw Hw Htw
                Hrpl) as Hsum.
  destruct (calculateEthRewards_totals _ _ _ _ _ Heth)
    as (Hp & Hc & Ho & _).
  unfold rplDistributed in *. rewrite Hp, Hc, Ho. exact Hsum.
Qed.

(** X2: when the smoothing pool is allocated, the recorded total is the
    pool's balance and the pool stakers' and the node operators' parts
    add up to it. *)
Theorem smoothing_pool_eth_conserved
    (nodeOrder networkOrder : MapOrder) (r : Gen.t) (rp : ExecutionClient.t)
    (bc : BeaconClient.t) (res : GenerateTreeResult.t) :
  let balance :=
    NetworkDetails.SmoothingPoolBalance
      (NetworkState.NetworkDetails (Gen.networkState r)) in
  let t := SSZFile.TotalRewards (GenerateTreeResult.RewardsFile res) in
  generateTree tenEth IsEligibleForBonuses merkleRoot nodeOrder networkOrder
    r rp bc = Ok res ->
  balance <> 0 ->
  SSZFile.Index (Gen.rewardsFile r) <> 0 ->
  TotalRewards.TotalSmoothingPoolEth t = balance
  /\ TotalRewards.PoolStakerSmoothingPoolEth t
     + TotalRewards.NodeOperatorSmoothingPoolEth t = balance.
Proof.
  intros balance t Hrun Hbal Hidx. subst t.
  destruct (generateTree_inv _ _ _ _ _ _ _ _ _ Hrun)
    as (r1 & r2 & root & Hrpl & Heth & Hfile & _).
  rewrite Hfile.
  change (SSZFile.TotalRewards
            (SSZFile.withMerkleRoot (assignLists nodeOrder networkOrder r2)
               (Some root)))
    with (Gen.totalRewards r2).
  pose proof (calculateRplRewards_file _ _ _ Hrpl) as (t1 & Hfile1 & _).
  apply calculateRplRewards_sums in Hrpl. destruct Hrpl as (Hsame & _).
  destruct Hsame as (Hns & _).
  destruct (calculateEthRewards_totals _ _ _ _ _ Heth)
    as (_ & _ & _ & _ & Heth').
  simpl in Hns. rewrite Hns in Heth'. apply Heth'.
  - exact Hbal.
  - rewrite Hfile1. exact Hidx.
Qed.

End Totals.

Lemma rpl_conserved_with_node_weight_witness :
  rplDistributed
    (SSZFile.TotalRewards (GenerateTreeResult.RewardsFile Fixtures.fullResult))
  = 1000.
Proof.
  apply (rpl_conserved_with_node_weight Fixtures.tenEth Fixtures.eligible
           Fixtures.positional Fixtures.inOrder Fixtures.inOrder
           (Fixtures.generator 10 (Fixtures.twoNodes 1000000)) Fixtures.rp
           Fixtures.bc Fixtures.fullResult (list_to_map [(1, 1); (2, 2)]) 3).
  - vm_compute. reflexivity.
  - reflexivity.
  - lia.
Defined.

Lemma smoothing_pool_eth_conserved_witness :
  let t :=
    SSZFile.TotalRewards (GenerateTreeResult.RewardsFile Fixtures.fullResult) in
  TotalRewards.TotalSmoothingPoolEth t = 1000000
  /\ TotalRewards.PoolStakerSmoothingPoolEth t
     + TotalRewards.NodeOperatorSmoothingPoolEth t = 1000000.
Proof.
  apply (smoothing_pool_eth_conserved Fixtures.tenEth Fixtures.eligible
           Fixtures.positional Fixtures.inOrder Fixtures.inOrder
           (Fixtures.generator 10 (Fixtures.twoNodes 1000000)) Fixtures.rp
           Fixtures.bc Fixtures.fullResult).
  - vm_compute. reflexivity.
  - simpl. lia.
  - simpl. lia.
Defined.

(** ** The pool stakers' part *)

Section PoolStakers.

Variable tenEth : Z.
Variable IsEligibleForBonuses : MinipoolInfo.t -> bool.
Variable merkleRoot : list NetworkReward.t -> list NodeReward.t -> option Z.

Lemma minipoolLoop_no_bonus ns cheaters share ts mps :
  forall nds nds',
    foldM (minipoolStep ns cheaters share ts) mps nds = Ok nds' ->
    (forall k nsd, nds !! k = Some nsd ->
       NodeSmoothingDetails.BonusEth nsd = 0) ->
    forall k nsd, nds' !! k = Some nsd ->
      NodeSmoothingDetails.BonusEth nsd = 0.
Proof.
  induction mps as [|mp mps IH]; simpl; intros nds nds' H Hinv.
  - inversion H; subst. exact Hinv.
  - bind_into H as nds1 Hstep.
    apply (IH nds1 nds'); [exact H|].
    apply minipoolStep_inv in Hstep.
    destruct Hstep as (nodeInfo & nmd & q & Hnode & _ & _ & ->).
    intros k nsd Hk. rewrite lookup_insert in Hk.
    destruct (decide (MinipoolInfo.NodeAddress mp = k)) as [He|Hne];
      [|eauto].
    inversion Hk; subst; clear Hk. simpl.
    destruct Hnode as [Hold|(_ & _ & _ & _ & Hb)]; eauto.
Qed.

Lemma nodeBonuses_amount ns nsd nsd' b :
  nodeBonuses tenEth IsEligibleForBonuses ns nsd = Ok (nsd', b) ->
  NodeSmoothingDetails.BonusEth nsd = 0 ->
  NodeSmoothingDetails.BonusEth nsd' = b /\ 0 <= b.
Proof.
  intros H Hzero.
  destruct (NodeSmoothingDetails.IsEligible nsd) eqn:Hel.
  - destruct (nodeBonuses_value _ _ _ _ _ _ H Hel Hzero) as (? & _ & ?).
    auto.
  - unfold nodeBonuses in H. rewrite Hel in H. simpl in H.
    inversion H; subst. split; [exact Hzero|lia].
Qed.

Lemma calculateNodeBonuses_sum r total r' :
  (forall k nsd, Gen.nodeDetails r !! k = Some nsd ->
     NodeSmoothingDetails.BonusEth nsd = 0) ->
  calculateNodeBonuses tenEth IsEligibleForBonuses r = Ok (total, r') ->
  sumMap NodeSmoothingDetails.BonusEth (Gen.nodeDetails r') = total
  /\ 0 <= total.
Proof.
  intros Hfresh H. unfold calculateNodeBonuses in H. bind_into H as m Hm.
  inversion H; subst; clear H. simpl.
  assert (Hall : forall k p, m !! k = Some p ->
            NodeSmoothingDetails.BonusEth p.1 = p.2 /\ 0 <= p.2).
  { intros k [nsd' b] Hk.
    destruct (gmapM_lookup _ _ _ _ _ Hm Hk) as (nsd & Hnsd & Hf).
    exact (nodeBonuses_amount _ _ _ _ Hf (Hfresh _ _ Hnsd)). }
  split.
  - rewrite sumMap_fmap.
    assert (Hd : sumMap (fun p : NodeSmoothingDetails.t * Z =>
                    NodeSmoothingDetails.BonusEth p.1 - p.2) m = 0).
    { apply sumMap_zero. intros k p Hk. destruct (Hall k p Hk) as [? _]. lia. }
    rewrite sumMap_minus in Hd. lia.
  - assert (Hz : sumMap (fun _ : NodeSmoothingDetails.t * Z => 0) m
                 <= sumMap snd m).
    { apply sumMap_le. intros k p Hk. destruct (Hall k p Hk) as (_ & ?).
      assumption. }
    rewrite sumMap_zero in Hz by auto. exact Hz.
Qed.

(** Whether or not they were scaled down, the bonuses of the node
    records stay within what the minipool shares leave of the
    balance. *)
Lemma bonuses_within_balance r total r1 bs :
  10 <= getRulesetVersion r ->
  (forall k nsd, Gen.nodeDetails r !! k = Some nsd ->
     NodeSmoothingDetails.BonusEth nsd = 0) ->
  bonuses tenEth IsEligibleForBonuses r total oneEth = Ok (r1, bs) ->
  sumMap NodeSmoothingDetails.BonusEth (Gen.nodeDetails r1)
  <= Gen.smoothingPoolBalance r - total.
Proof.
  intros Hver Hfresh Hb. unfold bonuses in Hb.
  replace (10 <=? getRulesetVersion r) with true in Hb
    by (symmetry; apply Z.leb_le; exact Hver).
  bind_into Hb as p Hbonus. destruct p as [T rb].
  destruct (calculateNodeBonuses_sum r T rb Hfresh Hbonus) as (Hsum & Hpos).
  pose proof (calculateNodeBonuses_nodes _ _ _ _ _ Hbonus) as [Hrb _].
  assert (Hbal : Gen.smoothingPoolBalance rb = Gen.smoothingPoolBalance r)
    by (rewrite Hrb; reflexivity).
  rewrite Hbal in Hb.
  destruct (Z.ltb_spec (Gen.smoothingPoolBalance r - total) T) as [Hlt|Hge].
  - bind_into Hb as scalar Hscalar. apply orPanic_Ok in Hscalar.
    assert (HT : 0 < T).
    { unfold Big.Div in Hscalar. destruct (Z.eqb_spec T 0);
        [discriminate|lia]. }
    bind_into Hb as nds' Hscale. inversion Hb; subst r1 bs; clear Hb. simpl.
    etransitivity.
    + apply (sumMap_gmapM_le
               (scaleNode (Gen.smoothingPoolBalance r - total) T)
               NodeSmoothingDetails.BonusEth
               (fun v => NodeSmoothingDetails.BonusEth v
                         * (Gen.smoothingPoolBalance r - total) / T)
               (Gen.nodeDetails rb) nds'); [|exact Hscale].
      intros v w Hf. apply (scaleNode_inv _ _ _ _ HT) in Hf.
      destruct Hf as [-> _]. reflexivity.
    + etransitivity; [apply sumMap_floors_le; exact HT|].
      rewrite Hsum. rewrite Z.mul_comm, Z.div_mul by lia. reflexivity.
  - inversion Hb; subst r1 bs. rewrite Hsum. exact Hge.
Qed.

Lemma calculateNodeRewards_pool_stakers r ps no bs r' :
  calculateNodeRewards tenEth IsEligibleForBonuses r = Ok (ps, no, bs, r') ->
  10 <= getRulesetVersion r ->
  0 <= Gen.smoothingPoolBalance r ->
  0 <= ps.
Proof.
  intros H Hver Hbal.
  destruct (RollingRecord.GetScores (Gen.rollingRecord r) (getCheaters r))
    as [[mps ts] cnt] eqn:Hs.
  destruct (Z.eqb_spec ts 0) as [Hts|Hts];
    [|destruct (Z.eqb_spec cnt 0) as [Hcnt|Hcnt]].
  - unfold calculateNodeRewards in H. rewrite Hs in H. subst ts. simpl in H.
    inversion H; subst. exact Hbal.
  - unfold calculateNodeRewards in H. rewrite Hs in H. subst cnt.
    rewrite orb_true_r in H. inversion H; subst. exact Hbal.
  - destruct (calculateNodeRewards_inv _ _ _ _ _ _ _ _ _ _ H Hs Hts Hcnt)
      as (share & nds0 & r1 & _ & Hloop & Hb & _ & Hno & Hps & _).
    replace (10 <=? getRulesetVersion r) with true in Hno
      by (symmetry; apply Z.leb_le; exact Hver).
    assert (Hfresh : forall k nsd, nds0 !! k = Some nsd ->
              NodeSmoothingDetails.BonusEth nsd = 0).
    { apply (minipoolLoop_no_bonus _ _ _ _ _ _ _ Hloop).
      intros k nsd Hk. rewrite lookup_empty in Hk. discriminate. }
    pose proof (bonuses_within_balance (Gen.withNodeDetails r nds0) _ _ _
                  Hver Hfresh Hb) as Hle.
    simpl in Hle. lia.
Qed.

(** X3: under ruleset 10 or later, with a positive smoothing pool
    balance and a non-zero interval index, the pool stakers' part of the
    rewards file a run returns is never negative. *)
Theorem pool_stakers_never_owe
    (nodeOrder networkOrder : MapOrder) (r : Gen.t) (rp : ExecutionClient.t)
    (bc : BeaconClient.t) (res : GenerateTreeResult.t) :
  generateTree tenEth IsEligibleForBonuses merkleRoot nodeOrder networkOrder
    r rp bc = Ok res ->
  10 <= getRulesetVersion r ->
  0 < NetworkDetails.SmoothingPoolBalance
        (NetworkState.NetworkDetails (Gen.networkState r)) ->
  SSZFile.Index (Gen.rewardsFile r) <> 0 ->
  0 <= TotalRewards.PoolStakerSmoothingPoolEth
         (SSZFile.TotalRewards (GenerateTreeResult.RewardsFile res)).
Proof.
  intros Hrun Hver Hbal Hidx.
  destruct (generateTree_inv _ _ _ _ _ _ _ _ _ Hrun)
    as (r1 & r2 & root & Hrpl & Heth & Hfile & _).
  rewrite Hfile.
  change (SSZFile.TotalRewards
            (SSZFile.withMerkleRoot (assignLists nodeOrder networkOrder r2)
               (Some root)))
    with (Gen.totalRewards r2).
  pose proof (calculateRplRewards_file _ _ _ Hrpl) as (t1 & Hfile1 & _).
  apply calculateRplRewards_sums in Hrpl. destruct Hrpl as (Hsame & _).
  destruct Hsame as (Hns & _). simpl in Hns.
  assert (Hb1 : NetworkDetails.SmoothingPoolBalance
                  (NetworkState.NetworkDetails (Gen.networkState r1)) <> 0)
    by (rewrite Hns; lia).
  assert (Hi1 : SSZFile.Index (Gen.rewardsFile r1) <> 0)
    by (rewrite Hfile1; exact Hidx).
  destruct (calculateEthRewards_inv _ _ _ _ _ _ _ Heth Hb1 Hi1)
    as (st & f & ps & no & bs & ra & rb & _ & _ & Hv & Hnr & _ & Hr2).
  subst r2. unfold Gen.totalRewards, Gen.withTotalRewards. simpl.
  apply (calculateNodeRewards_pool_stakers _ _ _ _ _ Hnr).
  - unfold getRulesetVersion, atNodeRewards. simpl. rewrite Hv.
    unfold getRulesetVersion. rewrite Hfile1. exact Hver.
  - unfold atNodeRewards. simpl. rewrite Hns. lia.
Qed.

End PoolStakers.

Lemma pool_stakers_never_owe_witness :
  0 <= TotalRewards.PoolStakerSmoothingPoolEth
         (SSZFile.TotalRewards
            (GenerateTreeResult.RewardsFile Fixtures.fullResult)).
Proof.
  apply (pool_stakers_never_owe Fixtures.tenEth Fixtures.eligible
           Fixtures.positional Fixtures.inOrder Fixtures.inOrder
           (Fixtures.generator 10 (Fixtures.twoNodes 1000000)) Fixtures.rp
           Fixtures.bc Fixtures.fullResult).
  - vm_compute. reflexivity.
  - vm_compute. discriminate.
  - simpl. lia.
  - simpl. lia.
Defined.

(** ** The accumulators through a run *)

Section Accumulators.

Variable rp : ExecutionClient.t.

Lemma validateNetwork_cases r network valid r' :
  validateNetwork rp r network = Ok (valid, r') ->
  (Gen.validNetworkCache r !! network = Some valid /\ r' = r)
  \/ (Gen.validNetworkCache r !! network = None
      /\ ExecutionClient.GetNetworkEnabled rp (Big.int64 network) = Some valid
      /\ r' = Gen.withValidNetworkCache r
                (<[network := valid]> (Gen.validNetworkCache r))).
Proof.
  unfold validateNetwork. intros H.
  destruct (Gen.validNetworkCache r !! network) as [v|] eqn:Hc.
  - inversion H; subst. left. auto.
  - destruct (ExecutionClient.GetNetworkEnabled rp _) as [v|] eqn:Hq;
      [|discriminate].
    inversion H; subst. right. auto.
Qed.

Lemma rewardsForNode_cases r address network n r' :
  rewardsForNode rp r address network = Ok (n, r') ->
  (Gen.nodeRewards r !! address = Some n /\ r' = r)
  \/ (Gen.nodeRewards r !! address = None
      /\ exists nv valid r1,
           network = Ok nv
           /\ validateNetwork rp r nv = Ok (valid, r1)
           /\ n = NodeReward.New (if valid then nv else 0) address
           /\ Gen.validNetworkCache r' = Gen.validNetworkCache r1
           /\ Gen.invalidNetworkNodes r'
              = (if valid then Gen.invalidNetworkNodes r
                 else <[address := nv]> (Gen.invalidNetworkNodes r))
           /\ Gen.nodeRewards r' = <[address := n]> (Gen.nodeRewards r)
           /\ Gen.networkRewards r' = Gen.networkRewards r).
Proof.
  unfold rewardsForNode. intros H.
  destruct (Gen.nodeRewards r !! address) as [n0|] eqn:Hk.
  - inversion H; subst. left. auto.
  - right. split; [reflexivity|].
    bind_into H as nv Hnv. bind_into H as vr Hv. destruct vr as [valid r1].
    exists nv, valid, r1.
    assert (Hnet : network = Ok nv) by first [assumption|reflexivity].
    inversion H; subst n r'; clear H.
    destruct (validateNetwork_cases _ _ _ _ Hv) as [[_ ->]|(_ & _ & ->)];
      destruct valid; simpl; repeat split; auto.
Qed.

Lemma credit_inv k address network x r r' :
  credit rp k address network x r = Ok r' ->
  exists n r1,
    rewardsForNode rp r address network = Ok (n, r1)
    /\ Gen.validNetworkCache r' = Gen.validNetworkCache r1
    /\ Gen.invalidNetworkNodes r' = Gen.invalidNetworkNodes r1
    /\ Gen.nodeRewards r' = <[address := addToNode k n x]> (Gen.nodeRewards r1)
    /\ Gen.networkRewards r'
       = <[NodeReward.Network n :=
             addToNetwork k
               (default (NetworkReward.New (NodeReward.Network n))
                  (Gen.networkRewards r1 !! NodeReward.Network n)) x]>
           (Gen.networkRewards r1).
Proof.
  unfold credit. intros H. bind_into H as nr Hn. destruct nr as [n r1].
  exists n, r1. inversion H; subst; clear H. simpl.
  assert (Hnet : NodeReward.Network (addToNode k n x) = NodeReward.Network n)
    by (destruct k; reflexivity).
  rewrite Hnet. repeat split; auto.
Qed.

Lemma collateralStep_credit w total tw r nd r' :
  collateralStep rp w total tw r nd = Ok r' ->
  r' = r
  \/ exists x,
       credit rp Collateral (NodeDetails.NodeAddress nd)
         (Ok (Big.Uint64 (NodeDetails.RewardNetwork nd))) x r = Ok r'.
Proof.
  unfold collateralStep. intros H. bind_into H as nw Hnw. bind_into H as x Hx.
  destruct (Big.Sign x =? 1); [|inversion H; auto].
  right. exists x. exact H.
Qed.

Lemma odaoStep_credit times total tt r d r' :
  odaoStep rp times total tt r d = Ok r' ->
  exists network x,
    credit rp OracleDao (OracleDaoMember.Address d) network x r = Ok r'.
Proof.
  unfold odaoStep. intros H. bind_into H as x Hx.
  eexists. exists x. exact H.
Qed.

Lemma ethStep_credit r entry r' :
  ethStep rp r entry = Ok r' ->
  r' = r
  \/ exists rc,
       credit rp SmoothingPool entry.1
         (Ok (NodeSmoothingDetails.RewardsNetwork entry.2))
         (NodeSmoothingDetails.SmoothingPoolEth entry.2) r = Ok rc
       /\ accumulators r'
          = accumulators
              (withPerformances rc (NodeSmoothingDetails.Minipools entry.2)).
Proof.
  unfold ethStep. intros H.
  destruct (0 <? NodeSmoothingDetails.SmoothingPoolEth entry.2);
    [|inversion H; auto].
  right. bind_into H as nr Hn. destruct nr as [n r1].
  inversion H; subst; clear H.
  eexists. split.
  - unfold credit. rewrite Hn. simpl. reflexivity.
  - reflexivity.
Qed.

(** A property of the accumulators that every credit keeps is kept by
    the RPL allocation. *)
Lemma calculateRplRewards_accumulates (P : Gen.t -> Prop) :
  (forall r r', accumulators r' = accumulators r -> P r -> P r') ->
  (forall k address network x r r',
     P r -> credit rp k address network x r = Ok r' -> P r') ->
  forall r r', P r -> calculateRplRewards rp r = Ok r' -> P r'.
Proof.
  intros Hacc Hcredit r r' HP H. unfold calculateRplRewards in H.
  destruct (_ =? 0); [discriminate|].
  destruct (NetworkState.CalculateNodeWeights _) as [[w tw]|]; [|discriminate].
  simpl in H. bind_into H as rp1 Hcoll. destruct rp1 as [r1 pDao1].
  assert (HP1 : P r1).
  { unfold collateralRewards in Hcoll. destruct (0 <? Big.Sign tw).
    - bind_into Hcoll as r1' Hloop.
      destruct (Gen.epsilon r1' <? _); [discriminate|].
      inversion Hcoll; subst; clear Hcoll.
      apply (Hacc r1'); [reflexivity|].
      apply (foldM_invariant P _ _) in Hloop; [exact Hloop| |].
      + intros s nd s' Hs Hstep.
        destruct (collateralStep_credit _ _ _ _ _ _ Hstep) as [->|[x Hx]];
          [exact Hs|eapply Hcredit; eauto].
      + apply (Hacc r); [reflexivity|exact HP].
    - inversion Hcoll; subst. exact HP. }
  destruct (trueODaoNodeTimes r1) as [times tt].
  bind_into H as r2 Hloop.
  destruct (Gen.epsilon r2 <? _); [discriminate|].
  inversion H; subst; clear H.
  apply (Hacc r2); [reflexivity|].
  apply (foldM_invariant P _ _) in Hloop; [exact Hloop| |exact HP1].
  intros s d s' Hs Hstep.
  destruct (odaoStep_credit _ _ _ _ _ _ Hstep) as (net & x & Hx).
  eapply Hcredit; eauto.
Qed.

End Accumulators.

Section RunInvariant.

Variable tenEth : Z.
Variable IsEligibleForBonuses : MinipoolInfo.t -> bool.
Variable merkleRoot : list NetworkReward.t -> list NodeReward.t -> option Z.
Variable rp : ExecutionClient.t.
Variable bc : BeaconClient.t.

Lemma withScalar_accumulators r bs :
  accumulators (withScalar r bs) = accumulators r.
Proof. unfold withScalar. destruct (10 <=? _); reflexivity. Qed.

(** A property of the accumulators that every credit keeps is kept by
    the smoothing pool allocation, which leaves the lists of the
    rewards file alone. *)
Lemma calculateEthRewards_accumulates (P : Gen.t -> Prop) :
  (forall r r', accumulators r' = accumulators r -> P r -> P r') ->
  (forall address network x r r',
     P r -> credit rp SmoothingPool address network x r = Ok r' -> P r') ->
  (forall r minipools, P r -> P (withPerformances r minipools)) ->
  forall flag r r',
    P r ->
    calculateEthRewards tenEth IsEligibleForBonuses flag rp bc r = Ok r' ->
    P r'
    /\ SSZFile.NodeRewards (Gen.rewardsFile r')
       = SSZFile.NodeRewards (Gen.rewardsFile r)
    /\ SSZFile.NetworkRewards (Gen.rewardsFile r')
       = SSZFile.NetworkRewards (Gen.rewardsFile r).
Proof.
  intros Hacc Hcredit Hperf flag r r' HP H.
  destruct (Z.eq_dec (NetworkDetails.SmoothingPoolBalance
              (NetworkState.NetworkDetails (Gen.networkState r))) 0)
    as [Hb0|Hb0];
    [|destruct (Z.eq_dec (SSZFile.Index (Gen.rewardsFile r)) 0) as [Hi0|Hi0]].
  - rewrite calculateEthRewards_skips in H by (left; exact Hb0).
    inversion H; subst. split; [|split; reflexivity].
    apply (Hacc r); [reflexivity|exact HP].
  - rewrite calculateEthRewards_skips in H by (right; exact Hi0).
    inversion H; subst. split; [|split; reflexivity].
    apply (Hacc r); [reflexivity|exact HP].
  - destruct (calculateEthRewards_inv _ _ _ _ _ _ _ H Hb0 Hi0)
      as (st & f & ps & no & bs & r1 & r2 & Hblocks & _ & _ & Hnr & Hloop
          & Hr').
    pose proof (calculateNodeRewards_only_nodes _ _ _ _ _ _ _ Hnr) as Hr1.
    destruct (getBlocksAndTimesForInterval_inv _ _ _ _ _ Hblocks)
      as (f' & Hf & _ & _ & _ & Hnodes & Hnets).
    assert (f' = f) by (apply (f_equal Gen.rewardsFile) in Hf; symmetry;
                        exact Hf).
    subst f'. simpl in Hnodes, Hnets.
    pose proof (foldM_sameInputs _ _
      (fun s a s' => ethStep_sameInputs rp s a s') _ _ Hloop)
      as (_ & Hfile & _).
    assert (Hfile2 : Gen.rewardsFile r2 = f).
    { rewrite Hfile. unfold withScalar. rewrite Hr1.
      destruct (10 <=? _); reflexivity. }
    subst r'. simpl. rewrite Hfile2. split; [|split; assumption].
    apply (Hacc r2); [reflexivity|].
    apply (foldM_invariant P _ _) in Hloop; [exact Hloop| |].
    + intros s e s' Hs Hstep.
      destruct (ethStep_credit _ _ _ _ Hstep) as [->|(rc & Hc & Heq)];
        [exact Hs|].
      apply (Hacc _ _ Heq). apply Hperf. eapply Hcredit; eauto.
    + apply (Hacc r1); [apply withScalar_accumulators|].
      apply (Hacc r); [rewrite Hr1; reflexivity|exact HP].
Qed.

(** The same for a whole run, up to the lists of the returned file. *)
Lemma generateTree_accumulates (P : Gen.t -> Prop) :
  (forall r r', accumulators r' = accumulators r -> P r -> P r') ->
  (forall k address network x r r',
     P r -> credit rp k address network x r = Ok r' -> P r') ->
  (forall r minipools, P r -> P (withPerformances r minipools)) ->
  forall nodeOrder networkOrder r res,
    P (provision r) ->
    generateTree tenEth IsEligibleForBonuses merkleRoot nodeOrder networkOrder
      r rp bc = Ok res ->
    exists r2,
      P r2
      /\ GenerateTreeResult.InvalidNetworkNodes res = Gen.invalidNetworkNodes r2
      /\ SSZFile.NodeRewards (GenerateTreeResult.RewardsFile res)
         = SSZFile.NodeRewards (Gen.rewardsFile r)
           ++ map (fun kv => NodeReward.withAddress kv.2 kv.1)
                (visit nodeOrder _ (map_to_list (Gen.nodeRewards r2)))
      /\ SSZFile.NetworkRewards (GenerateTreeResult.RewardsFile res)
         = SSZFile.NetworkRewards (Gen.rewardsFile r)
           ++ map (fun kv => NetworkReward.withNetwork kv.2 kv.1)
                (visit networkOrder _ (map_to_list (Gen.networkRewards r2)))
      /\ PerformanceFile.MinipoolPerformance
           (GenerateTreeResult.MinipoolPerformanceFile res)
         = sortSlots
           <$> PerformanceFile.MinipoolPerformance
                 (Gen.minipoolPerformanceFile r2).
Proof.
  intros Hacc Hcredit Hperf nodeOrder networkOrder r res HP Hrun.
  destruct (generateTree_inv _ _ _ _ _ _ _ _ _ Hrun)
    as (r1 & r2 & root & Hrpl & Heth & Hfile & Hinv).
  assert (Hpf : PerformanceFile.MinipoolPerformance
                  (GenerateTreeResult.MinipoolPerformanceFile res)
                = sortSlots
                  <$> PerformanceFile.MinipoolPerformance
                        (Gen.minipoolPerformanceFile r2)).
  { unfold generateTree in Hrun. rewrite Hrpl in Hrun. simpl in Hrun.
    rewrite Heth in Hrun. simpl in Hrun.
    destruct (merkleRoot _ _); [|discriminate].
    inversion Hrun; subst. reflexivity. }
  pose proof (calculateRplRewards_file _ _ _ Hrpl) as (t1 & Hfile1 & _).
  apply (calculateRplRewards_accumulates rp P Hacc Hcredit _ _ HP) in Hrpl.
  destruct (calculateEthRewards_accumulates P Hacc (Hcredit SmoothingPool)
              Hperf _ _ _ Hrpl Heth) as (HP2 & Hnodes & Hnets).
  exists r2. split; [exact HP2|]. split; [exact Hinv|].
  rewrite Hfile. unfold assignLists. simpl.
  rewrite Hnodes, Hnets, Hfile1. repeat split. exact Hpf.
Qed.

End RunInvariant.

Section Redirected.

Variable rp : ExecutionClient.t.

Lemma redirected_accumulators r r' :
  accumulators r' = accumulators r -> redirected rp r -> redirected rp r'.
Proof.
  unfold accumulators, redirected. intros Heq H.
  inversion Heq as [[Hc Hi Hn Hw Hp]]. rewrite Hc, Hi, Hn. exact H.
Qed.

Lemma redirected_performances r minipools :
  redirected rp r -> redirected rp (withPerformances r minipools).
Proof. intros H. exact H. Qed.

Lemma addToNode_Network k n x :
  NodeReward.Network (addToNode k n x) = NodeReward.Network n.
Proof. destruct k; reflexivity. Qed.

Lemma credit_redirected k address network x r r' :
  redirected rp r -> credit rp k address network x r = Ok r' ->
  redirected rp r'.
Proof.
  intros (Hzero & Hfalse & Hinv) H.
  destruct (credit_inv _ _ _ _ _ _ _ H)
    as (n & r1 & Hn & Hc & Hi & Hnodes & _).
  unfold redirected. rewrite Hc, Hi, Hnodes. clear Hc Hi Hnodes H.
  destruct (rewardsForNode_cases _ _ _ _ _ _ Hn)
    as [[Hk ->]|(Hk & nv & valid & r0 & _ & Hv & Hnew & Hc1 & Hi1 & Hn1 & _)].
  - split; [exact Hzero|]. split; [exact Hfalse|].
    intros a net Ha. destruct (Hinv a net Ha) as (Hcn & n0 & Hn0 & Hnet).
    split; [exact Hcn|].
    destruct (decide (address = a)) as [Heq|Hne].
    + subst a. rewrite lookup_insert_eq. eexists. split; [reflexivity|].
      rewrite addToNode_Network. congruence.
    + rewrite lookup_insert_ne by exact Hne. eauto.
  - rewrite Hc1, Hi1, Hn1. clear Hc1 Hi1 Hn1 Hn.
    assert (Hcache :
      Gen.validNetworkCache r0 !! 0 = Some true
      /\ (forall net, Gen.validNetworkCache r0 !! net = Some false ->
            ExecutionClient.GetNetworkEnabled rp (Big.int64 net) = Some false)
      /\ (forall net, Gen.validNetworkCache r !! net = Some false ->
            Gen.validNetworkCache r0 !! net = Some false)
      /\ Gen.validNetworkCache r0 !! nv = Some valid).
    { destruct (validateNetwork_cases _ _ _ _ _ Hv)
        as [[Hhit ->]|(Hmiss & Hq & ->)].
      - repeat split; auto.
      - simpl. repeat split.
        + rewrite lookup_insert_ne; [exact Hzero|]. congruence.
        + intros net Hnet. destruct (decide (nv = net)) as [Heq|Hne].
          * subst net. rewrite lookup_insert_eq in Hnet. congruence.
          * rewrite lookup_insert_ne in Hnet by exact Hne. auto.
        + intros net Hnet. rewrite lookup_insert_ne; [exact Hnet|].
          congruence.
        + apply lookup_insert_eq. }
    destruct Hcache as (Hzero0 & Hfalse0 & Hkeep & Hnv).
    split; [exact Hzero0|]. split; [exact Hfalse0|].
    intros a net Ha.
    destruct (decide (address = a)) as [Heq|Hne].
    + subst a. rewrite lookup_insert_eq.
      destruct valid.
      * destruct (Hinv address net Ha) as (_ & n0 & Hn0 & _). congruence.
      * rewrite lookup_insert_eq in Ha. inversion Ha; subst net.
        split; [exact Hnv|]. eexists. split; [reflexivity|].
        rewrite addToNode_Network. subst n. reflexivity.
    + rewrite lookup_insert_ne by exact Hne.
      rewrite lookup_insert_ne by exact Hne.
      assert (Ha' : Gen.invalidNetworkNodes r !! a = Some net).
      { destruct valid; [exact Ha|].
        rewrite lookup_insert_ne in Ha by exact Hne. exact Ha. }
      destruct (Hinv a net Ha') as (Hcn & Hex). split; [auto|exact Hex].
Qed.

End Redirected.

Section Reported.

Variable tenEth : Z.
Variable IsEligibleForBonuses : MinipoolInfo.t -> bool.
Variable merkleRoot : list NetworkReward.t -> list NodeReward.t -> option Z.

(** X4: a node that a run of a generator without earlier reports
    returns among the nodes with an invalid network was reported with a
    network other than 0 that the execution client answered to be
    disabled, and the node list of the file holds its entry on
    network 0. *)
Theorem invalid_network_nodes_are_redirected
    (nodeOrder networkOrder : MapOrder) (r : Gen.t) (rp : ExecutionClient.t)
    (bc : BeaconClient.t) (res : GenerateTreeResult.t)
    (address network : Z) :
  generateTree tenEth IsEligibleForBonuses merkleRoot nodeOrder networkOrder
    r rp bc = Ok res ->
  Gen.invalidNetworkNodes r = ∅ ->
  GenerateTreeResult.InvalidNetworkNodes res !! address = Some network ->
  network <> 0
  /\ ExecutionClient.GetNetworkEnabled rp (Big.int64 network) = Some false
  /\ exists n,
       n ∈ SSZFile.NodeRewards (GenerateTreeResult.RewardsFile res)
       /\ NodeReward.Address n = address
       /\ NodeReward.Network n = 0.
Proof.
  intros Hrun Hempty Hrep.
  destruct (generateTree_accumulates tenEth IsEligibleForBonuses merkleRoot
              rp bc (redirected rp) (redirected_accumulators rp)
              (credit_redirected rp) (redirected_performances rp)
              nodeOrder networkOrder r res)
    as (r2 & (Hzero & Hfalse & Hinv) & Hres & Hnodes & _); [|exact Hrun|].
  { unfold redirected, provision. simpl. rewrite Hempty.
    split; [apply lookup_singleton_eq|]. split.
    - intros net Hnet. destruct (decide (net = 0)) as [->|Hne].
      + rewrite lookup_singleton_eq in Hnet. discriminate.
      + rewrite lookup_singleton_ne in Hnet by congruence. discriminate.
    - intros a net Ha. rewrite lookup_empty in Ha. discriminate. }
  rewrite Hres in Hrep. destruct (Hinv _ _ Hrep) as (Hc & n & Hn & Hnet).
  split; [intros ->; congruence|]. split; [auto|].
  exists (NodeReward.withAddress n address). split; [|split; auto].
  rewrite Hnodes. apply elem_of_app. right.
  apply list_elem_of_fmap. exists (address, n). split; [reflexivity|].
  rewrite (visit_perm nodeOrder). apply elem_of_map_to_list. exact Hn.
Qed.

End Reported.

Lemma invalid_network_nodes_are_redirected_witness :
  4 <> 0
  /\ ExecutionClient.GetNetworkEnabled Fixtures.strict (Big.int64 4)
     = Some false
  /\ exists n,
       n ∈ SSZFile.NodeRewards
             (GenerateTreeResult.RewardsFile Fixtures.abroadResult)
       /\ NodeReward.Address n = 9
       /\ NodeReward.Network n = 0.
Proof.
  apply (invalid_network_nodes_are_redirected Fixtures.tenEth
           Fixtures.eligible Fixtures.positional Fixtures.inOrder
           Fixtures.inOrder (Fixtures.generator 10 Fixtures.abroad)
           Fixtures.strict Fixtures.bc Fixtures.abroadResult 9 4).
  - vm_compute. reflexivity.
  - reflexivity.
  - vm_compute. reflexivity.
Defined.

(** ** Network entries mirror the node entries *)

Lemma amount_added_to_node k k' n x :
  nodeAmount k' (addToNode k n x)
  = nodeAmount k' n + (if sameAsset k k' then x else 0).
Proof. destruct k, k'; simpl; lia. Qed.

Lemma amount_added_to_network k k' nw x :
  networkAmount k' (addToNetwork k nw x)
  = networkAmount k' nw + (if sameAsset k k' then x else 0).
Proof. destruct k, k'; simpl; lia. Qed.

Lemma mirrored_accumulators r r' :
  accumulators r' = accumulators r -> mirrored r -> mirrored r'.
Proof.
  unfold accumulators, mirrored. intros Heq H.
  inversion Heq as [[Hc Hi Hn Hw Hp]]. rewrite Hn, Hw. exact H.
Qed.

Lemma mirrored_performances r minipools :
  mirrored r -> mirrored (withPerformances r minipools).
Proof. intros H. exact H. Qed.

Lemma credit_mirrored rp k address network x r r' :
  mirrored r -> credit rp k address network x r = Ok r' -> mirrored r'.
Proof.
  intros (Hsum & Hnet) H.
  destruct (credit_inv _ _ _ _ _ _ _ H)
    as (n & r1 & Hn & _ & _ & Hnodes & Hnets).
  assert (Hshape :
    Gen.nodeRewards r' = <[address := addToNode k n x]> (Gen.nodeRewards r)
    /\ Gen.networkRewards r1 = Gen.networkRewards r
    /\ (forall k' net,
          from_option
            (fun n0 => if decide (NodeReward.Network n0 = net)
                       then nodeAmount k' n0 else 0)
            0 (Gen.nodeRewards r !! address)
          = (if decide (NodeReward.Network n = net)
             then nodeAmount k' n else 0))).
  { destruct (rewardsForNode_cases _ _ _ _ _ _ Hn)
      as [[Hk ->]|(Hk & nv & valid & r0 & _ & _ & Hnew & _ & _ & Hn1 & Hw1)].
    - split; [exact Hnodes|]. split; [reflexivity|].
      intros k' net. rewrite Hk. reflexivity.
    - rewrite Hnodes, Hn1, insert_insert_eq. split; [reflexivity|].
      split; [exact Hw1|].
      intros k' net. rewrite Hk. simpl. subst n.
      destruct (decide _); [destruct k'|]; reflexivity. }
  destruct Hshape as (Hnodes' & Hw1 & Hold).
  rewrite Hw1 in Hnets. clear Hnodes Hw1 Hn H.
  unfold mirrored. rewrite Hnodes', Hnets. split.
  - intros k' net. unfold heldOnNetwork. rewrite sumMap_insert.
    rewrite Hold, addToNode_Network, amount_added_to_node.
    fold (heldOnNetwork k' net (Gen.nodeRewards r)).
    rewrite <- Hsum.
    destruct (decide (NodeReward.Network n = net)) as [Heq|Hne].
    + subst net. rewrite lookup_insert_eq. simpl.
      rewrite amount_added_to_network.
      destruct (Gen.networkRewards r !! NodeReward.Network n); simpl;
        destruct k'; simpl; lia.
    + rewrite lookup_insert_ne by exact Hne. lia.
  - intros a n0 Ha. apply lookup_insert_is_Some.
    destruct (decide (address = a)) as [Heq|Hne].
    + subst a. rewrite lookup_insert_eq in Ha. inversion Ha; subst n0.
      left. rewrite addToNode_Network. reflexivity.
    + rewrite lookup_insert_ne in Ha by exact Hne.
      destruct (decide (NodeReward.Network n = NodeReward.Network n0));
        [left; assumption|right]. split; [assumption|]. eapply Hnet; eauto.
Qed.

Lemma listedOnNetwork_visit (order : MapOrder) k net
    (nodes : gmap Z NodeReward.t) :
  listedOnNetwork k net
    (map (fun kv => NodeReward.withAddress kv.2 kv.1)
       (visit order _ (map_to_list nodes)))
  = heldOnNetwork k net nodes.
Proof.
  unfold listedOnNetwork, heldOnNetwork, sumMap. rewrite map_map.
  rewrite (sumZ_Permutation _
             (map (fun kv : Z * NodeReward.t =>
                     if decide (NodeReward.Network kv.2 = net)
                     then nodeAmount k kv.2 else 0) (map_to_list nodes))).
  - reflexivity.
  - etransitivity.
    + apply Permutation_map. apply (visit_perm order).
    + apply Permutation_refl'. apply map_ext. intros [a n]. simpl.
      destruct (decide _); [destruct k|]; reflexivity.
Qed.

Section Mirror.

Variable tenEth : Z.
Variable IsEligibleForBonuses : MinipoolInfo.t -> bool.
Variable merkleRoot : list NetworkReward.t -> list NodeReward.t -> option Z.

(** X5: in the file a run of a new generator returns, every network
    entry holds, of each of the three assets, exactly what the node
    entries of its network hold together, and the network of every node
    entry has a network entry. *)
Theorem network_entries_mirror_node_entries
    (nodeOrder networkOrder : MapOrder) (rulesetVersion index : Z)
    (snapshotEnd : SnapshotEnd.t) (elSnapshotHeaderTime intervalsPassed : Z)
    (state : NetworkState.t) (rollingRecord : RollingRecord.t)
    (rp : ExecutionClient.t) (bc : BeaconClient.t)
    (res : GenerateTreeResult.t) :
  generateTree tenEth IsEligibleForBonuses merkleRoot nodeOrder networkOrder
    (newTreeGeneratorImpl_v9_v10_rolling rulesetVersion index snapshotEnd
       elSnapshotHeaderTime intervalsPassed state rollingRecord) rp bc
  = Ok res ->
  let nodes := SSZFile.NodeRewards (GenerateTreeResult.RewardsFile res) in
  let networks :=
    SSZFile.NetworkRewards (GenerateTreeResult.RewardsFile res) in
  (forall nw k,
     nw ∈ networks ->
     networkAmount k nw = listedOnNetwork k (NetworkReward.Network nw) nodes)
  /\ (forall n,
        n ∈ nodes ->
        exists nw,
          nw ∈ networks /\ NetworkReward.Network nw = NodeReward.Network n).
Proof.
  intros Hrun nodes networks. subst nodes networks.
  destruct (generateTree_accumulates tenEth IsEligibleForBonuses merkleRoot
              rp bc mirrored mirrored_accumulators (credit_mirrored rp)
              mirrored_performances nodeOrder networkOrder
              (newTreeGeneratorImpl_v9_v10_rolling rulesetVersion index
                 snapshotEnd elSnapshotHeaderTime intervalsPassed state
                 rollingRecord) res)
    as (r2 & (Hsum & Hnet) & _ & Hnodes & Hnets & _); [|exact Hrun|].
  { unfold mirrored, provision. simpl. split.
    - intros k net. rewrite lookup_empty. unfold heldOnNetwork.
      rewrite sumMap_empty. reflexivity.
    - intros a n Ha. rewrite lookup_empty in Ha. discriminate. }
  simpl in Hnodes, Hnets. rewrite Hnodes, Hnets. split.
  - intros nw k Hin. apply list_elem_of_fmap in Hin.
    destruct Hin as ([key v] & -> & Hin). simpl.
    rewrite (visit_perm networkOrder) in Hin.
    apply elem_of_map_to_list in Hin.
    rewrite listedOnNetwork_visit, <- Hsum, Hin. simpl.
    destruct k; reflexivity.
  - intros n Hin. apply list_elem_of_fmap in Hin.
    destruct Hin as ([a v] & -> & Hin). simpl.
    rewrite (visit_perm nodeOrder) in Hin.
    apply elem_of_map_to_list in Hin.
    destruct (Hnet a v Hin) as [nw Hnw].
    exists (NetworkReward.withNetwork nw (NodeReward.Network v)).
    split; [|reflexivity].
    apply list_elem_of_fmap. exists (NodeReward.Network v, nw).
    split; [reflexivity|].
    rewrite (visit_perm networkOrder). apply elem_of_map_to_list. exact Hnw.
Qed.

End Mirror.

Lemma network_entries_mirror_node_entries_witness :
  let nodes :=
    SSZFile.NodeRewards (GenerateTreeResult.RewardsFile Fixtures.fullResult) in
  let networks :=
    SSZFile.NetworkRewards
      (GenerateTreeResult.RewardsFile Fixtures.fullResult) in
  (forall nw k,
     nw ∈ networks ->
     networkAmount k nw = listedOnNetwork k (NetworkReward.Network nw) nodes)
  /\ (forall n,
        n ∈ nodes ->
        exists nw,
          nw ∈ networks /\ NetworkReward.Network nw = NodeReward.Network n).
Proof.
  apply (network_entries_mirror_node_entries Fixtures.tenEth
           Fixtures.eligible Fixtures.positional Fixtures.inOrder
           Fixtures.inOrder 10 5 Fixtures.snapshotEnd 1000 1
           (Fixtures.twoNodes 1000000) Fixtures.record Fixtures.rp
           Fixtures.bc Fixtures.fullResult).
  vm_compute. reflexivity.
Defined.

(** ** The lists of the rewards file *)

Section Lists.

Variable tenEth : Z.
Variable IsEligibleForBonuses : MinipoolInfo.t -> bool.
Variable merkleRoot : list NetworkReward.t -> list NodeReward.t -> option Z.



End Lists.


(** ** The network cache *)

(** X7: once [validateNetwork] has answered for a network, asking again
    gives the same answer without the execution client, whatever that
    client would now say, and leaves the generator as it is; the first
    call keeps every answer the cache already held. *)
Theorem validateNetwork_asks_once
    (rp rp' : ExecutionClient.t) (r r' : Gen.t) (network : Z) (valid : bool) :
  validateNetwork rp r network = Ok (valid, r') ->
  validateNetwork rp' r' network = Ok (valid, r')
  /\ (forall other v,
        Gen.validNetworkCache r !! other = Some v ->
        Gen.validNetworkCache r' !! other = Some v)
  /\ Gen.nodeRewards r' = Gen.nodeRewards r
  /\ Gen.networkRewards r' = Gen.networkRewards r
  /\ Gen.invalidNetworkNodes r' = Gen.invalidNetworkNodes r.
Proof.
  intros H.
  destruct (validateNetwork_cases _ _ _ _ _ H)
    as [[Hhit ->]|(Hmiss & Hq & ->)].
  - split; [|repeat split; auto].
    unfold validateNetwork. rewrite Hhit. reflexivity.
  - split; [|repeat split].
    + unfold validateNetwork. simpl. rewrite lookup_insert_eq. reflexivity.
    + intros other v Hother. simpl.
      rewrite lookup_insert_ne; [exact Hother|]. congruence.
Qed.

Lemma validateNetwork_asks_once_witness :
  let r := Fixtures.generator 10 Fixtures.abroad in
  let r' := Gen.withValidNetworkCache r {[ 4 := false ]} in
  validateNetwork Fixtures.rp r' 4 = Ok (false, r')
  /\ (forall other v,
        Gen.validNetworkCache r !! other = Some v ->
        Gen.validNetworkCache r' !! other = Some v)
  /\ Gen.nodeRewards r' = Gen.nodeRewards r
  /\ Gen.networkRewards r' = Gen.networkRewards r
  /\ Gen.invalidNetworkNodes r' = Gen.invalidNetworkNodes r.
Proof.
  intros r r'.
  apply (validateNetwork_asks_once Fixtures.strict Fixtures.rp r r' 4 false).
  reflexivity.
Defined.

(** ** Cheaters *)

Lemma fold_left_invariant {A B : Type} (P : A -> Prop) (f : A -> B -> A)
    (l : list B) :
  (forall a b, P a -> P (f a b)) -> forall a, P a -> P (fold_left f l a).
Proof. intros Hf. induction l as [|b l IH]; simpl; auto. Qed.

(** X8: [getCheaters] flags exactly the addresses of the node list that
    have, in the minipool index of the snapshot, a minipool with three
    or more penalties; it never stores a false flag. *)
Theorem getCheaters_flags_exactly_the_penalized (r : Gen.t) (address : Z) :
  let ns := Gen.networkState r in
  (isCheater (getCheaters r) address = true
   <-> exists nd mpds mpd,
         nd ∈ NetworkState.NodeDetails ns
         /\ NodeDetails.NodeAddress nd = address
         /\ NetworkState.MinipoolDetailsByNode ns !! address = Some mpds
         /\ mpd ∈ mpds
         /\ 3 <= MinipoolDetails.PenaltyCount mpd)
  /\ getCheaters r !! address <> Some false.
Proof.
  intros ns.
  assert (Hnofalse : getCheaters r !! address <> Some false).
  { unfold getCheaters.
    apply (fold_left_invariant
             (fun (m : gmap Z bool) => m !! address <> Some false)).
    - intros m nd Hm. destruct (existsb _ _); [|exact Hm].
      destruct (decide (NodeDetails.NodeAddress nd = address)) as [->|Hne].
      + rewrite lookup_insert_eq. discriminate.
      + rewrite lookup_insert_ne by exact Hne. exact Hm.
    - rewrite lookup_empty. discriminate. }
  split; [|exact Hnofalse].
  assert (Hflag : isCheater (getCheaters r) address = true
                  <-> getCheaters r !! address = Some true).
  { unfold isCheater. destruct (getCheaters r !! address) as [[|]|]; simpl;
      split; congruence. }
  rewrite Hflag, getCheaters_spec. fold ns. unfold hasPenalizedMinipool.
  split.
  - intros (nd & Hin & Haddr & Hex). apply existsb_exists in Hex.
    destruct Hex as (mpd & Hmpd & Hpen). rewrite Haddr in Hmpd.
    destruct (NetworkState.MinipoolDetailsByNode ns !! address)
      as [mpds|] eqn:Hk; simpl in Hmpd; [|inversion Hmpd].
    exists nd, mpds, mpd. repeat split; auto.
    + apply list_elem_of_In. exact Hmpd.
    + apply Z.leb_le. exact Hpen.
  - intros (nd & mpds & mpd & Hin & Haddr & Hk & Hmpd & Hpen).
    exists nd. repeat split; auto. apply existsb_exists. exists mpd.
    rewrite Haddr, Hk. simpl. split.
    + apply list_elem_of_In. exact Hmpd.
    + apply Z.leb_le. exact Hpen.
Qed.

(** ** How far the floored shares fall short *)

Lemma floors_drift (B T : Z) (l : list Z) :
  0 < T -> 0 <= B -> Forall (fun w => 0 <= w) l ->
  T * sumZ (map (fun w => B * w / T) l) <= B * sumZ l
  /\ B * sumZ l - Z.of_nat (length l) * (T - 1)
     <= T * sumZ (map (fun w => B * w / T) l).
Proof.
  intros HT HB Hl. induction Hl as [|w l Hw Hl IH].
  - unfold sumZ; simpl. lia.
  - destruct IH as [IH1 IH2].
    change (sumZ (map (fun w0 => B * w0 / T) (w :: l)))
      with (B * w / T + sumZ (map (fun w0 => B * w0 / T) l)).
    change (sumZ (w :: l)) with (w + sumZ l).
    change (length (w :: l)) with (S (length l)).
    pose proof (Z.mul_div_le (B * w) T HT) as Hle.
    pose proof (Z.mod_pos_bound (B * w) T HT) as Hmod.
    pose proof (Z.div_mod (B * w) T ltac:(lia)) as Hdm.
    split; nia.
Qed.

Lemma floors_fill (B T : Z) (l : list Z) :
  0 < T -> 0 <= B -> Forall (fun w => 0 <= w) l -> sumZ l = T ->
  0 <= B - sumZ (map (fun w => B * w / T) l) < Z.of_nat (length l).
Proof.
  intros HT HB Hl Hsum.
  destruct (floors_drift B T l HT HB Hl) as [H1 H2]. rewrite Hsum in H1, H2.
  assert (Hlen : 0 < Z.of_nat (length l)).
  { destruct l; [unfold sumZ in Hsum; simpl in Hsum; lia|simpl; lia]. }
  split; nia.
Qed.

Lemma collateralShare_floor budget (w : gmap Z Z) tw nd x :
  0 < tw -> 0 <= budget ->
  w !! NodeDetails.NodeAddress nd = Some x -> 0 <= x ->
  collateralShare budget w tw nd = budget * x / tw.
Proof.
  intros Htw Hb Hw Hx. unfold collateralShare, calculateNodeRplRewards.
  rewrite Hw. unfold Big.Sign.
  destruct (Z.leb_spec (Z.sgn x) 0) as [Hs|Hs].
  - assert (x = 0) by lia. subst x. simpl.
    rewrite Z.mul_0_r, Z.div_0_l by lia. reflexivity.
  - unfold Big.Quo.
    replace (tw =? 0) with false by (symmetry; apply Z.eqb_neq; lia).
    simpl. rewrite Z.quot_div_nonneg by nia.
    assert (Hq : 0 <= budget * x / tw) by (apply Z.div_pos; nia).
    destruct (Z.eqb_spec (Z.sgn (budget * x / tw)) 1) as [He|He];
      [reflexivity|lia].
Qed.

(** X9: when the total node weight is positive and is the sum of the
    non-negative weights of the listed nodes, and the collateral budget
    is not negative, the collateral shares the loop credits fall short
    of the budget by less than the number of nodes and never exceed it,
    so they are within the epsilon of the sanity check. *)
Theorem collateral_shares_fill_the_budget
    (ns : NetworkState.t) (w : gmap Z Z) (tw : Z) :
  NetworkState.CalculateNodeWeights ns = Some (w, tw) ->
  0 < tw ->
  0 <= collateralBudget ns ->
  (forall nd, nd ∈ NetworkState.NodeDetails ns ->
     exists x, w !! NodeDetails.NodeAddress nd = Some x /\ 0 <= x) ->
  sumZ (map (fun nd => default 0 (w !! NodeDetails.NodeAddress nd))
          (NetworkState.NodeDetails ns)) = tw ->
  0 <= collateralBudget ns - sumZ (collateralShares ns)
    < Z.of_nat (length (NetworkState.NodeDetails ns))
  /\ Z.abs (collateralBudget ns - sumZ (collateralShares ns))
     <= errorEpsilon ns.
Proof.
  intros Hw Htw Hb Hall Hsum.
  assert (Hshares :
    collateralShares ns
    = map (fun x => collateralBudget ns * x / tw)
        (map (fun nd => default 0 (w !! NodeDetails.NodeAddress nd))
           (NetworkState.NodeDetails ns))).
  { unfold collateralShares. rewrite Hw.
    replace (0 <? tw) with true by (symmetry; apply Z.ltb_lt; exact Htw).
    rewrite map_map. apply map_ext_in. intros nd Hin.
    apply list_elem_of_In in Hin. destruct (Hall nd Hin) as (x & Hx & Hpos).
    rewrite Hx. simpl. apply collateralShare_floor; assumption. }
  assert (Hfill :
    0 <= collateralBudget ns - sumZ (collateralShares ns)
      < Z.of_nat (length (NetworkState.NodeDetails ns))).
  { rewrite Hshares.
    rewrite <- (length_map
                  (fun nd => default 0 (w !! NodeDetails.NodeAddress nd))).
    apply floors_fill; [exact Htw|exact Hb| |exact Hsum].
    apply Forall_forall. intros x Hin. apply list_elem_of_In in Hin.
    apply in_map_iff in Hin.
    destruct Hin as (nd & <- & Hnd). apply list_elem_of_In in Hnd.
    destruct (Hall nd Hnd) as (y & Hy & Hpos). rewrite Hy. exact Hpos. }
  split; [exact Hfill|].
  unfold errorEpsilon.
  destruct (Z.ltb_spec (Z.of_nat (length (NetworkState.MinipoolDetails ns)))
              (Z.of_nat (length (NetworkState.NodeDetails ns)))); lia.
Qed.

Lemma collateral_shares_fill_the_budget_witness :
  let ns := Fixtures.twoNodes 1000000 in
  0 <= collateralBudget ns - sumZ (collateralShares ns)
    < Z.of_nat (length (NetworkState.NodeDetails ns))
  /\ Z.abs (collateralBudget ns - sumZ (collateralShares ns))
     <= errorEpsilon ns.
Proof.
  intros ns.
  apply (collateral_shares_fill_the_budget ns
           (list_to_map [(1, 1); (2, 2)]) 3).
  - reflexivity.
  - lia.
  - vm_compute. discriminate.
  - intros nd Hin. simpl in Hin.
    apply elem_of_cons in Hin. destruct Hin as [->|Hin].
    + exists 1. split; [vm_compute; reflexivity|lia].
    + apply elem_of_cons in Hin. destruct Hin as [->|Hin].
      * exists 2. split; [vm_compute; reflexivity|lia].
      * inversion Hin.
  - vm_compute. reflexivity.
Defined.

(** X10: when the total score is positive and is the sum of the
    non-negative scores of the scored minipools, the base shares the
    minipool loop credits fall short of a non-negative node operator
    total by less than the number of minipools and never exceed it. *)
Theorem base_shares_fill_the_node_operator_total
    (totalNodeOpShare totalScore : Z) (minipools : list MinipoolInfo.t) :
  0 < totalScore ->
  0 <= totalNodeOpShare ->
  (forall mp, mp ∈ minipools -> 0 <= MinipoolInfo.AttestationScore mp) ->
  sumZ (map MinipoolInfo.AttestationScore minipools) = totalScore ->
  0 <= totalNodeOpShare
       - sumZ (ethShares totalNodeOpShare totalScore minipools)
    < Z.of_nat (length minipools).
Proof.
  intros Hts Hshare Hall Hsum.
  assert (Hshares :
    ethShares totalNodeOpShare totalScore minipools
    = map (fun x => totalNodeOpShare * x / totalScore)
        (map MinipoolInfo.AttestationScore minipools)).
  { unfold ethShares. rewrite map_map. apply map_ext. intros mp.
    rewrite Big_Div_pos by exact Hts. reflexivity. }
  rewrite Hshares.
  rewrite <- (length_map MinipoolInfo.AttestationScore).
  apply floors_fill; [exact Hts|exact Hshare| |exact Hsum].
  apply Forall_forall. intros x Hin. apply list_elem_of_In in Hin.
  apply in_map_iff in Hin.
  destruct Hin as (mp & <- & Hmp). apply list_elem_of_In in Hmp. auto.
Qed.

Lemma base_shares_fill_the_node_operator_total_witness :
  0 <= 100000 - sumZ (ethShares 100000 (10 ^ 17) [Fixtures.info101])
    < Z.of_nat (length [Fixtures.info101]).
Proof.
  apply (base_shares_fill_the_node_operator_total 100000 (10 ^ 17)
           [Fixtures.info101]).
  - lia.
  - lia.
  - intros mp Hin. apply elem_of_cons in Hin. destruct Hin as [->|Hin].
    + vm_compute. discriminate.
    + inversion Hin.
  - vm_compute. reflexivity.
Defined.

(** ** The oDAO split at its edges *)

Lemma collateralRewards_times rp r pending pDao total w tw r1 pDao1 :
  collateralRewards rp r pending pDao total w tw = Ok (r1, pDao1) ->
  Gen.networkState r1 = Gen.networkState r
  /\ trueODaoNodeTimes r1 = trueODaoNodeTimes r.
Proof.
  unfold collateralRewards. intros H.
  assert (Hin : Gen.networkState r1 = Gen.networkState r
                /\ Gen.elSnapshotHeaderTime r1 = Gen.elSnapshotHeaderTime r).
  { destruct (0 <? Big.Sign tw).
    - bind_into H as r1' Hloop.
      apply foldM_sameInputs in Hloop;
        [|intros; eapply collateralStep_sameInputs; eauto].
      destruct Hloop as (Hns & _ & Ht & _).
      destruct (Gen.epsilon r1' <? _); [discriminate|].
      inversion H; subst. simpl in *. auto.
    - inversion H; subst. auto. }
  destruct Hin as [Hns Ht]. split; [exact Hns|].
  apply trueODaoNodeTimes_sameInputs; assumption.
Qed.

(** X11: the RPL allocation does not return when the snapshot has oDAO
    members whose participation times add up to zero (the division of
    the first member's reward panics), nor when it has no oDAO member,
    no oDAO RPL on the network entries and an oDAO budget beyond the
    epsilon. *)
Theorem odao_split_aborts_without_usable_members
    (rp : ExecutionClient.t) (r : Gen.t) :
  let ns := Gen.networkState r in
  (NetworkState.OracleDaoMemberDetails ns <> []
   /\ snd (trueODaoNodeTimes r) = 0)
  \/ (NetworkState.OracleDaoMemberDetails ns = []
      /\ sumMap NetworkReward.OracleDaoRpl (Gen.networkRewards r) = 0
      /\ Gen.epsilon r < Z.abs (odaoBudget ns)) ->
  exists e, calculateRplRewards rp r = Err e.
Proof.
  intros ns Hcase.
  destruct (result_cases (calculateRplRewards rp r)) as [[r' H]|He];
    [exfalso|exact He].
  destruct Hcase as [[Hmembers Hzero]|(Hnone & Hsum & Hbig)].
  - unfold calculateRplRewards in H.
    destruct (_ =? 0); [discriminate|].
    destruct (NetworkState.CalculateNodeWeights _) as [[w tw]|];
      [|discriminate].
    simpl in H. bind_into H as rp1 Hcoll. destruct rp1 as [r1 pDao1].
    destruct (collateralRewards_times _ _ _ _ _ _ _ _ _ Hcoll) as [Hns Ht].
    rewrite Ht in H. destruct (trueODaoNodeTimes r) as [times tt].
    simpl in Hzero. subst tt. rewrite Hns in H. fold ns in H.
    destruct (NetworkState.OracleDaoMemberDetails ns) as [|d ds];
      [congruence|].
    simpl in H. bind_into H as r2 Hloop. bind_into Hloop as r1' Hstep.
    unfold odaoStep in Hstep. bind_into Hstep as x Hx.
    unfold individualOdaoRewards in Hx. bind_into Hx as t Htime.
    unfold Big.Div in Hx. simpl in Hx. discriminate.
  - destruct (calculateRplRewards_sums _ _ _ H) as (_ & _ & _ & _ & _ & Hod).
    fold ns in Hod. rewrite Hsum in Hod.
    unfold odaoShares in Hod. fold ns in Hod.
    destruct (trueODaoNodeTimes r) as [times tt].
    rewrite Hnone in Hod. unfold sumZ in Hod. simpl in Hod.
    rewrite Z.sub_0_r in Hod. lia.
Qed.

Lemma odao_split_aborts_without_usable_members_witness :
  exists e,
    calculateRplRewards Fixtures.rp
      (provision (Fixtures.generator 10 Fixtures.lateMember)) = Err e.
Proof.
  apply (odao_split_aborts_without_usable_members Fixtures.rp
           (provision (Fixtures.generator 10 Fixtures.lateMember))).
  left. split.
  - discriminate.
  - vm_compute. reflexivity.
Defined.

(** ** The bonus fee *)

Section Fee.

Variable tenEth : Z.
Variable IsEligibleForBonuses : MinipoolInfo.t -> bool.

(** X12: for a positive [tenEth] the fee with bonus is defined for every
    borrowed percentage, does not fall when the percentage rises, is at
    least 0.10 Eth for a percentage that is not negative and is
    0.14 Eth from [tenEth] on. *)
Theorem fee_with_bonus_rises_to_fourteen_percent
    (percentOfBorrowedEth : Z) :
  0 < tenEth ->
  exists fee,
    feeWithBonus tenEth percentOfBorrowedEth = Ok fee
    /\ (0 <= percentOfBorrowedEth -> pointOneEth <= fee)
    /\ (tenEth <= percentOfBorrowedEth -> fee = fourteenPercentEth)
    /\ (forall higher fee',
          percentOfBorrowedEth <= higher ->
          feeWithBonus tenEth higher = Ok fee' -> fee <= fee').
Proof.
  intros Hten.
  destruct (feeWithBonus_floor tenEth percentOfBorrowedEth Hten) as [Hfee _].
  eexists. split; [exact Hfee|]. split; [|split].
  - intros Hpos.
    assert (0 <= Z.min tenEth percentOfBorrowedEth * pointOhFourEth / tenEth).
    { apply Z.div_pos; [|lia]. unfold pointOhFourEth. lia. }
    lia.
  - intros Hfull. rewrite Z.min_l by lia.
    rewrite Z.mul_comm, Z.div_mul by lia. reflexivity.
  - intros higher fee' Hle Hfee'.
    destruct (feeWithBonus_floor tenEth higher Hten) as [Hh _].
    rewrite Hh in Hfee'. inversion Hfee'; subst fee'.
    apply Z.add_le_mono_r. apply Z.div_le_mono; [lia|].
    apply Z.mul_le_mono_nonneg_r; [unfold pointOhFourEth; lia|lia].
Qed.

(** X13: for a positive [tenEth], a minipool whose base fee is 0.14 Eth
    or more gets no bonus, whatever the borrowed percentage of its node:
    its bonus and its consensus income are cleared and nothing is added
    to the totals. *)
Theorem no_bonus_from_fourteen_percent_on
    (ns : NetworkState.t) (percentOfBorrowedEth : Z) (mpd : MinipoolInfo.t)
    (mpi : MinipoolDetails.t) :
  0 < tenEth ->
  NetworkState.MinipoolDetailsByAddress ns !! MinipoolInfo.Address mpd
  = Some mpi ->
  fourteenPercentEth <= MinipoolDetails.NodeFee mpi ->
  minipoolBonus tenEth IsEligibleForBonuses ns percentOfBorrowedEth mpd
  = Ok (MinipoolInfo.withIncome (MinipoolInfo.withBonus mpd None) None, 0).
Proof.
  intros Hten Hmpi Hfee. unfold minipoolBonus. rewrite Hmpi. simpl.
  destruct (IsEligibleForBonuses mpd); [|reflexivity]. simpl.
  destruct (feeWithBonus_floor tenEth percentOfBorrowedEth Hten) as [-> Hle].
  simpl.
  replace (_ <=? MinipoolDetails.NodeFee mpi) with true
    by (symmetry; apply Z.leb_le; lia).
  reflexivity.
Qed.

End Fee.

Lemma fee_with_bonus_rises_to_fourteen_percent_witness :
  exists fee,
    feeWithBonus Fixtures.tenEth (5 * 10 ^ 18) = Ok fee
    /\ (0 <= 5 * 10 ^ 18 -> pointOneEth <= fee)
    /\ (Fixtures.tenEth <= 5 * 10 ^ 18 -> fee = fourteenPercentEth)
    /\ (forall higher fee',
          5 * 10 ^ 18 <= higher ->
          feeWithBonus Fixtures.tenEth higher = Ok fee' -> fee <= fee').
Proof.
  apply (fee_with_bonus_rises_to_fourteen_percent Fixtures.tenEth
           (5 * 10 ^ 18)).
  vm_compute. reflexivity.
Defined.

Lemma no_bonus_from_fourteen_percent_on_witness :
  minipoolBonus Fixtures.tenEth Fixtures.eligible
    (Fixtures.twoNodes 1000000) (5 * 10 ^ 18) Fixtures.info102
  = Ok (MinipoolInfo.withIncome
          (MinipoolInfo.withBonus Fixtures.info102 None) None, 0).
Proof.
  apply (no_bonus_from_fourteen_percent_on Fixtures.tenEth Fixtures.eligible
           (Fixtures.twoNodes 1000000) (5 * 10 ^ 18) Fixtures.info102
           Fixtures.pool102).
  - vm_compute. reflexivity.
  - vm_compute. reflexivity.
  - vm_compute. discriminate.
Defined.

(** ** The errors of the smoothing pool split *)

Lemma bind_Err {A B : Type} (c : result A) (k : A -> result B) e :
  bind c k = Err e -> c = Err e \/ exists a, c = Ok a /\ k a = Err e.
Proof.
  destruct c as [a|e0]; simpl; intros H.
  - right. exists a. split; [reflexivity|exact H].
  - left. congruence.
Qed.

Lemma orPanic_Err {A : Type} (o : option A) e :
  orPanic o = Err e -> e = EPanic.
Proof. destruct o; simpl; congruence. Qed.

Lemma mapM_Err {A B : Type} (f : A -> result B) (l : list A) e :
  mapM f l = Err e -> exists a, a ∈ l /\ f a = Err e.
Proof.
  induction l as [|a l IH]; simpl; intros H; [discriminate|].
  apply bind_Err in H. destruct H as [H|(b & Hb & H)].
  - exists a. split; [left|exact H].
  - apply bind_Err in H. destruct H as [H|(bs & Hbs & H)]; [|discriminate].
    destruct (IH H) as (a' & Hin & Ha'). exists a'. split; [by right|exact Ha'].
Qed.

Lemma foldM_Err {A S : Type} (f : S -> A -> result S) (l : list A) e :
  forall s, foldM f l s = Err e -> exists s0 a, a ∈ l /\ f s0 a = Err e.
Proof.
  induction l as [|a l IH]; simpl; intros s H; [discriminate|].
  apply bind_Err in H. destruct H as [H|(s1 & Hs1 & H)].
  - exists s, a. split; [left|exact H].
  - destruct (IH _ H) as (s0 & a' & Hin & Ha'). exists s0, a'.
    split; [by right|exact Ha'].
Qed.

Lemma gmapM_Err {V W : Type} (f : V -> result W) (m : gmap Z V) e :
  gmapM f m = Err e -> exists k v, m !! k = Some v /\ f v = Err e.
Proof.
  unfold gmapM. intros H. apply bind_Err in H.
  destruct H as [H|(l & _ & H)]; [|discriminate].
  apply mapM_Err in H. destruct H as ([k v] & Hin & H).
  apply elem_of_map_to_list in Hin. exists k, v. split; [exact Hin|].
  simpl in H. apply bind_Err in H. destruct H as [H|(w & _ & H)];
    [exact H|discriminate].
Qed.

Section Errors.

Variable tenEth : Z.
Variable IsEligibleForBonuses : MinipoolInfo.t -> bool.
Hypothesis tenEth_positive : 0 < tenEth.

Lemma minipoolBonus_Err ns pct mpd e :
  minipoolBonus tenEth IsEligibleForBonuses ns pct mpd = Err e -> e = EPanic.
Proof.
  unfold minipoolBonus. intros H.
  apply bind_Err in H. destruct H as [H|(mpi & _ & H)];
    [exact (orPanic_Err _ _ H)|].
  destruct (negb (IsEligibleForBonuses mpd)); [discriminate|].
  destruct (feeWithBonus_floor tenEth pct tenEth_positive) as [Hfee Hle].
  rewrite Hfee in H. simpl in H.
  destruct (_ <=? MinipoolDetails.NodeFee mpi); [discriminate|].
  replace (fourteenPercentEth <? _) with false in H
    by (symmetry; apply Z.ltb_ge; exact Hle).
  apply bind_Err in H. destruct H as [H|(income & _ & H)];
    [exact (orPanic_Err _ _ H)|discriminate].
Qed.

Lemma calculateNodeBonuses_Err r e :
  calculateNodeBonuses tenEth IsEligibleForBonuses r = Err e -> e = EPanic.
Proof.
  unfold calculateNodeBonuses. intros H.
  apply bind_Err in H. destruct H as [H|(m & _ & H)]; [|discriminate].
  apply gmapM_Err in H. destruct H as (k & nsd & _ & H).
  unfold nodeBonuses in H.
  destruct (negb (NodeSmoothingDetails.IsEligible nsd)); [discriminate|].
  apply bind_Err in H. destruct H as [H|(nd & _ & H)];
    [exact (orPanic_Err _ _ H)|].
  apply bind_Err in H. destruct H as [H|(l & _ & H)]; [|discriminate].
  apply mapM_Err in H. destruct H as (mpd & _ & H).
  exact (minipoolBonus_Err _ _ _ _ H).
Qed.

Lemma scaleNode_Err R T nsd e : scaleNode R T nsd = Err e -> e = EPanic.
Proof.
  unfold scaleNode. intros H.
  apply bind_Err in H. destruct H as [H|(b & _ & H)];
    [exact (orPanic_Err _ _ H)|].
  apply bind_Err in H. destruct H as [H|(mps & _ & H)]; [|discriminate].
  apply mapM_Err in H. destruct H as (mpd & _ & H).
  unfold scaleMinipool in H.
  apply bind_Err in H. destruct H as [H|(b0 & _ & H)];
    [exact (orPanic_Err _ _ H)|].
  apply bind_Err in H. destruct H as [H|(b1 & _ & H)];
    [exact (orPanic_Err _ _ H)|discriminate].
Qed.

Lemma minipoolStep_Err ns cheaters share ts nds mp e :
  minipoolStep ns cheaters share ts nds mp = Err e -> e = EPanic.
Proof.
  unfold minipoolStep. intros H.
  apply bind_Err in H. destruct H as [H|(nodeInfo & _ & H)].
  - destruct (nds !! MinipoolInfo.NodeAddress mp); [discriminate|].
    apply bind_Err in H. destruct H as [H|(nnd & _ & H)];
      [exact (orPanic_Err _ _ H)|discriminate].
  - apply bind_Err in H. destruct H as [H|(nmd & _ & H)];
      [exact (orPanic_Err _ _ H)|].
    apply bind_Err in H. destruct H as [H|(q & _ & H)];
      [exact (orPanic_Err _ _ H)|discriminate].
Qed.

(** X14: with a positive [tenEth], [calculateNodeRewards] fails in two
    ways only: with the error of the smoothing pool sanity check, or
    with a panic (a missing index entry, a nil income or bonus, a zero
    divisor).  The error for a bonus fee above 14% cannot occur. *)
Theorem calculateNodeRewards_fails_on_check_or_panic (r : Gen.t) (e : error) :
  calculateNodeRewards tenEth IsEligibleForBonuses r = Err e ->
  e = ESmoothingEpsilon \/ e = EPanic.
Proof.
  unfold calculateNodeRewards. intros H.
  destruct (RollingRecord.GetScores _ _) as [[mps ts] cnt].
  destruct ((ts =? 0) || (cnt =? 0)); [discriminate|].
  apply bind_Err in H. destruct H as [H|(share & _ & H)].
  { right. unfold totalNodeOpShare in H.
    apply bind_Err in H. destruct H as [H|(q & _ & H)];
      [exact (orPanic_Err _ _ H)|discriminate]. }
  apply bind_Err in H. destruct H as [H|(nds & _ & H)].
  { right. apply foldM_Err in H. destruct H as (s0 & mp & _ & H).
    exact (minipoolStep_Err _ _ _ _ _ _ _ H). }
  apply bind_Err in H. destruct H as [H|([r1 bs] & _ & H)].
  { right. unfold bonuses in H.
    destruct (10 <=? _); [|discriminate].
    apply bind_Err in H. destruct H as [H|([T rb] & _ & H)];
      [exact (calculateNodeBonuses_Err _ _ H)|].
    destruct (_ <? T); [|discriminate].
    apply bind_Err in H. destruct H as [H|(sc & _ & H)];
      [exact (orPanic_Err _ _ H)|].
    apply bind_Err in H. destruct H as [H|(nds' & _ & H)]; [|discriminate].
    apply gmapM_Err in H. destruct H as (k & nsd & _ & H).
    exact (scaleNode_Err _ _ _ _ H). }
  destruct (Gen.epsilon r1 <? _); [|discriminate].
  left. congruence.
Qed.

End Errors.

Lemma calculateNodeRewards_fails_on_check_or_panic_witness :
  calculateNodeRewards Fixtures.tenEth Fixtures.eligible
    (Gen.withSmoothingPoolBalance
       (Fixtures.generator 10 Fixtures.noMinipoolIndex) 1000000)
  = Err EPanic
  /\ (EPanic = ESmoothingEpsilon \/ EPanic = EPanic).
Proof.
  split; [vm_compute; reflexivity|].
  apply (calculateNodeRewards_fails_on_check_or_panic Fixtures.tenEth
           Fixtures.eligible ltac:(vm_compute; reflexivity)
           (Gen.withSmoothingPoolBalance
              (Fixtures.generator 10 Fixtures.noMinipoolIndex) 1000000)
           EPanic).
  vm_compute. reflexivity.
Defined.

(** ** The start of the interval *)

Section IntervalStart.

Variable tenEth : Z.
Variable IsEligibleForBonuses : MinipoolInfo.t -> bool.

(** X15: when the smoothing pool is allocated, a Beacon client that
    fails on the start slot, a start slot without a block and an
    execution client that fails on the header of the block each abort
    the allocation with their own error, before anything is
    calculated; an allocation that returns has recorded the start slot,
    its execution block and the two blocks of the snapshot end in the
    rewards file. *)
Theorem interval_start_block_is_fetched_first
    (flag : bool) (rp : ExecutionClient.t) (bc : BeaconClient.t)
    (r : Gen.t) :
  let startSlot := RollingRecord.StartSlot (Gen.rollingRecord r) in
  let run := calculateEthRewards tenEth IsEligibleForBonuses flag rp bc r in
  NetworkDetails.SmoothingPoolBalance
    (NetworkState.NetworkDetails (Gen.networkState r)) <> 0 ->
  SSZFile.Index (Gen.rewardsFile r) <> 0 ->
  match BeaconClient.GetBeaconBlock bc startSlot with
  | None => run = Err EBeaconBlock
  | Some None => run = Err EBeaconBlockMissing
  | Some (Some elBlockNumber) =>
      match ExecutionClient.HeaderByNumber rp (Big.int64 elBlockNumber) with
      | None => run = Err EHeader
      | Some _ =>
          forall r',
            run = Ok r' ->
            let f := Gen.rewardsFile r' in
            SSZFile.ConsensusStartBlock f = startSlot
            /\ SSZFile.ExecutionStartBlock f = elBlockNumber
            /\ SSZFile.ConsensusEndBlock f
               = SnapshotEnd.ConsensusBlock (Gen.snapshotEnd r)
            /\ SSZFile.ExecutionEndBlock f
               = SnapshotEnd.ExecutionBlock (Gen.snapshotEnd r)
      end
  end.
Proof.
  intros startSlot run Hbal Hidx. subst run startSlot.
  assert (Hstart : forall e,
    getBlocksAndTimesForInterval rp bc
      (Gen.withSmoothingPoolBalance r
         (NetworkDetails.SmoothingPoolBalance
            (NetworkState.NetworkDetails (Gen.networkState r)))) = Err e ->
    calculateEthRewards tenEth IsEligibleForBonuses flag rp bc r = Err e).
  { intros e He. unfold calculateEthRewards. simpl.
    replace (_ =? 0) with false by (symmetry; apply Z.eqb_neq; exact Hbal).
    replace (SSZFile.Index _ =? 0) with false
      by (symmetry; apply Z.eqb_neq; exact Hidx).
    rewrite He. reflexivity. }
  destruct (BeaconClient.GetBeaconBlock bc
              (RollingRecord.StartSlot (Gen.rollingRecord r)))
    as [[el|]|] eqn:Hbc.
  - destruct (ExecutionClient.HeaderByNumber rp (Big.int64 el))
      as [st|] eqn:Hh.
    + intros r' Hrun.
      destruct (calculateEthRewards_inv _ _ _ _ _ _ _ Hrun Hbal Hidx)
        as (st' & f & ps & no & bs & r1 & r2 & Hblocks & _ & _ & Hnr & Hloop
            & Hr').
      unfold getBlocksAndTimesForInterval in Hblocks. simpl in Hblocks.
      rewrite Hbc, Hh in Hblocks. inversion Hblocks as [[Hst Hf]].
      pose proof (calculateNodeRewards_only_nodes _ _ _ _ _ _ _ Hnr) as Hr1.
      pose proof (foldM_sameInputs _ _
        (fun s a s' => ethStep_sameInputs rp s a s') _ _ Hloop)
        as (_ & Hfile & _).
      assert (Hfile2 : Gen.rewardsFile r2 = f).
      { rewrite Hfile. unfold withScalar. rewrite Hr1.
        destruct (10 <=? _); reflexivity. }
      subst r'. simpl. rewrite Hfile2, <- Hf. simpl. repeat split.
    + apply Hstart. unfold getBlocksAndTimesForInterval. simpl.
      rewrite Hbc, Hh. reflexivity.
  - apply Hstart. unfold getBlocksAndTimesForInterval. simpl.
    rewrite Hbc. reflexivity.
  - apply Hstart. unfold getBlocksAndTimesForInterval. simpl.
    rewrite Hbc. reflexivity.
Qed.

(** X16: when the rolling record yields a zero total score or a zero
    attestation count, an allocation whose start block is found gives
    the whole balance to the pool stakers and nothing to the node
    operators, and credits no node and no network. *)
Theorem unscored_pool_goes_to_the_pool_stakers
    (flag : bool) (rp : ExecutionClient.t) (bc : BeaconClient.t) (r : Gen.t)
    (elBlockNumber startTime : Z) (minipools : list MinipoolInfo.t)
    (totalScore attestationCount : Z) :
  let balance :=
    NetworkDetails.SmoothingPoolBalance
      (NetworkState.NetworkDetails (Gen.networkState r)) in
  balance <> 0 ->
  SSZFile.Index (Gen.rewardsFile r) <> 0 ->
  BeaconClient.GetBeaconBlock bc (RollingRecord.StartSlot (Gen.rollingRecord r))
  = Some (Some elBlockNumber) ->
  ExecutionClient.HeaderByNumber rp (Big.int64 elBlockNumber)
  = Some startTime ->
  RollingRecord.GetScores (Gen.rollingRecord r) (getCheaters r)
  = (minipools, totalScore, attestationCount) ->
  totalScore = 0 \/ attestationCount = 0 ->
  Gen.nodeDetails r = ∅ ->
  exists r',
    calculateEthRewards tenEth IsEligibleForBonuses flag rp bc r = Ok r'
    /\ TotalRewards.PoolStakerSmoothingPoolEth (Gen.totalRewards r') = balance
    /\ TotalRewards.NodeOperatorSmoothingPoolEth (Gen.totalRewards r') = 0
    /\ TotalRewards.TotalSmoothingPoolEth (Gen.totalRewards r') = balance
    /\ Gen.nodeRewards r' = Gen.nodeRewards r
    /\ Gen.networkRewards r' = Gen.networkRewards r
    /\ Gen.invalidNetworkNodes r' = Gen.invalidNetworkNodes r.
Proof.
  intros balance Hbal Hidx Hbc Hh Hs Hzero Hnone.
  pose (g0 := Gen.withSmoothingPoolBalance r balance).
  pose (f := SSZFile.withBlocks (Gen.rewardsFile g0)
               (RollingRecord.StartSlot (Gen.rollingRecord r)) elBlockNumber
               (SnapshotEnd.ConsensusBlock (Gen.snapshotEnd r))
               (SnapshotEnd.ExecutionBlock (Gen.snapshotEnd r))).
  assert (Hblocks : getBlocksAndTimesForInterval rp bc g0
                    = Ok (startTime, Gen.withRewardsFile g0 f)).
  { unfold getBlocksAndTimesForInterval. simpl. rewrite Hbc, Hh.
    reflexivity. }
  assert (Hnr : calculateNodeRewards tenEth IsEligibleForBonuses
                  (atNodeRewards r f startTime)
                = Ok (balance, 0, oneEth, atNodeRewards r f startTime)).
  { unfold calculateNodeRewards.
    rewrite (getCheaters_networkState (atNodeRewards r f startTime) r)
      by reflexivity.
    change (Gen.rollingRecord (atNodeRewards r f startTime))
      with (Gen.rollingRecord r).
    rewrite Hs.
    replace ((totalScore =? 0) || (attestationCount =? 0)) with true.
    - reflexivity.
    - symmetry. apply orb_true_iff.
      destruct Hzero as [->| ->]; [left|right]; reflexivity. }
  assert (Hloop : foldM (ethStep rp)
                    (map_to_list (Gen.nodeDetails (atNodeRewards r f startTime)))
                    (withScalar (atNodeRewards r f startTime) oneEth)
                  = Ok (withScalar (atNodeRewards r f startTime) oneEth)).
  { change (Gen.nodeDetails (atNodeRewards r f startTime))
      with (Gen.nodeDetails r).
    rewrite Hnone, map_to_list_empty. reflexivity. }
  eexists. split.
  - exact (calculateEthRewards_run tenEth IsEligibleForBonuses flag rp bc r
             startTime f balance 0 oneEth _ _ Hbal Hidx Hblocks Hnr Hloop).
  - unfold withScalar, Gen.totalRewards.
    destruct (10 <=? _); simpl; repeat split.
Qed.

End IntervalStart.

Lemma interval_start_block_is_fetched_first_witness :
  let f := Gen.rewardsFile Fixtures.afterEth in
  SSZFile.ConsensusStartBlock f = 32
  /\ SSZFile.ExecutionStartBlock f = 7
  /\ SSZFile.ConsensusEndBlock f = 100
  /\ SSZFile.ExecutionEndBlock f = 90.
Proof.
  apply (interval_start_block_is_fetched_first Fixtures.tenEth
           Fixtures.eligible true Fixtures.rp Fixtures.bc
           (Fixtures.generator 10 (Fixtures.twoNodes 1000000))
           ltac:(vm_compute; discriminate) ltac:(vm_compute; discriminate)
           Fixtures.afterEth).
  vm_compute. reflexivity.
Defined.

Lemma unscored_pool_goes_to_the_pool_stakers_witness :
  let r := Fixtures.generator 10 Fixtures.penalized in
  exists r',
    calculateEthRewards Fixtures.tenEth Fixtures.eligible true Fixtures.rp
      Fixtures.bc r = Ok r'
    /\ TotalRewards.PoolStakerSmoothingPoolEth (Gen.totalRewards r') = 1000000
    /\ TotalRewards.NodeOperatorSmoothingPoolEth (Gen.totalRewards r') = 0
    /\ TotalRewards.TotalSmoothingPoolEth (Gen.totalRewards r') = 1000000
    /\ Gen.nodeRewards r' = Gen.nodeRewards r
    /\ Gen.networkRewards r' = Gen.networkRewards r
    /\ Gen.invalidNetworkNodes r' = Gen.invalidNetworkNodes r.
Proof.
  intros r.
  apply (unscored_pool_goes_to_the_pool_stakers Fixtures.tenEth
           Fixtures.eligible true Fixtures.rp Fixtures.bc r 7 500 [] 0 0).
  - vm_compute. discriminate.
  - vm_compute. discriminate.
  - reflexivity.
  - reflexivity.
  - vm_compute. reflexivity.
  - left. reflexivity.
  - reflexivity.
Defined.

(** ** The performance file *)






Section PerformanceFile.

Variable tenEth : Z.
Variable IsEligibleForBonuses : MinipoolInfo.t -> bool.
Variable merkleRoot : list NetworkReward.t -> list NodeReward.t -> option Z.


End PerformanceFile.


(** ** The totals and the lists *)

Lemma credit_sums rp k address network x r r' :
  credit rp k address network x r = Ok r' ->
  forall k',
    sumMap (networkAmount k') (Gen.networkRewards r')
    = sumMap (networkAmount k') (Gen.networkRewards r)
      + (if sameAsset k k' then x else 0)
    /\ sumMap (nodeAmount k') (Gen.nodeRewards r')
       = sumMap (nodeAmount k') (Gen.nodeRewards r)
         + (if sameAsset k k' then x else 0).
Proof.
  intros H k'.
  destruct (credit_inv _ _ _ _ _ _ _ H)
    as (n & r1 & Hn & _ & _ & Hnodes & Hnets).
  assert (Hshape :
    Gen.nodeRewards r' = <[address := addToNode k n x]> (Gen.nodeRewards r)
    /\ Gen.networkRewards r1 = Gen.networkRewards r
    /\ from_option (nodeAmount k') 0 (Gen.nodeRewards r !! address)
       = nodeAmount k' n).
  { destruct (rewardsForNode_cases _ _ _ _ _ _ Hn)
      as [[Hk ->]|(Hk & nv & valid & r0 & _ & _ & Hnew & _ & _ & Hn1 & Hw1)].
    - split; [exact Hnodes|]. split; [reflexivity|]. rewrite Hk. reflexivity.
    - rewrite Hnodes, Hn1, insert_insert_eq. split; [reflexivity|].
      split; [exact Hw1|]. rewrite Hk. subst n. destruct k'; reflexivity. }
  destruct Hshape as (Hnodes' & Hw1 & Hold).
  rewrite Hw1 in Hnets. rewrite Hnodes', Hnets. split.
  - rewrite sumMap_insert. rewrite amount_added_to_network.
    destruct (Gen.networkRewards r !! NodeReward.Network n); simpl;
      destruct k'; simpl; lia.
  - rewrite sumMap_insert, Hold, amount_added_to_node. lia.
Qed.

Lemma balanced_accumulators r r' :
  accumulators r' = accumulators r -> balanced r -> balanced r'.
Proof.
  unfold accumulators, balanced. intros Heq H.
  inversion Heq as [[Hc Hi Hn Hw Hp]]. rewrite Hn, Hw. exact H.
Qed.

Lemma credit_balanced rp k address network x r r' :
  balanced r -> credit rp k address network x r = Ok r' -> balanced r'.
Proof.
  intros Hb H k'. destruct (credit_sums _ _ _ _ _ _ _ H k') as [-> ->].
  rewrite (Hb k'). reflexivity.
Qed.

(** The totals the RPL allocation records are the sums over the
    network entries. *)
Lemma calculateRplRewards_recorded rp r r' w tw :
  NetworkState.CalculateNodeWeights (Gen.networkState r) = Some (w, tw) ->
  0 < tw ->
  calculateRplRewards rp r = Ok r' ->
  TotalRewards.TotalCollateralRpl (Gen.totalRewards r')
  = sumMap NetworkReward.CollateralRpl (Gen.networkRewards r')
  /\ TotalRewards.TotalOracleDaoRpl (Gen.totalRewards r')
     = sumMap NetworkReward.OracleDaoRpl (Gen.networkRewards r').
Proof.
  intros Hw Htw H. unfold calculateRplRewards in H. rewrite Hw in H.
  destruct (_ =? 0); [discriminate|]. simpl in H.
  bind_into H as rp1 Hcoll. destruct rp1 as [r1 pDao1].
  assert (Hrec : TotalRewards.TotalCollateralRpl (Gen.totalRewards r1)
                 = sumMap NetworkReward.CollateralRpl (Gen.networkRewards r1)).
  { unfold collateralRewards in Hcoll.
    replace (0 <? Big.Sign tw) with true in Hcoll
      by (symmetry; apply Z.ltb_lt; unfold Big.Sign; lia).
    bind_into Hcoll as r1' Hloop.
    destruct (Gen.epsilon r1' <? _); [discriminate|].
    inversion Hcoll; subst. reflexivity. }
  destruct (trueODaoNodeTimes r1) as [times tt].
  bind_into H as r2 Hloop.
  destruct (Gen.epsilon r2 <? _); [discriminate|].
  inversion H; subst; clear H.
  pose proof (foldM_sameInputs _ _
    (fun s a s' => odaoStep_sameInputs rp times _ tt s a s') _ _ Hloop)
    as (_ & Hfile & _).
  apply (foldM_invariant
           (fun s => sumMap NetworkReward.CollateralRpl (Gen.networkRewards s)
                     = sumMap NetworkReward.CollateralRpl
                         (Gen.networkRewards r1)) _ _) in Hloop;
    [| |reflexivity].
  - unfold Gen.totalRewards in *. simpl. rewrite Hfile, Hrec, Hloop.
    split; reflexivity.
  - intros s d s' Hs Hstep.
    destruct (odaoStep_credit _ _ _ _ _ _ _ Hstep) as (net & x & Hx).
    destruct (credit_sums _ _ _ _ _ _ _ Hx Collateral) as [Hsum _].
    simpl in Hsum. change (networkAmount Collateral)
      with NetworkReward.CollateralRpl in Hsum. lia.
Qed.

Lemma sumZ_visit {A : Type} (order : MapOrder) (f : A -> Z) (l : list A) :
  sumZ (map f (visit order _ l)) = sumZ (map f l).
Proof.
  apply sumZ_Permutation. apply Permutation_map. apply (visit_perm order).
Qed.

Section Leaves.

Variable tenEth : Z.
Variable IsEligibleForBonuses : MinipoolInfo.t -> bool.
Variable merkleRoot : list NetworkReward.t -> list NodeReward.t -> option Z.

(** X18: in the file a run of a new generator returns for a snapshot
    with a positive total node weight, the total collateral RPL and the
    total oDAO RPL are the sums over the node list, and the node list
    and the network list add up to the same amount of each of the
    three assets. *)
Theorem totals_are_the_sums_of_the_lists
    (nodeOrder networkOrder : MapOrder) (rulesetVersion index : Z)
    (snapshotEnd : SnapshotEnd.t) (elSnapshotHeaderTime intervalsPassed : Z)
    (state : NetworkState.t) (rollingRecord : RollingRecord.t)
    (rp : ExecutionClient.t) (bc : BeaconClient.t)
    (res : GenerateTreeResult.t) (w : gmap Z Z) (tw : Z) :
  let f := GenerateTreeResult.RewardsFile res in
  let nodes := SSZFile.NodeRewards f in
  let networks := SSZFile.NetworkRewards f in
  generateTree tenEth IsEligibleForBonuses merkleRoot nodeOrder networkOrder
    (newTreeGeneratorImpl_v9_v10_rolling rulesetVersion index snapshotEnd
       elSnapshotHeaderTime intervalsPassed state rollingRecord) rp bc
  = Ok res ->
  NetworkState.CalculateNodeWeights state = Some (w, tw) ->
  0 < tw ->
  TotalRewards.TotalCollateralRpl (SSZFile.TotalRewards f)
  = sumZ (map NodeReward.CollateralRpl nodes)
  /\ TotalRewards.TotalOracleDaoRpl (SSZFile.TotalRewards f)
     = sumZ (map NodeReward.OracleDaoRpl nodes)
  /\ (forall k,
        sumZ (map (networkAmount k) networks)
        = sumZ (map (nodeAmount k) nodes)).
Proof.
  intros f nodes networks Hrun Hw Htw. subst f nodes networks.
  pose (r := newTreeGeneratorImpl_v9_v10_rolling rulesetVersion index
               snapshotEnd elSnapshotHeaderTime intervalsPassed state
               rollingRecord).
  fold r in Hrun.
  destruct (generateTree_inv _ _ _ _ _ _ _ _ _ Hrun)
    as (r1 & r2 & root & Hrpl & Heth & Hfile & _).
  destruct (calculateRplRewards_recorded rp (provision r) r1 w tw Hw Htw Hrpl)
    as [Hcoll Hodao].
  pose proof (calculateRplRewards_file _ _ _ Hrpl) as (t1 & Hfile1 & _).
  assert (Hb1 : balanced r1).
  { apply (calculateRplRewards_accumulates rp balanced balanced_accumulators
             (credit_balanced rp) (provision r) r1); [|exact Hrpl].
    intros k. reflexivity. }
  destruct (calculateEthRewards_totals _ _ _ _ _ _ _ Heth)
    as (_ & Htc & Hto & _).
  destruct (calculateEthRewards_accumulates tenEth IsEligibleForBonuses rp bc
              (fun s => balanced s
                        /\ forall k, sameAsset SmoothingPool k = false ->
                             sumMap (networkAmount k) (Gen.networkRewards s)
                             = sumMap (networkAmount k)
                                 (Gen.networkRewards r1)))
    with (flag := true) (r := r1) (r' := r2)
    as ((Hb2 & Hkeep) & Hnodes & Hnets).
  - intros s s' Heq [Hb Hk]. split; [eapply balanced_accumulators; eauto|].
    unfold accumulators in Heq. inversion Heq as [[Hc Hi Hn Hnw Hp]].
    rewrite Hnw. exact Hk.
  - intros address network x s s' [Hb Hk] Hc.
    split; [eapply credit_balanced; eauto|].
    intros k Hne. destruct (credit_sums _ _ _ _ _ _ _ Hc k) as [-> _].
    rewrite Hne, (Hk k Hne). lia.
  - intros s minipools Hs. exact Hs.
  - split; [exact Hb1|]. intros k _. reflexivity.
  - exact Heth.
  - rewrite Hfile. unfold assignLists. simpl.
    rewrite Hnodes, Hnets, Hfile1. simpl.
    change (SSZFile.TotalRewards (Gen.rewardsFile r2))
      with (Gen.totalRewards r2).
    rewrite Htc, Hto, Hcoll, Hodao.
    assert (Hlist : forall k,
      sumZ (map (nodeAmount k)
              (map (fun kv => NodeReward.withAddress kv.2 kv.1)
                 (visit nodeOrder _ (map_to_list (Gen.nodeRewards r2)))))
      = sumMap (nodeAmount k) (Gen.nodeRewards r2)).
    { intros k. rewrite map_map. unfold sumMap.
      rewrite (sumZ_visit nodeOrder). apply (f_equal sumZ). apply map_ext.
      intros [a n]. destruct k; reflexivity. }
    assert (Hnlist : forall k,
      sumZ (map (networkAmount k)
              (map (fun kv => NetworkReward.withNetwork kv.2 kv.1)
                 (visit networkOrder _ (map_to_list (Gen.networkRewards r2)))))
      = sumMap (networkAmount k) (Gen.networkRewards r2)).
    { intros k. rewrite map_map. unfold sumMap.
      rewrite (sumZ_visit networkOrder). apply (f_equal sumZ).
      apply map_ext. intros [a n]. destruct k; reflexivity. }
    split; [|split].
    + transitivity (sumMap (networkAmount Collateral) (Gen.networkRewards r2));
        [symmetry; exact (Hkeep Collateral eq_refl)|].
      rewrite (Hb2 Collateral). symmetry. exact (Hlist Collateral).
    + transitivity (sumMap (networkAmount OracleDao) (Gen.networkRewards r2));
        [symmetry; exact (Hkeep OracleDao eq_refl)|].
      rewrite (Hb2 OracleDao). symmetry. exact (Hlist OracleDao).
    + intros k. rewrite Hlist, Hnlist. apply Hb2.
Qed.

End Leaves.

Lemma totals_are_the_sums_of_the_lists_witness :
  let f := GenerateTreeResult.RewardsFile Fixtures.fullResult in
  let nodes := SSZFile.NodeRewards f in
  let networks := SSZFile.NetworkRewards f in
  TotalRewards.TotalCollateralRpl (SSZFile.TotalRewards f)
  = sumZ (map NodeReward.CollateralRpl nodes)
  /\ TotalRewards.TotalOracleDaoRpl (SSZFile.TotalRewards f)
     = sumZ (map NodeReward.OracleDaoRpl nodes)
  /\ (forall k,
        sumZ (map (networkAmount k) networks)
        = sumZ (map (nodeAmount k) nodes)).
Proof.
  apply (totals_are_the_sums_of_the_lists Fixtures.tenEth Fixtures.eligible
           Fixtures.positional Fixtures.inOrder Fixtures.inOrder 10 5
           Fixtures.snapshotEnd 1000 1 (Fixtures.twoNodes 1000000)
           Fixtures.record Fixtures.rp Fixtures.bc Fixtures.fullResult
           (list_to_map [(1, 1); (2, 2)]) 3).
  - vm_compute. reflexivity.
  - reflexivity.
  - lia.
Defined.

(** ** The oDAO shares *)

Lemma trueODaoNodeTimes_fold (interval snapshotTime : Z)
    (l : list OracleDaoMember.t) :
  forall acc : gmap Z Z * Z,
    let out :=
      fold_left
        (fun acc d =>
           let t := participationTime interval snapshotTime
                      (OracleDaoMember.JoinedTime d) in
           (<[OracleDaoMember.Address d := t]> acc.1, acc.2 + t))
        l acc in
    out.2
    = acc.2
      + sumZ (map (fun d => participationTime interval snapshotTime
                              (OracleDaoMember.JoinedTime d)) l)
    /\ (forall a, a ∉ map OracleDaoMember.Address l -> out.1 !! a = acc.1 !! a)
    /\ (NoDup (map OracleDaoMember.Address l) ->
        forall d, d ∈ l ->
          out.1 !! OracleDaoMember.Address d
          = Some (participationTime interval snapshotTime
                    (OracleDaoMember.JoinedTime d))).
Proof.
  induction l as [|d0 l IH]; intros acc; simpl.
  - split; [unfold sumZ; simpl; lia|]. split; [reflexivity|].
    intros _ d Hd. inversion Hd.
  - destruct (IH (<[OracleDaoMember.Address d0 :=
                      participationTime interval snapshotTime
                        (OracleDaoMember.JoinedTime d0)]> acc.1,
                  acc.2 + participationTime interval snapshotTime
                            (OracleDaoMember.JoinedTime d0)))
      as (Hsum & Hother & Hmember).
    simpl in Hsum, Hother, Hmember. split; [|split].
    + rewrite Hsum. unfold sumZ. simpl. lia.
    + intros a Ha. rewrite Hother.
      * apply lookup_insert_ne. intros Heq. apply Ha. rewrite <- Heq. left.
      * intros Hin. apply Ha. right. exact Hin.
    + intros Hnd d Hd. inversion Hnd as [|? ? Hnotin Hnd']; subst.
      apply elem_of_cons in Hd. destruct Hd as [->|Hd].
      * rewrite Hother by exact Hnotin. apply lookup_insert_eq.
      * apply Hmember; assumption.
Qed.

(** X19: when the oDAO members have distinct addresses and joined no
    later than the snapshot, the interval is not negative, the total
    participation time is positive and the oDAO budget is not negative,
    the oDAO shares the loop credits never exceed the budget and fall
    short of it by less than the number of members. *)
Theorem odao_shares_fill_the_budget (r : Gen.t) :
  let ns := Gen.networkState r in
  let members := NetworkState.OracleDaoMemberDetails ns in
  NoDup (map OracleDaoMember.Address members) ->
  (forall d, d ∈ members ->
     OracleDaoMember.JoinedTime d <= Gen.elSnapshotHeaderTime r) ->
  0 <= NetworkDetails.IntervalDuration (NetworkState.NetworkDetails ns) ->
  0 < snd (trueODaoNodeTimes r) ->
  0 <= odaoBudget ns ->
  0 <= odaoBudget ns - sumZ (odaoShares r) < Z.of_nat (length members).
Proof.
  intros ns members. subst members ns.
  intros Hnd Hjoined Hinterval Htotal Hbudget.
  unfold odaoShares, trueODaoNodeTimes in *.
  remember (Gen.networkState r) as ns eqn:Hns.
  remember (NetworkState.OracleDaoMemberDetails ns) as members eqn:Hmembers.
  pose (t := fun d =>
          participationTime
            (NetworkDetails.IntervalDuration (NetworkState.NetworkDetails ns))
            (Gen.elSnapshotHeaderTime r) (OracleDaoMember.JoinedTime d)).
  destruct (trueODaoNodeTimes_fold
              (NetworkDetails.IntervalDuration
                 (NetworkState.NetworkDetails ns))
              (Gen.elSnapshotHeaderTime r) members (∅, 0))
    as (Hsum & _ & Hmember).
  destruct (fold_left _ members (∅, 0)) as [times tt].
  simpl in Hsum, Hmember, Htotal. fold t in Hsum.
  assert (Hshares :
    map (fun d =>
           match individualOdaoRewards times (odaoBudget ns) tt
                   (OracleDaoMember.Address d) with
           | Ok x => x
           | Err _ => 0
           end) members
    = map (fun x => odaoBudget ns * x / tt) (map t members)).
  { rewrite map_map. apply map_ext_in. intros d Hd.
    apply list_elem_of_In in Hd. unfold individualOdaoRewards.
    rewrite (Hmember Hnd d Hd). simpl.
    rewrite Big_Div_pos by exact Htotal. simpl.
    rewrite Z.mul_comm. reflexivity. }
  rewrite Hshares. rewrite <- (length_map t).
  apply floors_fill; [exact Htotal|exact Hbudget| |lia].
  apply Forall_forall. intros x Hin. apply list_elem_of_In in Hin.
  apply in_map_iff in Hin. destruct Hin as (d & <- & Hd).
  apply list_elem_of_In in Hd. specialize (Hjoined d Hd).
  unfold t, participationTime. destruct (_ <? _); lia.
Qed.

Lemma odao_shares_fill_the_budget_witness :
  let r := Fixtures.generator 10 (Fixtures.twoNodes 1000000) in
  0 <= odaoBudget (Gen.networkState r) - sumZ (odaoShares r)
    < Z.of_nat (length (NetworkState.OracleDaoMemberDetails
                          (Gen.networkState r))).
Proof.
  intros r. apply (odao_shares_fill_the_budget r).
  - simpl. apply NoDup_cons. split; [apply not_elem_of_nil|apply NoDup_nil_2].
  - intros d Hd. simpl in Hd. apply elem_of_cons in Hd.
    destruct Hd as [->|Hd]; [vm_compute; discriminate|inversion Hd].
  - vm_compute. discriminate.
  - vm_compute. reflexivity.
  - vm_compute. discriminate.
Defined.

(** ** The smoothing pool ETH of a node *)

Lemma credit_amounts rp k address network x r r' :
  credit rp k address network x r = Ok r' ->
  forall k' b,
    from_option (nodeAmount k') 0 (Gen.nodeRewards r' !! b)
    = from_option (nodeAmount k') 0 (Gen.nodeRewards r !! b)
      + (if decide (address = b)
         then (if sameAsset k k' then x else 0) else 0).
Proof.
  intros H k' b.
  destruct (credit_inv _ _ _ _ _ _ _ H)
    as (n & r1 & Hn & _ & _ & Hnodes & _).
  assert (Hshape :
    Gen.nodeRewards r' = <[address := addToNode k n x]> (Gen.nodeRewards r)
    /\ from_option (nodeAmount k') 0 (Gen.nodeRewards r !! address)
       = nodeAmount k' n).
  { destruct (rewardsForNode_cases _ _ _ _ _ _ Hn)
      as [[Hk ->]|(Hk & nv & valid & r0 & _ & _ & Hnew & _ & _ & Hn1 & _)].
    - split; [exact Hnodes|]. rewrite Hk. reflexivity.
    - rewrite Hnodes, Hn1, insert_insert_eq. split; [reflexivity|].
      rewrite Hk. subst n. destruct k'; reflexivity. }
  destruct Hshape as (-> & Hold).
  destruct (decide (address = b)) as [Heq|Hne].
  - subst b. rewrite lookup_insert_eq. simpl.
    rewrite amount_added_to_node, Hold. reflexivity.
  - rewrite lookup_insert_ne by exact Hne. lia.
Qed.

Lemma ethStep_pays rp r entry r' :
  ethStep rp r entry = Ok r' ->
  forall b,
    smoothingOf r' b
    = smoothingOf r b
      + (if decide (entry.1 = b)
         then (if 0 <? NodeSmoothingDetails.SmoothingPoolEth entry.2
               then NodeSmoothingDetails.SmoothingPoolEth entry.2 else 0)
         else 0).
Proof.
  unfold ethStep. intros H b.
  destruct (0 <? NodeSmoothingDetails.SmoothingPoolEth entry.2) eqn:Hpos.
  - bind_into H as nr Hn. destruct nr as [n r1].
    inversion H; subst; clear H.
    assert (Hc : exists rc,
      credit rp SmoothingPool entry.1
        (Ok (NodeSmoothingDetails.RewardsNetwork entry.2))
        (NodeSmoothingDetails.SmoothingPoolEth entry.2) r = Ok rc
      /\ Gen.nodeRewards rc
         = <[entry.1 := NodeReward.addSmoothingPoolEth n
                          (NodeSmoothingDetails.SmoothingPoolEth entry.2)]>
             (Gen.nodeRewards r1)).
    { eexists. split.
      - unfold credit. rewrite Hn. simpl. reflexivity.
      - reflexivity. }
    destruct Hc as (rc & Hc & Hnodes).
    pose proof (credit_amounts _ _ _ _ _ _ _ Hc SmoothingPool b) as Ha.
    unfold smoothingOf. simpl. rewrite <- Hnodes. exact Ha.
  - inversion H; subst. destruct (decide _); lia.
Qed.

Lemma sum_at_key {V : Type} (g : V -> Z) (b : Z) (m : gmap Z V) :
  sumZ (map (fun e : Z * V => if decide (e.1 = b) then g e.2 else 0)
          (map_to_list m))
  = from_option g 0 (m !! b).
Proof.
  induction m as [|i x m Hi IH] using map_ind.
  - rewrite map_to_list_empty, lookup_empty. reflexivity.
  - rewrite (sumZ_Permutation _
               (map (fun e : Z * V => if decide (e.1 = b) then g e.2 else 0)
                  ((i, x) :: map_to_list m)))
      by (apply Permutation_map; apply map_to_list_insert; exact Hi).
    change (sumZ (map (fun e : Z * V => if decide (e.1 = b) then g e.2 else 0)
                    ((i, x) :: map_to_list m)))
      with ((if decide (i = b) then g x else 0)
            + sumZ (map (fun e : Z * V =>
                           if decide (e.1 = b) then g e.2 else 0)
                      (map_to_list m))).
    rewrite IH. destruct (decide (i = b)) as [Heq|Hne].
    + subst b. rewrite lookup_insert_eq, Hi. simpl. lia.
    + rewrite lookup_insert_ne by exact Hne. lia.
Qed.

Section NodeEth.

Variable tenEth : Z.
Variable IsEligibleForBonuses : MinipoolInfo.t -> bool.

(** X20: when the smoothing pool is allocated, the allocation adds to
    the smoothing pool ETH of every address exactly the amount of the
    node record of that address, once, when that amount is positive,
    and nothing otherwise. *)
Theorem smoothing_pool_eth_is_credited_once
    (flag : bool) (rp : ExecutionClient.t) (bc : BeaconClient.t)
    (r r' : Gen.t) (address : Z) :
  calculateEthRewards tenEth IsEligibleForBonuses flag rp bc r = Ok r' ->
  NetworkDetails.SmoothingPoolBalance
    (NetworkState.NetworkDetails (Gen.networkState r)) <> 0 ->
  SSZFile.Index (Gen.rewardsFile r) <> 0 ->
  smoothingOf r' address
  = smoothingOf r address + smoothingEarned (Gen.nodeDetails r') address.
Proof.
  intros H Hbal Hidx.
  destruct (calculateEthRewards_inv _ _ _ _ _ _ _ H Hbal Hidx)
    as (st & f & ps & no & bs & r1 & r2 & _ & _ & _ & Hnr & Hloop & Hr').
  pose proof (calculateNodeRewards_only_nodes _ _ _ _ _ _ _ Hnr) as Hr1.
  pose proof (foldM_sameInputs _ _
    (fun s a s' => ethStep_sameInputs rp s a s') _ _ Hloop)
    as (_ & _ & _ & _ & _ & _ & _ & _ & Hnds).
  assert (Hnds1 : Gen.nodeDetails r2 = Gen.nodeDetails r1).
  { rewrite Hnds. unfold withScalar. destruct (10 <=? _); reflexivity. }
  assert (Hstart : smoothingOf (withScalar r1 bs) address
                   = smoothingOf r address).
  { unfold smoothingOf, withScalar. rewrite Hr1.
    destruct (10 <=? _); reflexivity. }
  pose proof (foldM_measure (fun s => smoothingOf s address)
                (fun e : Z * NodeSmoothingDetails.t =>
                   if decide (e.1 = address)
                   then (if 0 <? NodeSmoothingDetails.SmoothingPoolEth e.2
                         then NodeSmoothingDetails.SmoothingPoolEth e.2
                         else 0)
                   else 0)
                (ethStep rp) (map_to_list (Gen.nodeDetails r1))
                (fun s e s' Hs => ethStep_pays rp s e s' Hs address)
                _ _ Hloop) as Hsum.
  simpl in Hsum. rewrite Hstart in Hsum.
  rewrite (sum_at_key
             (fun nsd => if 0 <? NodeSmoothingDetails.SmoothingPoolEth nsd
                         then NodeSmoothingDetails.SmoothingPoolEth nsd
                         else 0) address (Gen.nodeDetails r1)) in Hsum.
  subst r'. unfold smoothingOf, smoothingEarned in *. simpl.
  rewrite Hnds1, Hsum.
  destruct (Gen.nodeDetails r1 !! address); reflexivity.
Qed.

End NodeEth.

Lemma smoothing_pool_eth_is_credited_once_witness :
  smoothingOf Fixtures.afterEth 1
  = smoothingOf (Fixtures.generator 10 (Fixtures.twoNodes 1000000)) 1
    + smoothingEarned (Gen.nodeDetails Fixtures.afterEth) 1.
Proof.
  apply (smoothing_pool_eth_is_credited_once Fixtures.tenEth
           Fixtures.eligible true Fixtures.rp Fixtures.bc
           (Fixtures.generator 10 (Fixtures.twoNodes 1000000))
           Fixtures.afterEth 1).
  - vm_compute. reflexivity.
  - vm_compute. discriminate.
  - vm_compute. discriminate.
Defined.
